(** * go-scp: the directory walker, the directory reconstructor and the
      transport session, embedded from [sink.go] and the receive-side source
      file, with the properties the specification states about them and
      further properties of the code. *)

From Stdlib Require Import String Ascii List ZArith NArith Bool Arith Lia.
Import ListNotations.
Open Scope list_scope.
Open Scope string_scope.

Set Implicit Arguments.

(** ** Results of fallible calls

    A Go function returning [(T, error)] is embedded as a function into
    [result T]. The errors the program tells apart from the others are
    constructors of their own. *)

Inductive error : Type :=
| EOF                          (* io.EOF *)
| ErrNotExist                  (* an error for which os.IsNotExist holds *)
| errorString (msg : string).  (* errors.New, fmt.Errorf *)

(** [err.Error()] *)
Definition Error (e : error) : string :=
  match e with
  | EOF => "EOF"
  | ErrNotExist => "no such file or directory"
  | errorString msg => msg
  end.

(** [os.IsNotExist(err)] for a non-nil [err] *)
Definition IsNotExist (e : error) : bool :=
  match e with
  | ErrNotExist => true
  | _ => false
  end.

Inductive result (A : Type) : Type :=
| Ok (a : A)
| Err (e : error).
Arguments Ok {A} a.
Arguments Err {A} e.

(** ** The part of Go's [strings] package the program uses *)

Module strings.

(** [strings.Split(s, sep)] for a separator of one character. *)
Fixpoint Split (s : string) (sep : ascii) : list string :=
  match s with
  | EmptyString => [EmptyString]
  | String c s' =>
      if Ascii.eqb c sep then EmptyString :: Split s' sep
      else match Split s' sep with
           | [] => [String c EmptyString]
           | x :: xs => String c x :: xs
           end
  end.

(** [strings.Join(elems, sep)]. *)
Fixpoint Join (elems : list string) (sep : string) : string :=
  match elems with
  | [] => ""
  | [x] => x
  | x :: xs => x ++ sep ++ Join xs sep
  end.

(** [strings.HasPrefix(s, prefix)]. *)
Definition HasPrefix (s pre : string) : bool := String.prefix pre s.

End strings.

(** ** The part of Go's [path/filepath] package the program uses (Unix) *)

Module filepath.

Definition Separator : ascii := "/"%char.
Definition SeparatorString : string := String Separator EmptyString.

Definition isRooted (p : string) : bool :=
  match p with
  | String c _ => Ascii.eqb c Separator
  | EmptyString => false
  end.

(** One path element handled by [Clean]; [out] is the stack of elements
    kept so far, the last one first. *)
Definition cleanStep (rooted : bool) (out : list string) (e : string)
  : list string :=
  if (e =? "") || (e =? ".") then out
  else if e =? ".." then
    match out with
    | top :: rest => if top =? ".." then e :: out else rest
    | [] => if rooted then [] else [e]
    end
  else e :: out.

Definition cleanElems (rooted : bool) (es : list string) : list string :=
  rev (fold_left (cleanStep rooted) es []).

Definition render (rooted : bool) (es : list string) : string :=
  if rooted then SeparatorString ++ strings.Join es SeparatorString
  else match es with
       | [] => "."
       | _ => strings.Join es SeparatorString
       end.

(** [filepath.Clean]: the shortest lexically equivalent path. *)
Definition Clean (p : string) : string :=
  render (isRooted p)
         (cleanElems (isRooted p) (strings.Split p Separator)).

Fixpoint hasSep (s : string) : bool :=
  match s with
  | EmptyString => false
  | String c s' => Ascii.eqb c Separator || hasSep s'
  end.

(** The prefix of [s] up to and including its last separator. *)
Fixpoint uptoLastSep (s : string) : string :=
  match s with
  | EmptyString => EmptyString
  | String c s' =>
      if Ascii.eqb c Separator || hasSep s'
      then String c (uptoLastSep s')
      else EmptyString
  end.

(** [filepath.Dir]: all but the last element of the path, cleaned. *)
Definition Dir (p : string) : string := Clean (uptoLastSep p).

(** [filepath.Base]: the last element of the path. *)
Definition Base (p : string) : string :=
  if p =? "" then "."
  else match rev (filter (fun e => negb (e =? ""))
                         (strings.Split p Separator)) with
       | [] => SeparatorString
       | e :: _ => e
       end.

(** [filepath.Join]: the elements from the first non-empty one on, joined
    with the separator and cleaned. *)
Fixpoint Join (elem : list string) : string :=
  match elem with
  | [] => ""
  | e :: rest =>
      if e =? "" then Join rest
      else Clean (strings.Join elem SeparatorString)
  end.

(** The elements [Rel] compares: those after the root separator. *)
Definition relElems (p : string) : list string :=
  let q := match p with
           | String c q' => if Ascii.eqb c Separator then q' else p
           | EmptyString => p
           end in
  if q =? "" then [] else strings.Split q Separator.

Fixpoint dropCommon (bs ts : list string) : list string * list string :=
  match bs, ts with
  | b :: bs', t :: ts' => if b =? t then dropCommon bs' ts' else (bs, ts)
  | _, _ => (bs, ts)
  end.

(** [filepath.Rel]: a relative path from [basepath] to [targpath]. *)
Definition Rel (basepath targpath : string) : result string :=
  let base := Clean basepath in
  let targ := Clean targpath in
  if targ =? base then Ok "."
  else
    let base := if base =? "." then "" else base in
    if negb (Bool.eqb (isRooted base) (isRooted targ))
    then Err (errorString ("Rel: can't make " ++ targpath ++
                           " relative to " ++ basepath))
    else
      match dropCommon (relElems base) (relElems targ) with
      | ([], ts) => Ok (strings.Join ts SeparatorString)
      | (b :: bs, ts) =>
          if (b =? "..") && negb (length ts =? 0)%nat
          then Err (errorString ("Rel: can't make " ++ targpath ++
                                 " relative to " ++ basepath))
          else Ok (strings.Join (map (fun _ => "..") (b :: bs) ++ ts)
                                SeparatorString)
      end.

End filepath.


(** ** Data model *)

Definition FileMode : Type := N.
Bind Scope N_scope with FileMode.
Definition ModeDir : FileMode := (2 ^ 31)%N.
Definition ModePerm777 : FileMode := 511%N.   (* 0777 *)

(** Seconds since the epoch; the protocol carries no finer resolution. *)
Definition Time : Type := Z.
Bind Scope Z_scope with Time.

(** Modelled from the spec: the transfer-level descriptor of a file or
    directory, whose source file is not among the sources. [NewFileInfo]
    takes name, size, mode, modification time and access time. *)
Record FileInfo : Type := NewFileInfo {
  Name : string;
  Size : Z;
  Mode : FileMode;
  ModTime : Time;
  AccessTime : Time
}.

Definition IsDir (fi : FileInfo) : bool :=
  negb (N.eqb (N.land (Mode fi) ModeDir) 0).

(** Modelled from the spec: the time header of the wire protocol (the
    protocol code is not among the sources). *)
Record timeMsgHeader : Type := { Mtime : Time; Atime : Time }.

(** Modelled from the spec: the file header, with the fields [Mode], [Size]
    and [Name] the sources read. *)
Record fileMsgHeader : Type :=
  { fhMode : FileMode; fhSize : Z; fhName : string }.

(** Modelled from the spec: the start-directory header, with the fields
    [Mode] and [Name] the sources read. *)
Record startDirectoryMsgHeader : Type :=
  { dhMode : FileMode; dhName : string }.

(** Modelled from the spec: what [ReadHeaderOrReply] can return. *)
Inductive header : Type :=
| timeMsg (h : timeMsgHeader)
| startDirectoryMsg (h : startDirectoryMsgHeader)
| endDirectoryMsg
| fileMsg (h : fileMsgHeader)
| okMsg.

(** What the remote process has written and the client has not read yet: a
    header, or the run of bytes of one file body. *)
Inductive token : Type :=
| THeader (h : header)
| TBody (b : list Byte.byte).

(** An [io.Writer] a file body is copied to. *)
Inductive Writer : Type :=
| fileWriter (name : string)    (* the *os.File opened under this name *)
| Discard.                      (* ioutil.Discard *)

(** A [context.Context]: [None] when [Done()] is nil (it can never be
    cancelled), [Some k] when its signal fires once the session has done [k]
    I/O operations. *)
Definition Context : Type := option nat.

(** The calls the program makes on its collaborators (the operating system,
    the secure-shell session, the caller's filter), in the order made. *)
Inductive event : Type :=
| EvStat (name : string)
| EvMkdirAll (path : string) (perm : FileMode)
| EvOpenFile (name : string) (perm : FileMode)
| EvOpen (name : string)
| EvFileClose (name : string)
| EvChmod (name : string) (mode : FileMode)
| EvChtimes (name : string) (atime mtime : Time)
| EvAccept (parentDir : string) (info : FileInfo)
| EvNewSession
| EvStdoutPipe
| EvStdinPipe
| EvStart (cmd : string)
| EvGo (done : nat)
| EvClose
| EvCloseStdin
| EvWait
| EvReadHeaderOrReply
| EvCopyFileBodyTo (h : fileMsgHeader) (w : Writer)
| EvWrite (w : Writer) (b : list Byte.byte)
| EvWriteFile (info : FileInfo)
| EvStartDirectory (info : FileInfo)
| EvEndDirectory.

(** The helpers of the package that are not among the sources, and the
    behaviour of the collaborators. *)
Record env : Type := {
  realPath : string -> string;
  escapeShellArg : string -> string;
  osStat : string -> result FileInfo;   (* os.Stat *)
  osErr : event -> option error         (* the error of a call, if it fails *)
}.

(** [AcceptFunc] *)
Definition AcceptFunc : Type := string -> FileInfo -> result bool.

Definition acceptAny : AcceptFunc := fun _ _ => Ok true.

(** [if acceptFn == nil { acceptFn = acceptAny }] *)
Definition filterOrAny (acceptFn : option AcceptFunc) : AcceptFunc :=
  match acceptFn with
  | None => acceptAny
  | Some f => f
  end.

(** The SCP client; the secure-shell client it holds is a collaborator. *)
Record SCP : Type := { ctx : Context }.

(** ** State and effects *)

Record world : Type := mkWorld {
  stream : list token;       (* unread output of the remote process *)
  trace : list event;        (* calls made so far *)
  closed : bool;             (* the session has been closed *)
  ticks : nat;               (* session I/O operations done *)
  watcher : option nat       (* a watcher goroutine waits for this signal *)
}.

Definition M (A : Type) : Type := world -> result A * world.

Definition ret {A : Type} (a : A) : M A := fun w => (Ok a, w).

Definition bind {A B : Type} (c : M A) (k : A -> M B) : M B :=
  fun w => match c w with
           | (Ok a, w') => k a w'
           | (Err e, w') => (Err e, w')
           end.

Definition throw {A : Type} (e : error) : M A := fun w => (Err e, w).

Declare Scope scp_scope.
Delimit Scope scp_scope with scp.
Notation "x <- c ;; k" := (bind c (fun x => k))
  (at level 61, c at next level, right associativity) : scp_scope.
Notation "c ;; k" := (bind c (fun _ => k))
  (at level 61, right associativity) : scp_scope.
Open Scope scp_scope.

(** [fmt.Errorf(prefix + "%s", err)] on the error path of [c]. *)
Definition wrap {A : Type} (pre : string) (c : M A) : M A :=
  fun w => match c w with
           | (Err e, w') => (Err (errorString (pre ++ Error e)), w')
           | r => r
           end.

(** A deferred call: [d] runs after [c], whatever [c] returns. *)
Definition defer {A : Type} (d : M unit) (c : M A) : M A :=
  fun w => let (r, w1) := c w in (r, snd (d w1)).

Definition addEvent (ev : event) (w : world) : world :=
  mkWorld (stream w) (trace w ++ [ev]) (closed w) (ticks w) (watcher w).

Definition emit (ev : event) : M unit := fun w => (Ok tt, addEvent ev w).

(** A call that the environment may fail. *)
Definition call (E : env) (ev : event) : M unit :=
  emit ev ;;
  match osErr E ev with
  | Some e => throw e
  | None => ret tt
  end.

(** ** The transport session *)

Definition setStream (s : list token) (w : world) : world :=
  mkWorld s (trace w) (closed w) (ticks w) (watcher w).

(** [session.Close()]: a second close changes nothing more. *)
Definition sessionClose : M unit :=
  fun w => (Ok tt, mkWorld (stream w) (trace w ++ [EvClose]) true
                           (ticks w) (watcher w)).

(** The goroutine [go func() { ...; select { case <-done: s.Close() } }()]:
    from now on a watcher waits for the signal of [done]. A nil [done]
    makes the goroutine return at once. *)
Definition goWatch (c : Context) : M unit :=
  match c with
  | None => ret tt
  | Some k =>
      fun w => (Ok tt, mkWorld (stream w) (trace w ++ [EvGo k]) (closed w)
                               (ticks w) (Some k))
  end.

(** The waiting watcher runs as soon as its signal has fired: it closes the
    session and ends. *)
Definition runWatcher : M unit :=
  fun w => match watcher w with
           | Some k =>
               if (k <=? ticks w)%nat
               then (Ok tt, mkWorld (stream w) (trace w ++ [EvClose]) true
                                    (ticks w) None)
               else (Ok tt, w)
           | None => (Ok tt, w)
           end.

(** Modelled from the spec: one blocking read or write on the session's
    streams (the protocol code is not among the sources). Closing the session
    makes it fail with an I/O error. *)
Definition sessionIO : M unit :=
  runWatcher ;;
  fun w => if closed w
           then (Err (errorString "read/write on closed session"), w)
           else (Ok tt, mkWorld (stream w) (trace w) (closed w)
                                (S (ticks w)) (watcher w)).

(** The option string and the command line of [newResourceSession]. *)
Definition resourceCommand (E : env) (remoteSrcPath : string)
    (remoteSrcIsDir : bool) (scpPath : string)
    (recursive updatesPermission : bool) : string :=
  let scpPath := if scpPath =? "" then "scp" else scpPath in
  let opt := "-f" in
  let opt := if updatesPermission then opt ++ "p" else opt in
  let opt := if recursive then opt ++ "r" else opt in
  let opt := if remoteSrcIsDir then opt ++ "d" else opt in
  scpPath ++ " " ++ opt ++ " " ++ escapeShellArg E remoteSrcPath.

Definition newResourceSession (E : env) (remoteSrcPath : string)
    (remoteSrcIsDir : bool) (scpPath : string)
    (recursive updatesPermission : bool) : M unit :=
  let closing (c : M unit) : M unit :=
    fun w => match c w with
             | (Err e, w') => (Err e, snd (sessionClose w'))
             | r => r
             end in
  closing (call E EvNewSession) ;;
  closing (call E EvStdoutPipe) ;;
  closing (call E EvStdinPipe) ;;
  closing (call E (EvStart (resourceCommand E remoteSrcPath remoteSrcIsDir
                              scpPath recursive updatesPermission))).

Definition sessionWait (E : env) : M unit := call E EvWait.

Definition runResourceSession (E : env) (c : Context)
    (remoteSrcPath : string) (remoteSrcIsDir : bool) (scpPath : string)
    (recursive updatesPermission : bool) (handler : M unit) : M unit :=
  newResourceSession E remoteSrcPath remoteSrcIsDir scpPath recursive
                     updatesPermission ;;
  defer sessionClose
        (goWatch c ;;
         handler ;;
         sessionWait E).

(** The option string and the command line of [newSinkSession]. *)
Definition sinkCommand (E : env) (remoteDestPath : string)
    (remoteDestIsDir : bool) (scpPath : string)
    (recursive updatesPermission : bool) : string :=
  let scpPath := if scpPath =? "" then "scp" else scpPath in
  let opt := "-t" in
  let opt := if updatesPermission then opt ++ "p" else opt in
  let opt := if recursive then opt ++ "r" else opt in
  let opt := if remoteDestIsDir then opt ++ "d" else opt in
  scpPath ++ " " ++ opt ++ " " ++ escapeShellArg E remoteDestPath.

Definition newSinkSession (E : env) (remoteDestPath : string)
    (remoteDestIsDir : bool) (scpPath : string)
    (recursive updatesPermission : bool) : M unit :=
  let closing (c : M unit) : M unit :=
    fun w => match c w with
             | (Err e, w') => (Err e, snd (sessionClose w'))
             | r => r
             end in
  call E EvNewSession ;;
  closing (call E EvStdoutPipe) ;;
  closing (call E EvStdinPipe) ;;
  closing (call E (EvStart (sinkCommand E remoteDestPath remoteDestIsDir
                              scpPath recursive updatesPermission))).

Definition runSinkSession (E : env) (remoteDestPath : string)
    (remoteDestIsDir : bool) (scpPath : string)
    (recursive updatesPermission : bool) (handler : M unit) : M unit :=
  newSinkSession E remoteDestPath remoteDestIsDir scpPath recursive
                 updatesPermission ;;
  defer sessionClose
        (defer (emit EvCloseStdin) handler ;;
         sessionWait E).

(** ** The two protocol roles *)

(** Modelled from the spec: [ReadHeaderOrReply] of the protocol code, which
    is not among the sources. It returns the next header, [EOF] at a clean
    end of the stream, and an error when what comes next is not a header. *)
Definition ReadHeaderOrReply : M header :=
  sessionIO ;;
  emit EvReadHeaderOrReply ;;
  fun w => match stream w with
           | [] => (Err EOF, w)
           | THeader h :: rest => (Ok h, setStream rest w)
           | TBody _ :: _ =>
               (Err (errorString "invalid message type"), w)
           end.

(** Modelled from the spec: [CopyFileBodyTo] of the protocol code, which is
    not among the sources. It streams exactly [Size] bytes of the body that
    comes next to the writer and exchanges the trailing acknowledgement. *)
Definition CopyFileBodyTo (h : fileMsgHeader) (dst : Writer) : M unit :=
  sessionIO ;;
  emit (EvCopyFileBodyTo h dst) ;;
  fun w => match stream w with
           | TBody b :: rest =>
               if Z.eqb (Z.of_nat (length b)) (fhSize h)
               then emit (EvWrite dst b) (setStream rest w)
               else (Err (errorString "unexpected size of file body"), w)
           | _ => (Err (errorString "unexpected end of file body"), w)
           end.

(** Modelled from the spec: [WriteFile] of the protocol code, which is not
    among the sources. It writes the headers of the file and its body and
    waits for the replies; the environment decides whether the remote
    process reports a failure. *)
Definition WriteFile (E : env) (info : FileInfo) : M unit :=
  sessionIO ;; call E (EvWriteFile info).

(** Modelled from the spec: [StartDirectory] of the protocol code, which
    writes the headers of a directory and waits for the reply. *)
Definition StartDirectory (E : env) (info : FileInfo) : M unit :=
  sessionIO ;; call E (EvStartDirectory info).

(** Modelled from the spec: [EndDirectory] of the protocol code, which
    writes the end marker and waits for the reply. *)
Definition EndDirectory (E : env) : M unit :=
  sessionIO ;; call E EvEndDirectory.

(** ** Receiving *)

Definition expectTime (h : header) : M timeMsgHeader :=
  match h with
  | timeMsg t => ret t
  | _ => throw (errorString "expected time message header")
  end.

Definition expectFile (h : header) : M fileMsgHeader :=
  match h with
  | fileMsg f => ret f
  | _ => throw (errorString "expected file message header")
  end.

Definition copyFileBodyFromRemote (E : env) (localFilename : string)
    (timeHeader : timeMsgHeader) (fileHeader : fileMsgHeader) : M unit :=
  wrap "failed to open destination file: err="
       (call E (EvOpenFile localFilename (fhMode fileHeader))) ;;
  defer (emit (EvFileClose localFilename))
        (wrap "failed to copy file: err="
              (CopyFileBodyTo fileHeader (fileWriter localFilename))) ;;
  wrap "failed to change file mode: err="
       (call E (EvChmod localFilename (fhMode fileHeader))) ;;
  wrap "failed to change file time: err="
       (call E (EvChtimes localFilename (Atime timeHeader)
                          (Mtime timeHeader))) ;;
  ret tt.

(** The local name [ReceiveFile] writes to, decided by [os.Stat]. *)
Definition receiveFileDest (E : env) (srcFile destFile : string)
  : result string :=
  let srcFile := realPath E (filepath.Clean srcFile) in
  let destFile := filepath.Clean destFile in
  match osStat E destFile with
  | Err e =>
      if negb (IsNotExist e)
      then Err (errorString
                  ("failed to get information of destnation file: err=" ++
                   Error e))
      else Ok destFile
  | Ok fiDest =>
      if IsDir fiDest
      then Ok (filepath.Join [destFile; filepath.Base srcFile])
      else Ok destFile
  end.

Definition ReceiveFile (E : env) (s : SCP) (srcFile destFile : string)
  : M unit :=
  emit (EvStat (filepath.Clean destFile)) ;;
  match receiveFileDest E srcFile destFile with
  | Err e => throw e
  | Ok destFile =>
      let srcFile := realPath E (filepath.Clean srcFile) in
      runResourceSession E (ctx s) srcFile false "" false true
        (h <- wrap "failed to read scp message header: err="
                   ReadHeaderOrReply ;;
         timeHeader <- expectTime h ;;
         h <- wrap "failed to read scp message header: err="
                   ReadHeaderOrReply ;;
         fileHeader <- expectFile h ;;
         copyFileBodyFromRemote E destFile timeHeader fileHeader)
  end.

Definition isSubdirectory (basepath targetpath : string) : result bool :=
  match filepath.Rel basepath targetpath with
  | Err e => Err e
  | Ok rel =>
      Ok (negb (strings.HasPrefix rel (".." ++ filepath.SeparatorString)))
  end.

(** The variables of the loop of [ReceiveDir]. *)
Record rdState : Type := mkRd {
  curDir : string;
  timeHeader : timeMsgHeader;
  timeHeaders : list timeMsgHeader;
  isFirstStartDirectory : bool;
  skipBaseDir : string
}.

Definition zeroTime : timeMsgHeader := {| Mtime := 0; Atime := 0 |}.

Definition rdInit (destDir : string) : rdState :=
  mkRd destDir zeroTime [] true "".

(** [case startDirectoryMsgHeader:] *)
Definition onStartDirectory (E : env) (acceptFn : AcceptFunc)
    (skipsFirstDirectory : bool) (dirHeader : startDirectoryMsgHeader)
    (st : rdState) : M rdState :=
  if isFirstStartDirectory st && skipsFirstDirectory
  then ret (mkRd (curDir st) (timeHeader st) (timeHeaders st) false
                 (skipBaseDir st))
  else
    let curDir' := filepath.Join [curDir st; dhName dirHeader] in
    let timeHeaders' := (timeHeaders st ++ [timeHeader st])%list in
    let st' := mkRd curDir' (timeHeader st) timeHeaders' false
                    (skipBaseDir st) in
    if negb (skipBaseDir st =? "") then ret st'
    else
      let info := NewFileInfo (dhName dirHeader) 0
                              (N.lor (dhMode dirHeader) ModeDir)
                              (Mtime (timeHeader st))
                              (Atime (timeHeader st)) in
      emit (EvAccept (filepath.Dir curDir') info) ;;
      match acceptFn (filepath.Dir curDir') info with
      | Err e => throw (errorString ("error from accessFn: err=" ++ Error e))
      | Ok false =>
          ret (mkRd curDir' (timeHeader st) timeHeaders' false curDir')
      | Ok true =>
          wrap "failed to create directory: err="
               (call E (EvMkdirAll curDir' (dhMode dirHeader))) ;;
          wrap "failed to change directory mode: err="
               (call E (EvChmod curDir' (dhMode dirHeader))) ;;
          ret st'
      end.

(** [case endDirectoryMsgHeader:] *)
Definition onEndDirectory (E : env) (st : rdState) : M rdState :=
  st1 <- match timeHeaders st with
         | [] => ret st
         | _ :: _ =>
             let th := last (timeHeaders st) zeroTime in
             let st1 := mkRd (curDir st) th (removelast (timeHeaders st))
                             (isFirstStartDirectory st) (skipBaseDir st) in
             if skipBaseDir st =? ""
             then wrap "failed to change directory time: err="
                       (call E (EvChtimes (curDir st) (Atime th) (Mtime th))) ;;
                  ret st1
             else ret st1
         end ;;
  let curDir' := filepath.Dir (curDir st1) in
  let st2 := mkRd curDir' (timeHeader st1) (timeHeaders st1)
                  (isFirstStartDirectory st1) (skipBaseDir st1) in
  if negb (skipBaseDir st1 =? "")
  then
    sub <- (if curDir' =? "" then ret true
            else match isSubdirectory (skipBaseDir st1) curDir' with
                 | Err e =>
                     throw (errorString
                       ("failed to check directory is subdirectory: err=" ++
                        Error e))
                 | Ok sub => ret sub
                 end) ;;
    if negb sub
    then ret (mkRd curDir' (timeHeader st1) (timeHeaders st1)
                   (isFirstStartDirectory st1) "")
    else ret st2
  else ret st2.

(** [case fileMsgHeader:] *)
Definition onFile (E : env) (acceptFn : AcceptFunc)
    (fileHeader : fileMsgHeader) (st : rdState) : M rdState :=
  if skipBaseDir st =? ""
  then
    let info := NewFileInfo (fhName fileHeader) (fhSize fileHeader)
                            (fhMode fileHeader) (Mtime (timeHeader st))
                            (Atime (timeHeader st)) in
    emit (EvAccept (curDir st) info) ;;
    match acceptFn (curDir st) info with
    | Err e => throw (errorString ("error from accessFn: err=" ++ Error e))
    | Ok false => ret st
    | Ok true =>
        let localFilename := filepath.Join [curDir st; fhName fileHeader] in
        copyFileBodyFromRemote E localFilename (timeHeader st) fileHeader ;;
        ret st
    end
  else
    CopyFileBodyTo fileHeader Discard ;;
    ret st.

(** The [switch h.(type)] of the loop. *)
Definition onHeader (E : env) (acceptFn : AcceptFunc)
    (skipsFirstDirectory : bool) (h : header) (st : rdState) : M rdState :=
  match h with
  | timeMsg t =>
      ret (mkRd (curDir st) t (timeHeaders st) (isFirstStartDirectory st)
                (skipBaseDir st))
  | startDirectoryMsg d => onStartDirectory E acceptFn skipsFirstDirectory d st
  | endDirectoryMsg => onEndDirectory E st
  | fileMsg f => onFile E acceptFn f st
  | okMsg => ret st
  end.

(** The [for] loop of the handler: [None] when [fuel] iterations did not
    reach the end of the stream. *)
Fixpoint receiveLoop (fuel : nat) (E : env) (acceptFn : AcceptFunc)
    (skipsFirstDirectory : bool) (st : rdState) (w : world)
  : option (result unit * world) :=
  match fuel with
  | O => None
  | S fuel' =>
      match ReadHeaderOrReply w with
      | (Err EOF, w1) => Some (Ok tt, w1)
      | (Err e, w1) =>
          Some (Err (errorString
                       ("failed to read scp message header: err=" ++ Error e)),
                w1)
      | (Ok h, w1) =>
          match onHeader E acceptFn skipsFirstDirectory h st w1 with
          | (Err e, w2) => Some (Err e, w2)
          | (Ok st', w2) =>
              receiveLoop fuel' E acceptFn skipsFirstDirectory st' w2
          end
      end
  end.

(** The handler of [ReceiveDir]. Each iteration reads a token, so one more
    iteration than there are tokens always ends the loop
    ([receiveLoop_total]). *)
Definition receiveDirHandler (E : env) (acceptFn : AcceptFunc)
    (skipsFirstDirectory : bool) (destDir : string) : M unit :=
  fun w =>
    match receiveLoop (S (length (stream w))) E acceptFn skipsFirstDirectory
                      (rdInit destDir) w with
    | Some r => r
    | None => (Err (errorString "unreachable"), w)
    end.

Definition ReceiveDir (E : env) (s : SCP) (srcDir destDir : string)
    (acceptFn : option AcceptFunc) : M unit :=
  let srcDir := realPath E (filepath.Clean srcDir) in
  let destDir := filepath.Clean destDir in
  emit (EvStat destDir) ;;
  skipsFirstDirectory <-
    match osStat E destDir with
    | Ok _ => ret false
    | Err e =>
        if negb (IsNotExist e)
        then throw (errorString
               ("failed to get information of destination directory: err=" ++
                Error e))
        else
          wrap "failed to create destination directory: err="
               (call E (EvMkdirAll destDir ModePerm777)) ;;
          ret true
    end ;;
  let acceptFn := filterOrAny acceptFn in
  runResourceSession E (ctx s) srcDir false "" true true
    (receiveDirHandler E acceptFn skipsFirstDirectory destDir).

(** ** Sending *)

Definition Send (E : env) (s : SCP) (info : FileInfo) (destFile : string)
  : M unit :=
  let destFile := filepath.Clean destFile in
  let destFile := realPath E (filepath.Dir destFile) in
  runSinkSession E destFile false "" false true
    (wrap "failed to copy file: err=" (WriteFile E info)).

Definition SendFile (E : env) (s : SCP) (srcFile destFile : string)
  : M unit :=
  let srcFile := filepath.Clean srcFile in
  let destFile := realPath E (filepath.Clean destFile) in
  runSinkSession E destFile false "" false true
    (emit (EvStat srcFile) ;;
     match osStat E srcFile with
     | Err e => throw (errorString ("failed to stat source file: err=" ++
                                    Error e))
     | Ok fi =>
         wrap "failed to open source file: err=" (call E (EvOpen srcFile)) ;;
         wrap "failed to copy file: err=" (WriteFile E fi)
     end).

(** The local tree under [srcDir] as [filepath.Walk] finds it: the
    information of each entry and, for a directory, its entries in the order
    of the listing. *)
Inductive node : Type :=
| fileNode (info : FileInfo)
| dirNode (info : FileInfo) (entries : list node).

Definition nodeInfo (n : node) : FileInfo :=
  match n with
  | fileNode info => info
  | dirNode info _ => info
  end.

Definition nodeIsDir (n : node) : bool :=
  match n with
  | fileNode _ => false
  | dirNode _ _ => true
  end.

(** The variables [prevDirSkipped] and [prevDir] the closures of [SendDir]
    share. *)
Record sdState : Type := mkSd {
  prevDirSkipped : bool;
  prevDir : string
}.

(** The [for _, comp := range ...] of [endDirectories]; it returns the new
    value of [prevDirSkipped]. *)
Fixpoint endDirectoriesLoop (E : env) (comps : list string)
    (prevDirSkipped : bool) : M bool :=
  match comps with
  | [] => ret prevDirSkipped
  | comp :: rest =>
      if comp =? ".."
      then if prevDirSkipped
           then endDirectoriesLoop E rest false
           else EndDirectory E ;; endDirectoriesLoop E rest prevDirSkipped
      else endDirectoriesLoop E rest prevDirSkipped
  end.

Definition endDirectories (E : env) (prevDir dir : string)
    (prevDirSkipped : bool) : M bool :=
  match filepath.Rel prevDir dir with
  | Err e => throw e
  | Ok rel =>
      endDirectoriesLoop E (strings.Split rel filepath.Separator)
                         prevDirSkipped
  end.

(** [myWalkFn] for an entry that was read without error. The boolean of
    the result tells that it returned [filepath.SkipDir]. *)
Definition myWalkFn (E : env) (acceptFn : AcceptFunc) (path : string)
    (info : FileInfo) (isDir : bool) (st : sdState) : M (bool * sdState) :=
  let dir := if isDir then path else filepath.Dir path in
  skipped <- endDirectories E (prevDir st) dir (prevDirSkipped st) ;;
  emit (EvAccept (filepath.Dir path) info) ;;
  match acceptFn (filepath.Dir path) info with
  | Err e => throw e
  | Ok accepted =>
      if isDir
      then if negb accepted
           then ret (true, mkSd true dir)
           else StartDirectory E info ;;
                ret (false, mkSd skipped dir)
      else if accepted
           then call E (EvOpen path) ;;
                WriteFile E info ;;
                ret (false, mkSd skipped dir)
           else ret (false, mkSd skipped dir)
  end.

(** [walk] of [path/filepath]: the entry itself, then the entries of a
    directory in order. [SkipDir] from a directory skips only that
    directory; from a file it skips the rest of the directory it is in. *)
Fixpoint walk (E : env) (acceptFn : AcceptFunc) (path : string) (n : node)
    (st : sdState) {struct n} : M (bool * sdState) :=
  match n with
  | fileNode info => myWalkFn E acceptFn path info false st
  | dirNode info entries =>
      r <- myWalkFn E acceptFn path info true st ;;
      if fst r then ret r
      else
        (fix walkEntries (es : list node) (st : sdState) {struct es}
           : M (bool * sdState) :=
           match es with
           | [] => ret (false, st)
           | e :: es' =>
               r <- walk E acceptFn
                         (filepath.Join [path; Name (nodeInfo e)]) e st ;;
               if fst r && negb (nodeIsDir e) then ret r
               else walkEntries es' (snd r)
           end) entries (snd r)
  end.

(** [filepath.Walk]: [SkipDir] from the root ends the walk without error. *)
Definition Walk (E : env) (acceptFn : AcceptFunc) (root : string)
    (tree : result node) (st : sdState) : M sdState :=
  match tree with
  | Err e => throw e
  | Ok n => r <- walk E acceptFn root n st ;; ret (snd r)
  end.

Definition SendDir (E : env) (s : SCP) (tree : result node)
    (srcDir destDir : string) (acceptFn : option AcceptFunc) : M unit :=
  let srcDir := filepath.Clean srcDir in
  let destDir := realPath E (filepath.Clean destDir) in
  let acceptFn := filterOrAny acceptFn in
  runSinkSession E destDir false "" true true
    (st <- Walk E acceptFn srcDir tree (mkSd false srcDir) ;;
     endDirectories E (prevDir st) srcDir (prevDirSkipped st) ;;
     ret tt).

(** ** The specification's wording, and observations of a trace *)

(** The command line as the specification words it: the binary, one flag
    group made of the direction and the optional [p], [r] and [d], and the
    escaped path. *)
Definition specFlags (direction : ascii) (p r d : bool) : string :=
  String direction
         ((if p then "p" else "") ++ (if r then "r" else "") ++
          (if d then "d" else "")).

Definition specCommand (E : env) (direction : ascii) (scpPath path : string)
    (p r d : bool) : string :=
  (if scpPath =? "" then "scp" else scpPath) ++ " -" ++
  specFlags direction p r d ++ " " ++ escapeShellArg E path.

Fixpoint countChar (c : ascii) (s : string) : nat :=
  match s with
  | EmptyString => 0
  | String c' s' => (if Ascii.eqb c c' then 1 else 0) + countChar c s'
  end.

(** The command lines started, the files and directories sent, and the
    local names opened for writing, in a trace. *)
Definition startedCommands (l : list event) : list string :=
  flat_map (fun ev => match ev with EvStart cmd => [cmd] | _ => [] end) l.

Definition sentFiles (l : list event) : list FileInfo :=
  flat_map (fun ev => match ev with EvWriteFile i => [i] | _ => [] end) l.

Definition openedFiles (l : list event) : list string :=
  flat_map (fun ev => match ev with EvOpenFile n _ => [n] | _ => [] end) l.

Definition isChtimes (ev : event) : bool :=
  match ev with EvChtimes _ _ _ => true | _ => false end.

Definition isChmod (ev : event) : bool :=
  match ev with EvChmod _ _ => true | _ => false end.

(** ** Environments and worlds for concrete runs *)

(** An environment in which every call succeeds and no local path exists. *)
Definition quietEnv : env :=
  {| realPath := fun p => p;
     escapeShellArg := fun p => "'" ++ p ++ "'";
     osStat := fun _ => Err ErrNotExist;
     osErr := fun _ => None |}.

(** A session not yet started, with [s] as what the remote will write. *)
Definition initWorld (s : list token) : world := mkWorld s [] false 0 None.

Definition background : SCP := {| ctx := None |}.

(** An environment in which changing the mode and changing the times of a
    local file both fail. *)
Definition readOnlyEnv : env :=
  {| realPath := fun p => p;
     escapeShellArg := fun p => "'" ++ p ++ "'";
     osStat := fun _ => Err ErrNotExist;
     osErr := fun ev =>
                match ev with
                | EvChmod _ _ => Some (errorString "operation not permitted")
                | EvChtimes _ _ _ =>
                    Some (errorString "read-only file system")
                | _ => None
                end |}.

(** The specification's wording of C8: when the mode change is attempted so
    is the change of the times. *)
Definition bothAttempted (l : list event) : Prop :=
  existsb isChmod l = true -> existsb isChtimes l = true.

(** The specification's wording of C6: where [ReceiveFile] puts the file.
    The source and the destination are the normalised ones. *)
Definition specReceiveTarget (E : env) (srcFile destFile : string) : string :=
  let srcFile := realPath E (filepath.Clean srcFile) in
  let destFile := filepath.Clean destFile in
  match osStat E destFile with
  | Ok fi =>
      if IsDir fi
      then filepath.Join [destFile; filepath.Base srcFile]  (* a directory *)
      else destFile                                         (* a regular file *)
  | Err _ => destFile                                       (* does not exist *)
  end.

(** An event that creates or writes a local file does so under [name]. *)
Definition writesOnlyAt (name : string) (ev : event) : Prop :=
  match ev with
  | EvOpenFile n _ => n = name
  | EvWrite (fileWriter n) _ => n = name
  | EvMkdirAll _ _ => False
  | _ => True
  end.

(** An environment in which every call succeeds and ["/tmp/dl"] is an
    existing directory, ["/tmp/old.dat"] an existing regular file. *)
Definition dirEnv : env :=
  {| realPath := fun p => p;
     escapeShellArg := fun p => "'" ++ p ++ "'";
     osStat := fun p =>
                 if p =? "/tmp/dl"
                 then Ok (NewFileInfo "dl" 0 (N.lor 493 ModeDir) 0 0)
                 else if p =? "/tmp/old.dat"
                      then Ok (NewFileInfo "old.dat" 7 420 0 0)
                      else Err ErrNotExist;
     osErr := fun _ => None |}.

(** A filter that rejects the entries of one name. *)
Definition rejectNamed (n : string) : AcceptFunc :=
  fun _ info => Ok (negb (Name info =? n)).

(** Tokens of a remote stream: [T], [D name], [C name size] with its body,
    and [E]. *)
Definition tokT : token := THeader (timeMsg {| Mtime := 5; Atime := 6 |}).
Definition tokD (n : string) : token :=
  THeader (startDirectoryMsg {| dhMode := 493; dhName := n |}).
Definition tokE : token := THeader endDirectoryMsg.
Definition hdrC (n : string) (size : nat) : fileMsgHeader :=
  {| fhMode := 420; fhSize := Z.of_nat size; fhName := n |}.
Definition tokC (n : string) (size : nat) : list token :=
  [THeader (fileMsg (hdrC n size)); TBody (repeat Byte.x61 size)].

(** A source directory with the file [b] (rejected by the filter below) and
    the file [c]. *)
Definition streamRejectedFile : list token :=
  [tokT; tokD "src"; tokT] ++ tokC "b" 2 ++ [tokT] ++ tokC "c" 1 ++ [tokE].

(** A source directory with [a/b/x], [a/c] and [d]; the filter below rejects
    the directory [b], two levels deep. *)
Definition streamRejectedDir : list token :=
  [tokT; tokD "src"; tokT; tokD "a"; tokT; tokD "b"; tokT] ++ tokC "x" 2 ++
  [tokE; tokT] ++ tokC "c" 1 ++ [tokE; tokT] ++ tokC "d" 3 ++ [tokE].

Definition copiedBodies (l : list event) : list (string * Writer) :=
  flat_map (fun ev => match ev with
                      | EvCopyFileBodyTo h w => [(fhName h, w)]
                      | _ => []
                      end) l.

(** A client whose context is cancelled before the session does any I/O. *)
Definition cancelled : SCP := {| ctx := Some 0%nat |}.

Definition isGo (ev : event) : bool :=
  match ev with EvGo _ => true | _ => false end.

(** ** The local tree and the nested form of a transfer *)

(** A name a directory listing can hold: not empty, not [.] or [..], and
    without a separator. *)
Definition validName (n : string) : bool :=
  negb (n =? "") && negb (n =? ".") && negb (n =? "..") &&
  negb (filepath.hasSep n).

Fixpoint distinct (l : list string) : bool :=
  match l with
  | [] => true
  | x :: l' => negb (existsb (String.eqb x) l') && distinct l'
  end.

(** The entries of every directory have valid names, no two the same. *)
Fixpoint wfNode (n : node) : bool :=
  match n with
  | fileNode _ => true
  | dirNode _ entries =>
      forallb (fun e => validName (Name (nodeInfo e))) entries &&
      distinct (map (fun e => Name (nodeInfo e)) entries) &&
      (fix wfAll (es : list node) : bool :=
         match es with
         | [] => true
         | e :: es' => wfNode e && wfAll es'
         end) entries
  end.

Definition noSep (s : string) : Prop := filepath.hasSep s = false.

(** The decision of a filter that does not fail. *)
Definition accepts (f : AcceptFunc) (parentDir : string) (info : FileInfo)
  : bool :=
  match f parentDir info with
  | Ok b => b
  | Err _ => false
  end.

(** The specification's wording of a directory transfer: an accepted
    directory is a start marker, its entries in order and an end marker; an
    accepted file is a file; a rejected entry is nothing. *)
Fixpoint nestedOps (f : AcceptFunc) (path : string) (n : node)
  : list event :=
  match n with
  | fileNode info =>
      if accepts f (filepath.Dir path) info then [EvWriteFile info] else []
  | dirNode info entries =>
      if accepts f (filepath.Dir path) info
      then (EvStartDirectory info ::
           (fix each (es : list node) : list event :=
              match es with
              | [] => []
              | e :: es' =>
                  (nestedOps f (filepath.Join [path; Name (nodeInfo e)]) e ++
                   each es')%list
              end) entries ++ [EvEndDirectory])%list
      else []
  end.

(** The messages sent to the remote, among the events of a trace. *)
Definition isSinkOp (ev : event) : bool :=
  match ev with
  | EvWriteFile _ | EvStartDirectory _ | EvEndDirectory => true
  | _ => false
  end.

Definition sinkOps (l : list event) : list event := filter isSinkOp l.

Definition countStarts (l : list event) : nat :=
  length (filter (fun ev => match ev with
                            | EvStartDirectory _ => true
                            | _ => false
                            end) l).

Definition countEnds (l : list event) : nat :=
  length (filter (fun ev => match ev with
                            | EvEndDirectory => true
                            | _ => false
                            end) l).

(** The number of [..] among the elements of a relative path. *)
Definition dotdots (comps : list string) : nat :=
  length (filter (fun c => c =? "..") comps).

Definition dirInfo (n : string) : FileInfo :=
  NewFileInfo n 0 (N.lor 493 ModeDir) 0 0.

Definition regInfo (n : string) : FileInfo := NewFileInfo n 1 420 0 0.

(** The tree [root/{a/{f, b/{h}}, c/, g}]. *)
Definition sampleTree : node :=
  dirNode (dirInfo "root")
    [dirNode (dirInfo "a")
       [dirNode (dirInfo "b") [fileNode (regInfo "h")];
        fileNode (regInfo "f")];
     dirNode (dirInfo "c") [];
     fileNode (regInfo "g")].

(** ** Normal forms of paths *)

Definition isName (n : string) : Prop := validName n = true.

(** The elements of a cleaned path: [..] only in front, and only when the
    path is not rooted, then names. *)
Definition normal (rooted : bool) (cs : list string) : Prop :=
  exists dd names,
    cs = (dd ++ names)%list /\ Forall (eq "..") dd /\ Forall isName names /\
    (rooted = true -> dd = []).

(** Two lists of elements that part at their first element, if both have
    one. *)
Definition diverge (e t : list string) : Prop :=
  match e, t with
  | h :: _, n :: _ => h <> n
  | _, _ => True
  end.

(** What [relElems] makes of a target in normal form. *)
Definition targElems (rooted : bool) (cs : list string) : list string :=
  match cs with
  | [] => if rooted then [] else ["."]
  | _ => cs
  end.

(** ** Runs in which nothing fails *)

(** No call fails in the environment. *)
Definition quiet (E : env) : Prop := forall ev, osErr E ev = None.

(** The session is open and no watcher waits. *)
Definition good (w : world) : Prop := closed w = false /\ watcher w = None.

(** [c] run in [w] returns [a] in the good world [w'], having added the
    events [l]. *)
Definition runsTo {A : Type} (c : M A) (w : world) (a : A) (l : list event)
    (w' : world) : Prop :=
  c w = (Ok a, w') /\ good w' /\ trace w' = (trace w ++ l)%list.

(** End markers owed when the previous directory is [e] below the current
    one. *)
Definition pend (e : list string) (skipped : bool) : nat :=
  length e - (if skipped then 1 else 0).

(** The loop of [walk] over the entries of a directory. *)
Fixpoint walkEntries (E : env) (acceptFn : AcceptFunc) (path : string)
    (es : list node) (st : sdState) : M (bool * sdState) :=
  match es with
  | [] => ret (false, st)
  | e :: es' =>
      r <- walk E acceptFn (filepath.Join [path; Name (nodeInfo e)]) e st ;;
      if fst r && negb (nodeIsDir e) then ret r
      else walkEntries E acceptFn path es' (snd r)
  end.

(** The nested form of the entries of a directory. *)
Fixpoint nestedEach (f : AcceptFunc) (path : string) (es : list node)
  : list event :=
  match es with
  | [] => []
  | e :: es' =>
      (nestedOps f (filepath.Join [path; Name (nodeInfo e)]) e ++
       nestedEach f path es')%list
  end.

(** The specification's wording of C4: as many end markers as start
    markers. *)
Definition balanced (l : list event) : Prop := countStarts l = countEnds l.

(** A filter that always decides. *)
Definition total (f : AcceptFunc) : Prop := forall p i, exists b, f p i = Ok b.

Definition nodeName (n : node) : string := Name (nodeInfo n).

(** What [walk] does with an entry [x] of the directory [p], coming from
    [p/e]: it ends at [p/e'], and together with the end markers still owed
    it has sent the end markers owed before and the nested form of [x]. *)
Definition walkSpec (E : env) (f : AcceptFunc) (x : node) : Prop :=
  forall r p e skipped w,
    good w -> normal r p -> isName (nodeName x) -> wfNode x = true ->
    Forall isName e -> diverge e [nodeName x] ->
    (skipped = true -> e <> []) ->
    exists skip e' skipped' l w',
      runsTo (walk E f (filepath.render r (p ++ [nodeName x])) x
                   (mkSd skipped (filepath.render r (p ++ e))))
             w (skip, mkSd skipped' (filepath.render r (p ++ e'))) l w' /\
      (skip = true -> nodeIsDir x = true) /\
      Forall isName e' /\
      (skipped' = true -> e' <> []) /\
      (e' = [] \/ exists tl, e' = nodeName x :: tl) /\
      (sinkOps l ++ repeat EvEndDirectory (pend e' skipped') =
       repeat EvEndDirectory (pend e skipped) ++
       nestedOps f (filepath.render r (p ++ [nodeName x])) x)%list.

(** ** Observations and wording for further properties *)

(** The relative path from [p/e] to [p/t]: one [..] for each element of
    [e], then the elements of [t]; [.] between equal paths. *)
Definition relPath (e t : list string) : string :=
  match e, t with
  | [], [] => "."
  | _, _ =>
      strings.Join (map (fun _ => "..") e ++ t)%list filepath.SeparatorString
  end.

(** What [isSubdirectory] answers for the base [p/e] and the target [p/t]:
    yes when the target is the base or below it, and also when it is the
    parent of the base. *)
Definition subdirectoryAnswer (e t : list string) : bool :=
  match e, t with
  | [], _ => true
  | [_], [] => true
  | _, _ => false
  end.

(** What the loop of [ReceiveDir] may do for an entry inside a rejected
    directory: read a body into [ioutil.Discard]; the watcher may close the
    session meanwhile. *)
Definition skipEvent (ev : event) : Prop :=
  match ev with
  | EvCopyFileBodyTo _ Discard => True
  | EvWrite Discard _ => True
  | EvClose => True
  | _ => False
  end.

(** A read of a file body into [ioutil.Discard]. *)
Definition isDiscard (ev : event) : bool :=
  match ev with
  | EvCopyFileBodyTo _ Discard => true
  | EvWrite Discard _ => true
  | _ => false
  end.

(** The local files opened for writing, leaving out the attempts that
    failed, and the local files closed, in a trace. *)
Definition openedOk (E : env) (l : list event) : list string :=
  flat_map (fun ev => match ev with
                      | EvOpenFile n _ =>
                          match osErr E ev with
                          | None => [n]
                          | Some _ => []
                          end
                      | _ => []
                      end) l.

Definition closedFiles (l : list event) : list string :=
  flat_map (fun ev => match ev with EvFileClose n => [n] | _ => [] end) l.

(** A filter that rejects no directory. *)
Definition keepsDirectories (f : AcceptFunc) : Prop :=
  forall parentDir info, IsDir info = true -> f parentDir info <> Ok false.

(** An event that is neither the opening or closing of a local file nor
    part of the copy of a file body. *)
Definition plainEvent (ev : event) : Prop :=
  match ev with
  | EvOpenFile _ _ | EvFileClose _ | EvCopyFileBodyTo _ _ | EvWrite _ _ =>
      False
  | _ => True
  end.

(** [c] adds to the trace a run of events with the property [Q]. *)
Definition traceSeg {A : Type} (Q : list event -> Prop) (c : M A) : Prop :=
  forall w, exists l, trace (snd (c w)) = (trace w ++ l)%list /\ Q l.

(** An event that neither opens nor closes a local file. *)
Definition notOpenClose (ev : event) : Prop :=
  match ev with
  | EvOpenFile _ _ | EvFileClose _ => False
  | _ => True
  end.

(** An event that creates or changes something on the local file system. *)
Definition localChange (ev : event) : bool :=
  match ev with
  | EvMkdirAll _ _ | EvOpenFile _ _ | EvFileClose _ | EvChmod _ _
  | EvChtimes _ _ _ => true
  | EvCopyFileBodyTo _ (fileWriter _) | EvWrite (fileWriter _) _ => true
  | _ => false
  end.

(** What the remote writes begins with a time header and a file header. *)
Definition beginsWithFile (s : list token) : bool :=
  match s with
  | THeader (timeMsg _) :: THeader (fileMsg _) :: _ => true
  | _ => false
  end.

(** [c] run in [w] returns an error, having added only events with the
    property [P]. *)
Definition failsQuietly {A : Type} (P : event -> Prop) (c : M A) (w : world)
  : Prop :=
  (exists e, fst (c w) = Err e) /\
  exists l, trace (snd (c w)) = (trace w ++ l)%list /\ Forall P l.

(** What [SendFile] may do for the local source [name]: look it up, open it
    once the lookup has succeeded, send one file with the information the
    lookup returned, and run the session. *)
Definition sendFileEvent (E : env) (name : string) (ev : event) : Prop :=
  match ev with
  | EvStat n => n = name
  | EvOpen n => n = name /\ exists fi, osStat E name = Ok fi
  | EvWriteFile info => osStat E name = Ok info
  | EvNewSession | EvStdoutPipe | EvStdinPipe | EvStart _ | EvClose
  | EvCloseStdin | EvWait => True
  | _ => False
  end.

(** ** [Receive] *)

(** The handler of [Receive]; its result is the value it assigns to the
    variable [info] of [Receive] in its last statement. *)
Definition receiveHandler (srcFile : string) (dest : Writer) : M FileInfo :=
  h <- wrap "failed to read scp message header: err=" ReadHeaderOrReply ;;
  timeHeader <- expectTime h ;;
  h <- wrap "failed to read scp message header: err=" ReadHeaderOrReply ;;
  fileHeader <- expectFile h ;;
  wrap "failed to copy file: err=" (CopyFileBodyTo fileHeader dest) ;;
  ret (NewFileInfo srcFile (fhSize fileHeader) (fhMode fileHeader)
                   (Mtime timeHeader) (Atime timeHeader)).

(** [Receive] returns [info] and the error of [runResourceSession]. [info]
    is nil ([None]) unless the handler reached its last statement; the
    handler runs in the world that the start of the session and of the
    watcher leave. *)
Definition Receive (E : env) (s : SCP) (srcFile : string) (dest : Writer)
  : world -> (option FileInfo * result unit) * world :=
  fun w =>
    let srcFile := realPath E (filepath.Clean srcFile) in
    let info :=
      match (newResourceSession E srcFile false "" false true ;;
             goWatch (ctx s)) w with
      | (Ok _, w1) =>
          match receiveHandler srcFile dest w1 with
          | (Ok i, _) => Some i
          | (Err _, _) => None
          end
      | (Err _, _) => None
      end in
    let r := runResourceSession E (ctx s) srcFile false "" false true
               (receiveHandler srcFile dest ;; ret tt) w in
    ((info, fst r), snd r).

(** What [Receive] may do: run the session, read headers, and copy a body
    to the writer it was given. *)
Definition receiveEvent (dest : Writer) (ev : event) : Prop :=
  match ev with
  | EvCopyFileBodyTo _ d => d = dest
  | EvWrite d _ => d = dest
  | EvNewSession | EvStdoutPipe | EvStdinPipe | EvStart _ | EvGo _ | EvClose
  | EvWait | EvReadHeaderOrReply => True
  | _ => False
  end.

(** The calls of the filter and the openings of local files for reading,
    among the events of a trace. *)
Definition isLocalOp (ev : event) : bool :=
  match ev with
  | EvAccept _ _ | EvOpen _ => true
  | _ => false
  end.

Definition localOps (l : list event) : list event := filter isLocalOp l.

(** The visits of a walk of the tree: the filter is asked for every entry
    with the directory of the entry, an accepted file is opened, the entries
    of an accepted directory follow in order, and those of a rejected
    directory are not visited. *)
Fixpoint visits (f : AcceptFunc) (path : string) (n : node) : list event :=
  match n with
  | fileNode info =>
      EvAccept (filepath.Dir path) info ::
      (if accepts f (filepath.Dir path) info then [EvOpen path] else [])
  | dirNode info entries =>
      EvAccept (filepath.Dir path) info ::
      (if accepts f (filepath.Dir path) info
       then (fix each (es : list node) : list event :=
               match es with
               | [] => []
               | e :: es' =>
                   (visits f (filepath.Join [path; Name (nodeInfo e)]) e ++
                    each es')%list
               end) entries
       else [])
  end.

Fixpoint visitsEach (f : AcceptFunc) (path : string) (es : list node)
  : list event :=
  match es with
  | [] => []
  | e :: es' =>
      (visits f (filepath.Join [path; Name (nodeInfo e)]) e ++
       visitsEach f path es')%list
  end.

(** What a walk that returns without error has asked and opened. *)
Definition walkVisits (E : env) (f : AcceptFunc) (x : node) : Prop :=
  forall path st w r w',
    walk E f path x st w = (Ok r, w') ->
    (exists l, trace w' = (trace w ++ l)%list /\ localOps l = visits f path x) /\
    (fst r = true -> nodeIsDir x = true).

(** ** What the remote sends for a tree *)

(** Modelled from the spec: a file or a directory as the remote [scp -prf]
    writes it, in the order of the wire protocol. A file is a time header, a
    file header and the body; a directory is a time header, a
    start-of-directory header, its entries and an end-of-directory
    header. *)
Inductive rnode : Type :=
| rfile (th : timeMsgHeader) (fh : fileMsgHeader) (body : list Byte.byte)
| rdir (th : timeMsgHeader) (dh : startDirectoryMsgHeader)
       (entries : list rnode).

Fixpoint remoteSends (x : rnode) : list token :=
  match x with
  | rfile th fh body =>
      [THeader (timeMsg th); THeader (fileMsg fh); TBody body]
  | rdir th dh entries =>
      (THeader (timeMsg th) :: THeader (startDirectoryMsg dh) ::
       flat_map remoteSends entries ++ [THeader endDirectoryMsg])%list
  end.

(** Every name is a valid name and every body has the size its header
    announces. *)
Fixpoint wfSent (x : rnode) : bool :=
  match x with
  | rfile th fh body =>
      validName (fhName fh) && Z.eqb (Z.of_nat (length body)) (fhSize fh)
  | rdir th dh entries => validName (dhName dh) && forallb wfSent entries
  end.

(** What receiving [x] into the directory [dir] does to the local file
    system. *)
Fixpoint recvOps (dir : string) (x : rnode) : list event :=
  match x with
  | rfile th fh body =>
      let name := filepath.Join [dir; fhName fh] in
      [EvOpenFile name (fhMode fh);
       EvCopyFileBodyTo fh (fileWriter name);
       EvWrite (fileWriter name) body;
       EvFileClose name;
       EvChmod name (fhMode fh);
       EvChtimes name (Atime th) (Mtime th)]
  | rdir th dh entries =>
      let d := filepath.Join [dir; dhName dh] in
      (EvMkdirAll d (dhMode dh) :: EvChmod d (dhMode dh) ::
       flat_map (recvOps d) entries ++
       [EvChtimes d (Atime th) (Mtime th)])%list
  end.

(** The number of headers of [x]. *)
Fixpoint headers (x : rnode) : nat :=
  match x with
  | rfile _ _ _ => 2
  | rdir _ _ entries => 3 + list_sum (map headers entries)
  end.

Definition rtime (x : rnode) : timeMsgHeader :=
  match x with
  | rfile th _ _ => th
  | rdir th _ _ => th
  end.

(** The loop of [ReceiveDir], in the directory [p] and with what the remote
    sends for [x] coming next, gets past [x] in [headers x] iterations,
    having done [recvOps] to the local file system; the loop is then where
    it was, with the time header of [x] as the last one read. *)
Definition rebuilt (E : env) (f : AcceptFunc) (skips : bool) (x : rnode)
  : Prop :=
  forall r p th0 ths tr k rest,
    normal r p -> wfSent x = true ->
    exists l k',
      (forall fuel,
         receiveLoop (headers x + fuel) E f skips
           (mkRd (filepath.render r p) th0 ths false "")
           (mkWorld (remoteSends x ++ rest)%list tr false k None) =
         receiveLoop fuel E f skips
           (mkRd (filepath.render r p) (rtime x) ths false "")
           (mkWorld rest (tr ++ l)%list false k' None)) /\
      filter localChange l = recvOps (filepath.render r p) x.

(** The directory [src] with the file [a] and the directory [sub] holding
    the file [b], as the remote sends it. *)
Definition sampleSent : rnode :=
  rdir {| Mtime := 5; Atime := 6 |} {| dhMode := 493; dhName := "src" |}
    [rfile {| Mtime := 7; Atime := 8 |}
           {| fhMode := 420; fhSize := 2; fhName := "a" |}
           [Byte.x61; Byte.x62];
     rdir {| Mtime := 9; Atime := 10 |} {| dhMode := 448; dhName := "sub" |}
       [rfile {| Mtime := 11; Atime := 12 |}
              {| fhMode := 384; fhSize := 1; fhName := "b" |}
              [Byte.x63]]].



(** * Properties *)

Open Scope list_scope.

(** ** Calls only add to the trace and only consume the stream *)

Definition world_le (w w' : world) : Prop :=
  (exists l, trace w' = (trace w ++ l)%list) /\
  (length (stream w') <= length (stream w))%nat.

Definition mono {A : Type} (c : M A) : Prop :=
  forall w, world_le w (snd (c w)).

Lemma world_le_refl w : world_le w w.
Proof. split; [exists []; now rewrite app_nil_r | lia]. Qed.

Lemma world_le_trans w1 w2 w3 :
  world_le w1 w2 -> world_le w2 w3 -> world_le w1 w3.
Proof.
  intros [[l1 H1] L1] [[l2 H2] L2]. split; [|lia].
  exists (l1 ++ l2). now rewrite H2, H1, app_assoc.
Qed.

Lemma world_le_event w ev : world_le w (addEvent ev w).
Proof. split; [now exists [ev] | simpl; lia]. Qed.

Lemma mono_ret A (a : A) : mono (ret a).
Proof. intro w. apply world_le_refl. Qed.

Lemma mono_throw A e : mono (@throw A e).
Proof. intro w. apply world_le_refl. Qed.

Lemma mono_emit ev : mono (emit ev).
Proof. intro w. apply world_le_event. Qed.

Lemma mono_bind A B (c : M A) (k : A -> M B) :
  mono c -> (forall a, mono (k a)) -> mono (bind c k).
Proof.
  intros Hc Hk w. unfold bind. specialize (Hc w).
  destruct (c w) as [[a|e] w1]; simpl in *; [|exact Hc].
  eapply world_le_trans; [exact Hc | apply Hk].
Qed.

Lemma mono_wrap A pre (c : M A) : mono c -> mono (wrap pre c).
Proof.
  intros Hc w. unfold wrap. specialize (Hc w).
  destruct (c w) as [[a|e] w1]; exact Hc.
Qed.

Lemma mono_defer A (d : M unit) (c : M A) : mono d -> mono c -> mono (defer d c).
Proof.
  intros Hd Hc w. unfold defer. specialize (Hc w).
  destruct (c w) as [r w1]; simpl in *.
  eapply world_le_trans; [exact Hc | apply Hd].
Qed.

Lemma mono_call E ev : mono (call E ev).
Proof.
  unfold call. apply mono_bind; [apply mono_emit|].
  intros _. destruct (osErr E ev); [apply mono_throw | apply mono_ret].
Qed.

Lemma mono_sessionClose : mono sessionClose.
Proof. intro w. split; [now exists [EvClose] | simpl; lia]. Qed.

Lemma mono_goWatch c : mono (goWatch c).
Proof.
  destruct c as [k|]; [|apply mono_ret].
  intro w. split; [now exists [EvGo k] | simpl; lia].
Qed.

Lemma mono_runWatcher : mono runWatcher.
Proof.
  intro w. unfold runWatcher.
  destruct (watcher w) as [k|]; [|apply world_le_refl].
  destruct (k <=? ticks w)%nat; [|apply world_le_refl].
  split; [now exists [EvClose] | simpl; lia].
Qed.

Lemma mono_sessionIO : mono sessionIO.
Proof.
  unfold sessionIO. apply mono_bind; [apply mono_runWatcher|].
  intros _ w. destruct (closed w); [apply world_le_refl|].
  split; [exists []; simpl; now rewrite app_nil_r | simpl; lia].
Qed.

Lemma mono_ReadHeaderOrReply : mono ReadHeaderOrReply.
Proof.
  unfold ReadHeaderOrReply.
  apply mono_bind; [apply mono_sessionIO|]. intros _.
  apply mono_bind; [apply mono_emit|]. intros _ w.
  destruct (stream w) as [|[h|b] rest] eqn:Hs; try apply world_le_refl.
  split; [exists []; simpl; now rewrite app_nil_r | simpl; rewrite Hs; simpl; lia].
Qed.

Lemma mono_CopyFileBodyTo h dst : mono (CopyFileBodyTo h dst).
Proof.
  unfold CopyFileBodyTo.
  apply mono_bind; [apply mono_sessionIO|]. intros _.
  apply mono_bind; [apply mono_emit|]. intros _ w.
  destruct (stream w) as [|[h'|b] rest] eqn:Hs; try apply world_le_refl.
  destruct (Z.eqb _ _); [|apply world_le_refl].
  split; [now exists [EvWrite dst b] | simpl; rewrite Hs; simpl; lia].
Qed.

Create HintDb mono.
#[export] Hint Resolve mono_ret mono_throw mono_emit mono_wrap mono_defer
  mono_call mono_sessionClose mono_goWatch mono_sessionIO
  mono_ReadHeaderOrReply mono_CopyFileBodyTo : mono.

Ltac mono_step :=
  first [ solve [auto with mono] | apply mono_bind; [|intro] ].

Lemma mono_copyFileBodyFromRemote E name th fh :
  mono (copyFileBodyFromRemote E name th fh).
Proof. unfold copyFileBodyFromRemote. repeat mono_step. Qed.

Lemma mono_onStartDirectory E f skips d st :
  mono (onStartDirectory E f skips d st).
Proof.
  unfold onStartDirectory.
  destruct (_ && _); [auto with mono|].
  destruct (negb _); [auto with mono|].
  mono_step; [auto with mono|].
  destruct (f _ _) as [[|]|e]; repeat mono_step.
Qed.

Lemma mono_onEndDirectory E st : mono (onEndDirectory E st).
Proof.
  unfold onEndDirectory. mono_step.
  - destruct (timeHeaders st); [auto with mono|].
    destruct (skipBaseDir st =? ""); repeat mono_step.
  - destruct (negb _); [|auto with mono].
    mono_step.
    + destruct (_ =? ""); [auto with mono|].
      destruct (isSubdirectory _ _); auto with mono.
    + destruct (negb _); auto with mono.
Qed.

Lemma mono_onFile E f fh st : mono (onFile E f fh st).
Proof.
  unfold onFile. destruct (skipBaseDir st =? "").
  - mono_step; [auto with mono|].
    destruct (f _ _) as [[|]|e]; repeat mono_step.
  - repeat mono_step.
Qed.

Lemma mono_onHeader E f skips h st : mono (onHeader E f skips h st).
Proof.
  destruct h; simpl; auto with mono.
  - apply mono_onStartDirectory.
  - apply mono_onEndDirectory.
  - apply mono_onFile.
Qed.

(** ** Equations of the monad *)

Lemma bind_ok A B (c : M A) (k : A -> M B) w a w' :
  c w = (Ok a, w') -> bind c k w = k a w'.
Proof. intro H. unfold bind. now rewrite H. Qed.

Lemma bind_err A B (c : M A) (k : A -> M B) w e w' :
  c w = (Err e, w') -> bind c k w = (Err e, w').
Proof. intro H. unfold bind. now rewrite H. Qed.

Lemma wrap_ok A pre (c : M A) w a w' :
  c w = (Ok a, w') -> wrap pre c w = (Ok a, w').
Proof. intro H. unfold wrap. now rewrite H. Qed.

Lemma wrap_err A pre (c : M A) w e w' :
  c w = (Err e, w') ->
  wrap pre c w = (Err (errorString (pre ++ Error e)), w').
Proof. intro H. unfold wrap. now rewrite H. Qed.

Lemma defer_emit A ev (c : M A) w r w' :
  c w = (r, w') -> defer (emit ev) c w = (r, addEvent ev w').
Proof. intro H. unfold defer. now rewrite H. Qed.

Lemma call_ok E ev w :
  osErr E ev = None -> call E ev w = (Ok tt, addEvent ev w).
Proof. intro H. unfold call, bind, emit. now rewrite H. Qed.

Lemma call_err E ev w e :
  osErr E ev = Some e -> call E ev w = (Err e, addEvent ev w).
Proof. intro H. unfold call, bind, emit. now rewrite H. Qed.

Lemma trace_addEvent ev w : trace (addEvent ev w) = trace w ++ [ev].
Proof. reflexivity. Qed.

(** Unfolding of the monad and of the primitive operations. *)
Tactic Notation "run_M" :=
  cbv [bind ret throw emit addEvent call wrap defer sessionIO runWatcher
       ReadHeaderOrReply CopyFileBodyTo sessionClose goWatch setStream
       sessionWait WriteFile StartDirectory EndDirectory];
  cbn [trace stream closed ticks watcher fst snd].
Tactic Notation "run_M" "in" hyp(H) :=
  cbv [bind ret throw emit addEvent call wrap defer sessionIO runWatcher
       ReadHeaderOrReply CopyFileBodyTo sessionClose goWatch setStream
       sessionWait WriteFile StartDirectory EndDirectory] in H;
  cbn [trace stream closed ticks watcher fst snd] in H.

(** Reading a header consumes a token. *)
Lemma ReadHeaderOrReply_consumes w h w1 :
  ReadHeaderOrReply w = (Ok h, w1) ->
  (length (stream w1) < length (stream w))%nat /\ world_le w w1.
Proof.
  intro H. split.
  - run_M in H.
    destruct (watcher w) as [k|]; [destruct (k <=? ticks w)%nat|];
      cbn in H; try discriminate H;
      (destruct (closed w); cbn in H; [discriminate H|]);
      (destruct (stream w) as [|[h'|b] rest]; try discriminate H);
      inversion H; subst; simpl; lia.
  - pose proof (mono_ReadHeaderOrReply w) as Hm. now rewrite H in Hm.
Qed.

(** The loop of [ReceiveDir] ends: more iterations than there are tokens are
    never needed. *)
Lemma receiveLoop_total E f skips :
  forall fuel st w,
    (length (stream w) < fuel)%nat ->
    exists r, receiveLoop fuel E f skips st w = Some r.
Proof.
  induction fuel as [|fuel IH]; intros st w Hlt; [lia|].
  simpl.
  destruct (ReadHeaderOrReply w) as [[h|e] w1] eqn:Hr.
  - apply ReadHeaderOrReply_consumes in Hr. destruct Hr as [Hlen _].
    pose proof (mono_onHeader E f skips h st w1) as [_ Hle].
    destruct (onHeader E f skips h st w1) as [[st'|e] w2]; simpl in Hle.
    + apply IH. lia.
    + eauto.
  - destruct e; eauto.
Qed.

Lemma receiveLoop_mono E f skips :
  forall fuel st w r,
    receiveLoop fuel E f skips st w = Some r -> world_le w (snd r).
Proof.
  induction fuel as [|fuel IH]; intros st w r H; [discriminate|].
  simpl in H.
  pose proof (mono_ReadHeaderOrReply w) as Hm.
  destruct (ReadHeaderOrReply w) as [[h|e] w1]; simpl in Hm.
  - pose proof (mono_onHeader E f skips h st w1) as Hh.
    destruct (onHeader E f skips h st w1) as [[st'|e] w2]; simpl in Hh.
    + apply IH in H. eauto using world_le_trans.
    + inversion H; subst; simpl. eauto using world_le_trans.
  - destruct e; inversion H; subst; exact Hm.
Qed.

Lemma mono_receiveDirHandler E f skips dest :
  mono (receiveDirHandler E f skips dest).
Proof.
  intro w. unfold receiveDirHandler.
  destruct (receiveLoop _ E f skips (rdInit dest) w) as [r|] eqn:H.
  - eapply receiveLoop_mono; eauto.
  - apply world_le_refl.
Qed.

Lemma mono_newResourceSession E p d scp r u :
  mono (newResourceSession E p d scp r u).
Proof.
  unfold newResourceSession.
  assert (Hc : forall c : M unit, mono c ->
            mono (fun w => match c w with
                           | (Err e, w') => (Err e, snd (sessionClose w'))
                           | r => r
                           end)).
  { intros c Hc w. specialize (Hc w).
    destruct (c w) as [[a|e] w1]; simpl in *; [exact Hc|].
    eapply world_le_trans; [exact Hc|]. apply mono_sessionClose. }
  repeat (apply mono_bind; [|intro]); apply Hc; auto with mono.
Qed.

Lemma mono_runResourceSession E c p d scp r u (handler : M unit) :
  mono handler -> mono (runResourceSession E c p d scp r u handler).
Proof.
  intro Hh. unfold runResourceSession, sessionWait.
  apply mono_bind; [apply mono_newResourceSession|]. intros _.
  apply mono_defer; [auto with mono|]. repeat mono_step.
Qed.

(** ** The remote command line *)

Ltac split_osErr :=
  repeat match goal with
         | |- context [osErr ?E ?ev] =>
             let e := fresh "e" in
             destruct (osErr E ev) as [e|]; cbn
         end.

Lemma resourceCommand_spec E path d scp r p :
  resourceCommand E path d scp r p = specCommand E "f" scp path p r d.
Proof.
  unfold resourceCommand, specCommand, specFlags.
  destruct p, r, d; reflexivity.
Qed.

Lemma sinkCommand_spec E path d scp r p :
  sinkCommand E path d scp r p = specCommand E "t" scp path p r d.
Proof.
  unfold sinkCommand, specCommand, specFlags.
  destruct p, r, d; reflexivity.
Qed.

Lemma newResourceSession_starts E path d scp r p w :
  exists l,
    trace (snd (newResourceSession E path d scp r p w)) = trace w ++ l /\
    (startedCommands l = [] \/
     startedCommands l = [resourceCommand E path d scp r p]).
Proof.
  unfold newResourceSession. run_M.
  generalize (resourceCommand E path d scp r p); intro cmd.
  split_osErr; rewrite <- ?app_assoc; cbn [app];
    eexists; (split; [reflexivity|]); cbn; auto.
Qed.

Lemma newSinkSession_starts E path d scp r p w :
  exists l,
    trace (snd (newSinkSession E path d scp r p w)) = trace w ++ l /\
    (startedCommands l = [] \/
     startedCommands l = [sinkCommand E path d scp r p]).
Proof.
  unfold newSinkSession. run_M.
  generalize (sinkCommand E path d scp r p); intro cmd.
  split_osErr; rewrite <- ?app_assoc; cbn [app];
    eexists; (split; [reflexivity|]); cbn; auto.
Qed.

(** C7. The command line either session starts is the binary (["scp"] when
    none is given), one flag group and the escaped path; the group holds
    exactly one of [f] (receiving) and [t] (sending), and [p], [r], [d]
    exactly when permissions are preserved, the copy is recursive, the path
    is asserted to be a directory. A session starts no other command. *)
Theorem command_line_shape E path d scp r p :
  resourceCommand E path d scp r p = specCommand E "f" scp path p r d /\
  sinkCommand E path d scp r p = specCommand E "t" scp path p r d /\
  (countChar "f" (specFlags "f" p r d) = 1 /\
   countChar "t" (specFlags "f" p r d) = 0 /\
   countChar "t" (specFlags "t" p r d) = 1 /\
   countChar "f" (specFlags "t" p r d) = 0) /\
  (countChar "p" (specFlags "f" p r d) = (if p then 1 else 0) /\
   countChar "r" (specFlags "f" p r d) = (if r then 1 else 0) /\
   countChar "d" (specFlags "f" p r d) = (if d then 1 else 0) /\
   countChar "p" (specFlags "t" p r d) = (if p then 1 else 0) /\
   countChar "r" (specFlags "t" p r d) = (if r then 1 else 0) /\
   countChar "d" (specFlags "t" p r d) = (if d then 1 else 0)) /\
  (forall w, exists l,
     trace (snd (newResourceSession E path d scp r p w)) = trace w ++ l /\
     (startedCommands l = [] \/
      startedCommands l = [specCommand E "f" scp path p r d])) /\
  (forall w, exists l,
     trace (snd (newSinkSession E path d scp r p w)) = trace w ++ l /\
     (startedCommands l = [] \/
      startedCommands l = [specCommand E "t" scp path p r d])).
Proof.
  split; [apply resourceCommand_spec|].
  split; [apply sinkCommand_spec|].
  split; [destruct p, r, d; cbn; auto|].
  split; [destruct p, r, d; cbn; repeat split; reflexivity|].
  split; intro w.
  - rewrite <- resourceCommand_spec. apply newResourceSession_starts.
  - rewrite <- sinkCommand_spec. apply newSinkSession_starts.
Qed.

(** ** Sending one file *)

Ltac split_world :=
  repeat match goal with
         | |- context [match watcher ?w with _ => _ end] =>
             destruct (watcher w); cbn
         | |- context [(?k <=? ?t)%nat] => destruct (k <=? t)%nat; cbn
         | |- context [if closed ?w then _ else _] => destruct (closed w); cbn
         | |- context [osErr ?E ?ev] => destruct (osErr E ev); cbn
         end.

Ltac trace_done :=
  rewrite <- ?app_assoc; cbn [app]; eexists; (split; [reflexivity|]).

Lemma Send_trace E s info destFile w :
  exists l,
    trace (snd (Send E s info destFile w)) = trace w ++ l /\
    (startedCommands l = [] \/
     startedCommands l =
       [specCommand E "t" ""
          (realPath E (filepath.Dir (filepath.Clean destFile)))
          true false false]) /\
    (sentFiles l = [] \/ sentFiles l = [info]).
Proof.
  unfold Send, runSinkSession, newSinkSession.
  rewrite <- sinkCommand_spec.
  generalize (sinkCommand E (realPath E (filepath.Dir (filepath.Clean destFile)))
                          false "" false true); intro cmd.
  run_M. split_world; trace_done; cbn; auto.
Qed.

Lemma Send_same_parent E s info destFile destFile' w :
  filepath.Dir (filepath.Clean destFile') =
  filepath.Dir (filepath.Clean destFile) ->
  Send E s info destFile' w = Send E s info destFile w.
Proof. intro Hdir. unfold Send. now rewrite Hdir. Qed.

Lemma Send_starts_command E s info destFile w :
  osErr E EvNewSession = None -> osErr E EvStdoutPipe = None ->
  osErr E EvStdinPipe = None ->
  exists l,
    trace (snd (Send E s info destFile w)) =
    trace w ++
    [EvNewSession; EvStdoutPipe; EvStdinPipe;
     EvStart ("scp -tp " ++
              escapeShellArg E
                (realPath E (filepath.Dir (filepath.Clean destFile))))%string]
    ++ l.
Proof.
  intros H1 H2 H3. unfold Send, runSinkSession, newSinkSession, sinkCommand.
  cbn [String.eqb Ascii.eqb Bool.eqb String.append].
  generalize (escapeShellArg E
                (realPath E (filepath.Dir (filepath.Clean destFile)))).
  intro arg.
  run_M. rewrite H1. cbn. rewrite H2. cbn. rewrite H3. cbn.
  split_world; rewrite <- ?app_assoc; cbn [app]; eexists; reflexivity.
Qed.

Lemma Send_runs E s info destFile w :
  quiet E -> good w ->
  fst (Send E s info destFile w) = Ok tt /\
  closed (snd (Send E s info destFile w)) = true /\
  trace (snd (Send E s info destFile w)) =
  trace w ++
  [EvNewSession; EvStdoutPipe; EvStdinPipe;
   EvStart ("scp -tp " ++
            escapeShellArg E
              (realPath E (filepath.Dir (filepath.Clean destFile))))%string;
   EvWriteFile info; EvCloseStdin; EvWait; EvClose].
Proof.
  intros Hq [Hc Hw]. unfold Send, runSinkSession, newSinkSession, sinkCommand.
  cbn [String.eqb Ascii.eqb Bool.eqb String.append].
  generalize (escapeShellArg E
                (realPath E (filepath.Dir (filepath.Clean destFile)))).
  intro arg.
  run_M. rewrite !Hq. cbn. rewrite Hw. cbn. rewrite Hc. cbn.
  rewrite ?Hq. cbn. rewrite ?Hq. cbn.
  repeat split; rewrite <- ?app_assoc; reflexivity.
Qed.

(** C9. [Send] puts the parent directory of the cleaned [destFile] into the
    command line, and nothing else of [destFile]. Once the session and its
    pipes are there, the command started is [scp -tp] followed by the
    escaped [realPath(Dir(Clean(destFile)))]; in a run in which nothing
    fails the session is started with it, the one file sent is [info], and
    the session is closed. No run starts another command or sends another
    file. The last element of [destFile] does not reach the remote: two
    destinations with the same parent give the same run, so the name of the
    remote file can only come from [info]. *)
Theorem Send_remote_path E s info destFile w :
  let parent := realPath E (filepath.Dir (filepath.Clean destFile)) in
  let cmd := ("scp -tp " ++ escapeShellArg E parent)%string in
  (osErr E EvNewSession = None -> osErr E EvStdoutPipe = None ->
   osErr E EvStdinPipe = None ->
   exists l,
     trace (snd (Send E s info destFile w)) =
     trace w ++ [EvNewSession; EvStdoutPipe; EvStdinPipe; EvStart cmd] ++ l) /\
  (quiet E -> good w ->
   fst (Send E s info destFile w) = Ok tt /\
   closed (snd (Send E s info destFile w)) = true /\
   trace (snd (Send E s info destFile w)) =
   trace w ++ [EvNewSession; EvStdoutPipe; EvStdinPipe; EvStart cmd;
               EvWriteFile info; EvCloseStdin; EvWait; EvClose]) /\
  (exists l,
     trace (snd (Send E s info destFile w)) = trace w ++ l /\
     (startedCommands l = [] \/ startedCommands l = [cmd]) /\
     (sentFiles l = [] \/ sentFiles l = [info])) /\
  (forall destFile',
     filepath.Dir (filepath.Clean destFile') =
     filepath.Dir (filepath.Clean destFile) ->
     Send E s info destFile' w = Send E s info destFile w).
Proof.
  intros parent cmd. split; [|split; [|split]].
  - now apply Send_starts_command.
  - now apply Send_runs.
  - destruct (Send_trace E s info destFile w) as [l [Ht [Hc Hf]]].
    exists l. split; [exact Ht|]. split; [|exact Hf].
    destruct Hc as [Hc|Hc]; [now left | right].
    rewrite Hc. reflexivity.
  - intros destFile' Hdir. now apply Send_same_parent.
Qed.

Lemma Send_remote_path_witness :
  let info := NewFileInfo "a.txt" 3 420 0 0 in
  (quiet quietEnv /\ good (initWorld [])) /\
  fst (Send quietEnv background info "/tmp/x/b.txt" (initWorld [])) = Ok tt /\
  closed (snd (Send quietEnv background info "/tmp/x/b.txt" (initWorld [])))
  = true /\
  trace (snd (Send quietEnv background info "/tmp/x/b.txt" (initWorld []))) =
  trace (initWorld []) ++
  [EvNewSession; EvStdoutPipe; EvStdinPipe; EvStart "scp -tp '/tmp/x'";
   EvWriteFile info; EvCloseStdin; EvWait; EvClose].
Proof.
  intro info.
  assert (H1 : quiet quietEnv) by (intro ev; reflexivity).
  assert (H2 : good (initWorld [])) by (split; reflexivity).
  split; [split; assumption|].
  exact (proj1 (proj2 (Send_remote_path quietEnv background info
                         "/tmp/x/b.txt" (initWorld []))) H1 H2).
Defined.

Example Send_run :
  startedCommands
    (trace (snd (Send quietEnv background (NewFileInfo "a.txt" 3 420 0 0)
                      "/tmp/x/b.txt" (initWorld []))))
  = ["scp -tp '/tmp/x'"].
Proof. reflexivity. Qed.

(** ** Copying a file body to a local file *)

(** C8, as the code has it. Once the body is copied the mode is changed and
    then the times, in this order. A failing mode change is returned at once
    and the times are not touched; a failing change of the times is returned
    after the mode was changed. *)
Theorem chmod_then_chtimes E name th fh w w2 :
  osErr E (EvOpenFile name (fhMode fh)) = None ->
  CopyFileBodyTo fh (fileWriter name)
                 (addEvent (EvOpenFile name (fhMode fh)) w) = (Ok tt, w2) ->
  let r := copyFileBodyFromRemote E name th fh w in
  let chmod := EvChmod name (fhMode fh) in
  let chtimes := EvChtimes name (Atime th) (Mtime th) in
  match osErr E chmod, osErr E chtimes with
  | Some e, _ =>
      fst r = Err (errorString ("failed to change file mode: err=" ++ Error e))
      /\ trace (snd r) = trace w2 ++ [EvFileClose name; chmod]
  | None, Some e =>
      fst r = Err (errorString ("failed to change file time: err=" ++ Error e))
      /\ trace (snd r) = trace w2 ++ [EvFileClose name; chmod; chtimes]
  | None, None =>
      fst r = Ok tt
      /\ trace (snd r) = trace w2 ++ [EvFileClose name; chmod; chtimes]
  end.
Proof.
  intros Hopen Hcopy r chmod chtimes. subst r.
  unfold copyFileBodyFromRemote. fold chmod chtimes.
  erewrite bind_ok by (apply wrap_ok, call_ok, Hopen).
  erewrite bind_ok by (apply defer_emit, wrap_ok, Hcopy).
  destruct (osErr E chmod) as [e|] eqn:Hmod.
  - erewrite bind_err by (apply wrap_err, call_err, Hmod).
    cbn [fst snd]. rewrite !trace_addEvent, <- app_assoc. auto.
  - erewrite bind_ok by (apply wrap_ok, call_ok, Hmod).
    destruct (osErr E chtimes) as [e|] eqn:Htimes.
    + erewrite bind_err by (apply wrap_err, call_err, Htimes).
      cbn [fst snd]. rewrite !trace_addEvent, <- !app_assoc. auto.
    + erewrite bind_ok by (apply wrap_ok, call_ok, Htimes).
      cbn [fst snd ret]. rewrite !trace_addEvent, <- !app_assoc. auto.
Qed.

Lemma chmod_then_chtimes_witness :
  let fh := {| fhMode := 420; fhSize := 2; fhName := "f" |} in
  let th := {| Mtime := 5; Atime := 6 |} in
  let w := initWorld [TBody [Byte.x61; Byte.x62]] in
  let w2 := snd (CopyFileBodyTo fh (fileWriter "/dest/f")
                   (addEvent (EvOpenFile "/dest/f" 420) w)) in
  osErr readOnlyEnv (EvOpenFile "/dest/f" 420) = None /\
  CopyFileBodyTo fh (fileWriter "/dest/f")
                 (addEvent (EvOpenFile "/dest/f" 420) w) = (Ok tt, w2) /\
  fst (copyFileBodyFromRemote readOnlyEnv "/dest/f" th fh w) =
    Err (errorString
           "failed to change file mode: err=operation not permitted") /\
  trace (snd (copyFileBodyFromRemote readOnlyEnv "/dest/f" th fh w)) =
    trace w2 ++ [EvFileClose "/dest/f"; EvChmod "/dest/f" 420].
Proof.
  intros fh th w w2.
  split; [reflexivity|]. split; [reflexivity|].
  apply (chmod_then_chtimes readOnlyEnv "/dest/f" th fh w (w2 := w2));
    reflexivity.
Defined.

(** C8 as the specification words it fails: with a mode change and a change
    of the times that would both fail, the change of the times is never
    attempted and only the failure of the mode change is returned. *)
Lemma chmod_failure_skips_chtimes :
  let fh := {| fhMode := 420; fhSize := 2; fhName := "f" |} in
  let th := {| Mtime := 5; Atime := 6 |} in
  let r := copyFileBodyFromRemote readOnlyEnv "/dest/f" th fh
             (initWorld [TBody [Byte.x61; Byte.x62]]) in
  ~ bothAttempted (trace (snd r)) /\
  fst r = Err (errorString
                 "failed to change file mode: err=operation not permitted").
Proof.
  cbv zeta. split; [|reflexivity].
  unfold bothAttempted. intro H.
  assert (Hf : false = true) by (apply H; reflexivity).
  discriminate Hf.
Qed.

(** ** What the events of a run have in common *)

Definition traceAll {A : Type} (P : event -> Prop) (c : M A) : Prop :=
  forall w, exists l, trace (snd (c w)) = trace w ++ l /\ Forall P l.

Section TraceAll.
Variable P : event -> Prop.

Lemma traceAll_ret A (a : A) : traceAll P (ret a).
Proof. intro w. exists []. now rewrite app_nil_r. Qed.

Lemma traceAll_throw A e : traceAll P (@throw A e).
Proof. intro w. exists []. now rewrite app_nil_r. Qed.

Lemma traceAll_emit ev : P ev -> traceAll P (emit ev).
Proof. intros H w. exists [ev]. split; [reflexivity | now constructor]. Qed.

Lemma traceAll_bind A B (c : M A) (k : A -> M B) :
  traceAll P c -> (forall a, traceAll P (k a)) -> traceAll P (bind c k).
Proof.
  intros Hc Hk w. unfold bind. destruct (Hc w) as [l1 [H1 F1]].
  destruct (c w) as [[a|e] w1]; cbn [snd] in *; [|now exists l1].
  destruct (Hk a w1) as [l2 [H2 F2]].
  exists (l1 ++ l2). split; [now rewrite H2, H1, app_assoc|].
  now apply Forall_app.
Qed.

Lemma traceAll_wrap A pre (c : M A) : traceAll P c -> traceAll P (wrap pre c).
Proof.
  intros Hc w. unfold wrap. destruct (Hc w) as [l [H F]].
  destruct (c w) as [[a|e] w1]; now exists l.
Qed.

Lemma traceAll_defer A (d : M unit) (c : M A) :
  traceAll P d -> traceAll P c -> traceAll P (defer d c).
Proof.
  intros Hd Hc w. unfold defer. destruct (Hc w) as [l1 [H1 F1]].
  destruct (c w) as [r w1]; cbn [snd] in *.
  destruct (Hd w1) as [l2 [H2 F2]].
  exists (l1 ++ l2). split; [now rewrite H2, H1, app_assoc|].
  now apply Forall_app.
Qed.

Lemma traceAll_call E ev : P ev -> traceAll P (call E ev).
Proof.
  intro H. unfold call. apply traceAll_bind; [now apply traceAll_emit|].
  intros _. destruct (osErr E ev); [apply traceAll_throw | apply traceAll_ret].
Qed.

Lemma traceAll_sessionClose : P EvClose -> traceAll P sessionClose.
Proof. intros H w. exists [EvClose]. split; [reflexivity | now constructor]. Qed.

Lemma traceAll_goWatch c :
  (forall k, P (EvGo k)) -> traceAll P (goWatch c).
Proof.
  intro H. destruct c as [k|]; [|apply traceAll_ret].
  intro w. exists [EvGo k]. split; [reflexivity | now constructor].
Qed.

Lemma traceAll_sessionIO : P EvClose -> traceAll P sessionIO.
Proof.
  intros H w. run_M.
  destruct (watcher w) as [k|]; [destruct (k <=? ticks w)%nat|]; cbn;
    try (exists [EvClose]; split; [reflexivity | now constructor]);
    destruct (closed w); cbn; exists []; now rewrite app_nil_r.
Qed.

Lemma traceAll_ReadHeaderOrReply :
  P EvClose -> P EvReadHeaderOrReply -> traceAll P ReadHeaderOrReply.
Proof.
  intros Hc Hr. unfold ReadHeaderOrReply.
  apply traceAll_bind; [now apply traceAll_sessionIO|]. intros _.
  apply traceAll_bind; [now apply traceAll_emit|]. intros _ w.
  exists []. rewrite app_nil_r.
  destruct (stream w) as [|[h|b] rest]; auto.
Qed.

Lemma traceAll_CopyFileBodyTo h dst :
  P EvClose -> P (EvCopyFileBodyTo h dst) -> (forall b, P (EvWrite dst b)) ->
  traceAll P (CopyFileBodyTo h dst).
Proof.
  intros Hc Hr Hw. unfold CopyFileBodyTo.
  apply traceAll_bind; [now apply traceAll_sessionIO|]. intros _.
  apply traceAll_bind; [now apply traceAll_emit|]. intros _ w.
  destruct (stream w) as [|[h'|b] rest];
    try (exists []; now rewrite app_nil_r).
  destruct (Z.eqb _ _); [|exists []; now rewrite app_nil_r].
  exists [EvWrite dst b]. split; [reflexivity | now constructor].
Qed.

Lemma traceAll_newResourceSession E p d scp r u :
  P EvNewSession -> P EvStdoutPipe -> P EvStdinPipe -> P EvClose ->
  (forall cmd, P (EvStart cmd)) ->
  traceAll P (newResourceSession E p d scp r u).
Proof.
  intros H1 H2 H3 H4 H5. unfold newResourceSession.
  assert (Hc : forall c : M unit, traceAll P c ->
            traceAll P (fun w => match c w with
                                 | (Err e, w') => (Err e, snd (sessionClose w'))
                                 | r => r
                                 end)).
  { intros c Hc w. destruct (Hc w) as [l [H F]].
    destruct (c w) as [[a|e] w1]; cbn [snd] in *; [now exists l|].
    exists (l ++ [EvClose]). cbn. split; [now rewrite H, app_assoc|].
    apply Forall_app. split; [assumption | now constructor]. }
  repeat (apply traceAll_bind; [|intro]); apply Hc;
    apply traceAll_call; auto.
Qed.

Lemma traceAll_runResourceSession E c p d scp r u (handler : M unit) :
  P EvNewSession -> P EvStdoutPipe -> P EvStdinPipe -> P EvClose ->
  (forall cmd, P (EvStart cmd)) -> (forall k, P (EvGo k)) -> P EvWait ->
  traceAll P handler ->
  traceAll P (runResourceSession E c p d scp r u handler).
Proof.
  intros H1 H2 H3 H4 H5 H6 H7 Hh. unfold runResourceSession, sessionWait.
  apply traceAll_bind; [now apply traceAll_newResourceSession|]. intros _.
  apply traceAll_defer; [now apply traceAll_sessionClose|].
  apply traceAll_bind; [now apply traceAll_goWatch|]. intros _.
  apply traceAll_bind; [exact Hh|]. intros _.
  now apply traceAll_call.
Qed.

End TraceAll.

(** ** Receiving one file *)

Lemma receiveFileDest_cases E src dest :
  receiveFileDest E src dest = Ok (specReceiveTarget E src dest) \/
  exists e, osStat E (filepath.Clean dest) = Err e /\ IsNotExist e = false /\
            receiveFileDest E src dest =
            Err (errorString
                   ("failed to get information of destnation file: err=" ++
                    Error e)).
Proof.
  unfold receiveFileDest, specReceiveTarget.
  destruct (osStat E (filepath.Clean dest)) as [fi|e] eqn:Hs.
  - left. destruct (IsDir fi); reflexivity.
  - destruct (IsNotExist e) eqn:Hn; cbn; [now left|].
    right. exists e. auto.
Qed.

Lemma traceAll_copyFileBodyFromRemote E name th fh :
  traceAll (writesOnlyAt name) (copyFileBodyFromRemote E name th fh).
Proof.
  unfold copyFileBodyFromRemote.
  repeat first
    [ apply traceAll_ret
    | apply traceAll_call; exact I || reflexivity
    | apply traceAll_emit; exact I
    | apply traceAll_wrap
    | apply traceAll_defer
    | apply traceAll_CopyFileBodyTo; [exact I | exact I | intro; reflexivity]
    | apply traceAll_bind; [|intro] ].
Qed.

Lemma traceAll_expectTime P h : traceAll P (expectTime h).
Proof. destruct h; first [apply traceAll_ret | apply traceAll_throw]. Qed.

Lemma traceAll_expectFile P h : traceAll P (expectFile h).
Proof. destruct h; first [apply traceAll_ret | apply traceAll_throw]. Qed.

Lemma ReceiveFile_writes_only_target E s src dest :
  traceAll (writesOnlyAt (specReceiveTarget E src dest))
           (ReceiveFile E s src dest).
Proof.
  unfold ReceiveFile.
  apply traceAll_bind; [apply traceAll_emit; exact I|]. intros _.
  destruct (receiveFileDest_cases E src dest) as [H | [e [_ [_ H]]]];
    rewrite H; [|apply traceAll_throw].
  apply traceAll_runResourceSession; try exact I; try (intro; exact I).
  apply traceAll_bind;
    [apply traceAll_wrap, traceAll_ReadHeaderOrReply; exact I|]. intro h1.
  apply traceAll_bind; [apply traceAll_expectTime|]. intro th.
  apply traceAll_bind;
    [apply traceAll_wrap, traceAll_ReadHeaderOrReply; exact I|]. intro h2.
  apply traceAll_bind; [apply traceAll_expectFile|]. intro fh.
  apply traceAll_copyFileBodyFromRemote.
Qed.

(** A run in which nothing fails: the remote sends the time header, the file
    header and the body, and the file is created and filled at the target. *)
Lemma ReceiveFile_run E s src dest th fh b tr :
  (forall ev, osErr E ev = None) ->
  (forall e, osStat E (filepath.Clean dest) = Err e -> IsNotExist e = true) ->
  ctx s = None ->
  Z.of_nat (length b) = fhSize fh ->
  let target := specReceiveTarget E src dest in
  ReceiveFile E s src dest
    (mkWorld [THeader (timeMsg th); THeader (fileMsg fh); TBody b] tr false 0
             None) =
  (Ok tt,
   mkWorld [] (tr ++ [EvStat (filepath.Clean dest); EvNewSession; EvStdoutPipe;
                      EvStdinPipe;
                      EvStart (resourceCommand E
                                 (realPath E (filepath.Clean src))
                                 false "" false true);
                      EvReadHeaderOrReply; EvReadHeaderOrReply;
                      EvOpenFile target (fhMode fh);
                      EvCopyFileBodyTo fh (fileWriter target);
                      EvWrite (fileWriter target) b;
                      EvFileClose target;
                      EvChmod target (fhMode fh);
                      EvChtimes target (Atime th) (Mtime th);
                      EvWait; EvClose])
           true 3 None).
Proof.
  intros Hq Hstat Hctx Hlen target.
  unfold ReceiveFile.
  destruct (receiveFileDest_cases E src dest) as [H | [e [He [Hn _]]]];
    [|apply Hstat in He; congruence].
  rewrite H. fold target. rewrite Hctx.
  unfold runResourceSession, newResourceSession, copyFileBodyFromRemote.
  run_M. rewrite !Hq. cbn. rewrite !Hq. cbn.
  apply Z.eqb_eq in Hlen. rewrite Hlen. cbn. rewrite ?Hq. cbn.
  rewrite <- !app_assoc. reflexivity.
Qed.

(** C6. [ReceiveFile] creates and writes no local file but the target: the
    destination joined with the base name of the source when the destination
    is an existing directory, the destination itself when it is a regular
    file or does not exist. When nothing fails the body received is written
    there. *)
Theorem ReceiveFile_destination E s src dest th fh b tr :
  let srcFile := realPath E (filepath.Clean src) in
  let destFile := filepath.Clean dest in
  let target :=
    match osStat E destFile with
    | Ok fi => if IsDir fi
               then filepath.Join [destFile; filepath.Base srcFile]
               else destFile
    | Err _ => destFile
    end in
  traceAll (writesOnlyAt target) (ReceiveFile E s src dest) /\
  ((forall ev, osErr E ev = None) ->
   (forall e, osStat E destFile = Err e -> IsNotExist e = true) ->
   ctx s = None ->
   Z.of_nat (length b) = fhSize fh ->
   ReceiveFile E s src dest
     (mkWorld [THeader (timeMsg th); THeader (fileMsg fh); TBody b] tr false 0
              None) =
   (Ok tt,
    mkWorld [] (tr ++ [EvStat destFile; EvNewSession; EvStdoutPipe;
                       EvStdinPipe;
                       EvStart (resourceCommand E srcFile false "" false true);
                       EvReadHeaderOrReply; EvReadHeaderOrReply;
                       EvOpenFile target (fhMode fh);
                       EvCopyFileBodyTo fh (fileWriter target);
                       EvWrite (fileWriter target) b;
                       EvFileClose target;
                       EvChmod target (fhMode fh);
                       EvChtimes target (Atime th) (Mtime th);
                       EvWait; EvClose])
            true 3 None)).
Proof.
  intros srcFile destFile target.
  change target with (specReceiveTarget E src dest).
  split.
  - apply ReceiveFile_writes_only_target.
  - intros. now apply ReceiveFile_run.
Qed.

Lemma ReceiveFile_destination_witness :
  let th := {| Mtime := 5; Atime := 6 |} in
  let fh := {| fhMode := 420; fhSize := 2; fhName := "src.dat" |} in
  let b := [Byte.x61; Byte.x62] in
  ((forall ev, osErr dirEnv ev = None) /\
   (forall e, osStat dirEnv (filepath.Clean "/tmp/dl") = Err e ->
              IsNotExist e = true) /\
   ctx background = None /\
   Z.of_nat (length b) = fhSize fh) /\
  ReceiveFile dirEnv background "/remote/src.dat" "/tmp/dl"
    (mkWorld [THeader (timeMsg th); THeader (fileMsg fh); TBody b] [] false 0
             None) =
  (Ok tt,
   mkWorld [] [EvStat "/tmp/dl"; EvNewSession; EvStdoutPipe; EvStdinPipe;
               EvStart "scp -fp '/remote/src.dat'";
               EvReadHeaderOrReply; EvReadHeaderOrReply;
               EvOpenFile "/tmp/dl/src.dat" 420;
               EvCopyFileBodyTo fh (fileWriter "/tmp/dl/src.dat");
               EvWrite (fileWriter "/tmp/dl/src.dat") b;
               EvFileClose "/tmp/dl/src.dat";
               EvChmod "/tmp/dl/src.dat" 420;
               EvChtimes "/tmp/dl/src.dat" 6 5;
               EvWait; EvClose]
           true 3 None).
Proof.
  intros th fh b.
  assert (H1 : forall ev, osErr dirEnv ev = None) by reflexivity.
  assert (H2 : forall e, osStat dirEnv (filepath.Clean "/tmp/dl") = Err e ->
                         IsNotExist e = true) by (intros e H; discriminate H).
  assert (H3 : ctx background = None) by reflexivity.
  assert (H4 : Z.of_nat (length b) = fhSize fh) by reflexivity.
  split; [auto|].
  exact (proj2 (ReceiveFile_destination dirEnv background "/remote/src.dat"
                  "/tmp/dl" th fh b []) H1 H2 H3 H4).
Defined.

Example ReceiveFile_targets :
  map (specReceiveTarget dirEnv "/remote/src.dat")
      ["/tmp/dl"; "/tmp/dl/"; "/tmp/old.dat"; "/tmp/new.dat"]
  = ["/tmp/dl/src.dat"; "/tmp/dl/src.dat"; "/tmp/old.dat"; "/tmp/new.dat"].
Proof. reflexivity. Qed.

(** ** The directory reconstructor *)

Lemma onFile_rejected_keeps_body E f fh st w :
  skipBaseDir st = "" ->
  f (curDir st)
    (NewFileInfo (fhName fh) (fhSize fh) (fhMode fh) (Mtime (timeHeader st))
                 (Atime (timeHeader st))) = Ok false ->
  exists ev, onFile E f fh st w = (Ok st, addEvent ev w) /\
             stream (addEvent ev w) = stream w.
Proof.
  intros Hs Hf. unfold onFile. rewrite Hs. cbn [String.eqb].
  eexists. split; [|reflexivity].
  erewrite bind_ok by reflexivity. now rewrite Hf.
Qed.

(** C1 fails on the code. With the file [b] rejected by the filter the body
    of [b] is not read: no [CopyFileBodyTo] is made for it, the next read of
    a header meets the body and the transfer ends in an error; the file [c]
    that follows is not received. *)
Theorem rejected_file_body_left_unread :
  let r := ReceiveDir quietEnv background "/src" "/dest"
             (Some (rejectNamed "b")) (initWorld streamRejectedFile) in
  fst r = Err (errorString
                 "failed to read scp message header: err=invalid message type")
  /\ copiedBodies (trace (snd r)) = []
  /\ openedFiles (trace (snd r)) = []
  /\ stream (snd r) = TBody (repeat Byte.x61 2) :: [tokT] ++ tokC "c" 1 ++ [tokE].
Proof. cbv zeta. repeat split; reflexivity. Qed.

(** The same stream with a filter that accepts everything is received in
    full. *)
Example accepted_files_received :
  let r := ReceiveDir quietEnv background "/src" "/dest" None
             (initWorld streamRejectedFile) in
  fst r = Ok tt /\ openedFiles (trace (snd r)) = ["/dest/b"; "/dest/c"].
Proof. cbv zeta. split; reflexivity. Qed.

(** C2 fails on the code. [isSubdirectory] takes the parent of the skipped
    directory for a subdirectory of it, so the end marker of the rejected
    directory [b] leaves the skip in place: the sibling [a/c] is discarded
    and copying resumes only one level further up, with [d]. *)
Theorem skip_outlives_rejected_directory :
  let r := ReceiveDir quietEnv background "/src" "/dest"
             (Some (rejectNamed "b")) (initWorld streamRejectedDir) in
  let inB := mkRd "/dest/a/b" zeroTime [zeroTime; zeroTime] false "/dest/a/b" in
  isSubdirectory "/dest/a/b" "/dest/a" = Ok true /\
  filepath.Rel "/dest/a/b" "/dest/a" = Ok ".." /\
  fst (onEndDirectory quietEnv inB (initWorld [])) =
    Ok (mkRd "/dest/a" zeroTime [zeroTime] false "/dest/a/b") /\
  fst r = Ok tt /\
  copiedBodies (trace (snd r)) =
    [("x", Discard); ("c", Discard); ("d", fileWriter "/dest/d")] /\
  openedFiles (trace (snd r)) = ["/dest/d"].
Proof. cbv zeta. repeat split; reflexivity. Qed.

Lemma ReceiveDir_fresh E s src dest f w e :
  osStat E (filepath.Clean dest) = Err e ->
  IsNotExist e = true ->
  osErr E (EvMkdirAll (filepath.Clean dest) ModePerm777) = None ->
  ReceiveDir E s src dest f w =
  runResourceSession E (ctx s) (realPath E (filepath.Clean src)) false "" true
    true (receiveDirHandler E (filterOrAny f) true (filepath.Clean dest))
    (addEvent (EvMkdirAll (filepath.Clean dest) ModePerm777)
              (addEvent (EvStat (filepath.Clean dest)) w)).
Proof.
  intros Hs Hn Hm. unfold ReceiveDir.
  erewrite bind_ok by reflexivity. rewrite Hs, Hn. cbn [negb].
  erewrite bind_ok; [reflexivity|].
  erewrite bind_ok by (apply wrap_ok, call_ok, Hm). reflexivity.
Qed.

Lemma ReceiveDir_existing E s src dest f w fi :
  osStat E (filepath.Clean dest) = Ok fi ->
  ReceiveDir E s src dest f w =
  runResourceSession E (ctx s) (realPath E (filepath.Clean src)) false "" true
    true (receiveDirHandler E (filterOrAny f) false (filepath.Clean dest))
    (addEvent (EvStat (filepath.Clean dest)) w).
Proof.
  intros Hs. unfold ReceiveDir.
  erewrite bind_ok by reflexivity. rewrite Hs.
  erewrite bind_ok by reflexivity. reflexivity.
Qed.

Lemma onStartDirectory_elided E f dh st w :
  isFirstStartDirectory st = true ->
  onStartDirectory E f true dh st w =
  (Ok (mkRd (curDir st) (timeHeader st) (timeHeaders st) false
            (skipBaseDir st)), w).
Proof. intro H. unfold onStartDirectory. now rewrite H. Qed.

Lemma onStartDirectory_nested E f dh st w :
  skipBaseDir st = "" ->
  let dir := filepath.Join [curDir st; dhName dh] in
  let info := NewFileInfo (dhName dh) 0 (N.lor (dhMode dh) ModeDir)
                          (Mtime (timeHeader st)) (Atime (timeHeader st)) in
  f (filepath.Dir dir) info = Ok true ->
  osErr E (EvMkdirAll dir (dhMode dh)) = None ->
  osErr E (EvChmod dir (dhMode dh)) = None ->
  onStartDirectory E f false dh st w =
  (Ok (mkRd dir (timeHeader st) (timeHeaders st ++ [timeHeader st]) false ""),
   addEvent (EvChmod dir (dhMode dh))
     (addEvent (EvMkdirAll dir (dhMode dh))
        (addEvent (EvAccept (filepath.Dir dir) info) w))).
Proof.
  intros Hs dir info Hf Hm Hc. unfold onStartDirectory.
  rewrite andb_false_r, Hs. cbn [String.eqb negb]. fold dir info.
  erewrite bind_ok by reflexivity. rewrite Hf.
  erewrite bind_ok by (apply wrap_ok, call_ok, Hm).
  erewrite bind_ok by (apply wrap_ok, call_ok, Hc).
  reflexivity.
Qed.

Lemma onStartDirectory_later E f dh st :
  isFirstStartDirectory st = false ->
  onStartDirectory E f true dh st = onStartDirectory E f false dh st.
Proof. intro H. unfold onStartDirectory. now rewrite H. Qed.

Lemma onStartDirectory_clears_first E f skips dh st w st' w' :
  onStartDirectory E f skips dh st w = (Ok st', w') ->
  isFirstStartDirectory st' = false.
Proof.
  unfold onStartDirectory.
  destruct (_ && _); [intro H; inversion H; reflexivity|].
  destruct (negb _); [intro H; inversion H; reflexivity|].
  unfold bind, emit.
  destruct (f _ _) as [[|]|e]; unfold wrap, call, bind, emit, ret, throw;
    repeat match goal with
           | |- context [osErr ?E ?ev] => destruct (osErr E ev)
           end;
    intro H; inversion H; reflexivity.
Qed.

(** Into a destination that does not exist the tree arrives without an
    extra level; into an existing directory it is nested under the name of
    the source. *)
Example tree_into_fresh_destination :
  openedFiles (trace (snd (ReceiveDir quietEnv background "/src" "/tmp/new"
                             None (initWorld streamRejectedDir))))
  = ["/tmp/new/a/b/x"; "/tmp/new/a/c"; "/tmp/new/d"].
Proof. reflexivity. Qed.

Example tree_into_existing_destination :
  openedFiles (trace (snd (ReceiveDir dirEnv background "/src" "/tmp/dl"
                             None (initWorld streamRejectedDir))))
  = ["/tmp/dl/src/a/b/x"; "/tmp/dl/src/a/c"; "/tmp/dl/src/d"].
Proof. reflexivity. Qed.

(** ** Cancellation *)

Lemma sessionIO_after_signal w k :
  watcher w = Some k -> (k <= ticks w)%nat ->
  sessionIO w =
  (Err (errorString "read/write on closed session"),
   mkWorld (stream w) (trace w ++ [EvClose]) true (ticks w) None).
Proof.
  intros Hw Hk. run_M. rewrite Hw.
  apply Nat.leb_le in Hk. now rewrite Hk.
Qed.

Lemma runResourceSession_watches E k p d scp r u handler w :
  (forall ev, osErr E ev = None) ->
  exists w1,
    runResourceSession E (Some k) p d scp r u handler w =
    defer sessionClose (handler ;; sessionWait E) w1 /\
    watcher w1 = Some k /\
    trace w1 = trace w ++ [EvNewSession; EvStdoutPipe; EvStdinPipe;
                           EvStart (resourceCommand E p d scp r u); EvGo k].
Proof.
  intro Hq. unfold runResourceSession, newResourceSession.
  eexists. split; [|split].
  - run_M. rewrite !Hq. cbn. reflexivity.
  - reflexivity.
  - cbn. now rewrite <- !app_assoc.
Qed.

(** C5 fails on the code for the sending direction. [Send], [SendFile] and
    [SendDir] never read the context of the client and [runSinkSession]
    starts no watcher: with the signal fired before any I/O the file is
    still sent in full and the session is closed only at the end. In the
    receiving direction the watcher is started and closes the session, so
    the first read fails. *)
Theorem sink_session_has_no_watcher :
  let info := NewFileInfo "a.txt" 3 420 0 0 in
  let sent := Send quietEnv cancelled info "/tmp/x/a.txt" (initWorld []) in
  let received := ReceiveFile quietEnv cancelled "/remote/a.txt" "/tmp/a.txt"
                    (initWorld ([tokT] ++ tokC "a.txt" 3)) in
  (forall E s1 s2 i dest w, Send E s1 i dest w = Send E s2 i dest w) /\
  (forall E s1 s2 src dest w,
     SendFile E s1 src dest w = SendFile E s2 src dest w) /\
  (forall E s1 s2 tree src dest f w,
     SendDir E s1 tree src dest f w = SendDir E s2 tree src dest f w) /\
  fst sent = Ok tt /\
  trace (snd sent) =
    [EvNewSession; EvStdoutPipe; EvStdinPipe; EvStart "scp -tp '/tmp/x'";
     EvWriteFile info; EvCloseStdin; EvWait; EvClose] /\
  existsb isGo (trace (snd sent)) = false /\
  fst received =
    Err (errorString
      "failed to read scp message header: err=read/write on closed session")
  /\
  trace (snd received) =
    [EvStat "/tmp/a.txt"; EvNewSession; EvStdoutPipe; EvStdinPipe;
     EvStart "scp -fp '/remote/a.txt'"; EvGo 0; EvClose; EvClose].
Proof. cbv zeta. repeat split; reflexivity. Qed.

(** ** Paths: splitting and joining *)

Import filepath.

Lemma Split_noSep s : noSep s -> strings.Split s Separator = [s].
Proof.
  unfold noSep. induction s as [|c s IH]; [reflexivity|].
  cbn [hasSep strings.Split]. intro H. apply orb_false_iff in H.
  destruct H as [Hc Hs]. rewrite Hc, (IH Hs). reflexivity.
Qed.

Lemma Split_not_nil s : strings.Split s Separator <> [].
Proof.
  destruct s as [|c s]; [discriminate|]. cbn.
  destruct (Ascii.eqb c Separator); [discriminate|].
  destruct (strings.Split s Separator); discriminate.
Qed.

Lemma Split_app s t :
  strings.Split (s ++ SeparatorString ++ t)%string Separator =
  strings.Split s Separator ++ strings.Split t Separator.
Proof.
  induction s as [|c s IH].
  - cbn. reflexivity.
  - cbn [String.append strings.Split].
    destruct (Ascii.eqb c Separator); [now rewrite IH|].
    rewrite IH. destruct (strings.Split s Separator) eqn:H; [|reflexivity].
    now apply Split_not_nil in H.
Qed.

Lemma Split_elements s : Forall noSep (strings.Split s Separator).
Proof.
  induction s as [|c s IH]; [repeat constructor|].
  cbn [strings.Split]. destruct (Ascii.eqb c Separator) eqn:Hc.
  - constructor; [reflexivity | exact IH].
  - destruct (strings.Split s Separator) as [|x xs].
    + constructor; [|constructor]. unfold noSep. cbn. now rewrite Hc.
    + inversion IH; subst. constructor; [|assumption].
      unfold noSep in *. cbn. now rewrite Hc.
Qed.

Lemma Split_Join cs :
  cs <> [] -> Forall noSep cs ->
  strings.Split (strings.Join cs SeparatorString) Separator = cs.
Proof.
  induction cs as [|c cs IH]; [congruence|]. intros _ H.
  inversion H as [|? ? Hc Hcs]; subst.
  destruct cs as [|c' cs].
  - cbn. now apply Split_noSep.
  - change (strings.Join (c :: c' :: cs) SeparatorString)
      with (c ++ SeparatorString ++
            strings.Join (c' :: cs) SeparatorString)%string.
    rewrite Split_app, (Split_noSep Hc), IH by (congruence || assumption).
    reflexivity.
Qed.

(** ** Paths: cleaning *)

Lemma isName_inv n :
  isName n -> n <> "" /\ n <> "." /\ n <> ".." /\ noSep n.
Proof.
  unfold isName, validName, noSep. intro H.
  repeat (apply andb_true_iff in H; destruct H as [H ?]).
  repeat match goal with
         | H : negb _ = true |- _ => apply negb_true_iff in H
         end.
  repeat split; try (apply String.eqb_neq; assumption); assumption.
Qed.

Lemma isName_intro n :
  n <> "" -> n <> "." -> n <> ".." -> noSep n -> isName n.
Proof.
  unfold isName, validName, noSep. intros H1 H2 H3 H4.
  apply String.eqb_neq in H1, H2, H3. now rewrite H1, H2, H3, H4.
Qed.

Lemma cleanStep_name r out n : isName n -> cleanStep r out n = n :: out.
Proof.
  intro H. apply isName_inv in H. destruct H as [H1 [H2 [H3 _]]].
  apply String.eqb_neq in H1, H2, H3.
  unfold cleanStep. now rewrite H1, H2, H3.
Qed.

Lemma fold_cleanStep_names r names :
  Forall isName names ->
  forall out, fold_left (cleanStep r) names out = rev names ++ out.
Proof.
  induction 1 as [|n names Hn _ IH]; intro out; [reflexivity|].
  cbn [fold_left rev]. rewrite (cleanStep_name r out Hn), IH.
  now rewrite <- app_assoc.
Qed.

Lemma fold_cleanStep_dotdots r dd :
  Forall (eq "..") dd -> (r = true -> dd = []) ->
  forall out, Forall (eq "..") out ->
              fold_left (cleanStep r) dd out = rev dd ++ out.
Proof.
  induction 1 as [|d dd Hd Hdd IH]; intros Hr out Hout; [reflexivity|].
  subst d. destruct r; [specialize (Hr eq_refl); discriminate|].
  cbn [fold_left rev].
  assert (Hs : cleanStep false out ".." = ".." :: out).
  { destruct Hout as [|t out Ht _]; [reflexivity|]. now subst t. }
  rewrite Hs, IH; [now rewrite <- app_assoc | discriminate |].
  now constructor.
Qed.

Lemma cleanElems_normal r cs : normal r cs -> cleanElems r cs = cs.
Proof.
  intros [dd [names [Hcs [Hdd [Hn Hr]]]]]. subst cs. unfold cleanElems.
  rewrite fold_left_app, (fold_cleanStep_dotdots Hdd Hr) by constructor.
  rewrite (fold_cleanStep_names r Hn).
  now rewrite app_nil_r, rev_app_distr, !rev_involutive.
Qed.

Lemma normal_noSep r cs : normal r cs -> Forall noSep cs.
Proof.
  intros [dd [names [Hcs [Hdd [Hn _]]]]]. subst cs. apply Forall_app. split.
  - eapply Forall_impl; [|exact Hdd]. intros a <-. reflexivity.
  - eapply Forall_impl; [|exact Hn]. intros a Ha. now apply isName_inv in Ha.
Qed.

Lemma normal_head r c cs :
  normal r (c :: cs) ->
  exists a s, c = String a s /\ Ascii.eqb a Separator = false.
Proof.
  intros [dd [names [Hcs [Hdd [Hn _]]]]].
  assert (Hc : c = ".." \/ isName c).
  { destruct dd as [|d dd]; cbn in Hcs.
    - destruct names as [|n names]; [discriminate|].
      inversion Hcs; subst. inversion Hn; auto.
    - inversion Hcs; subst. inversion Hdd; auto. }
  destruct Hc as [-> | Hc]; [now exists "."%char, "."|].
  apply isName_inv in Hc. destruct Hc as [H1 [_ [_ H4]]].
  destruct c as [|a s]; [congruence|]. exists a, s. split; [reflexivity|].
  unfold noSep in H4. cbn in H4. now apply orb_false_iff in H4.
Qed.

Lemma normal_app_names r cs names :
  normal r cs -> Forall isName names -> normal r (cs ++ names).
Proof.
  intros [dd [ns [Hcs [Hdd [Hn Hr]]]]] Hnames. subst cs.
  exists dd, (ns ++ names). rewrite app_assoc. repeat split; auto.
  now apply Forall_app.
Qed.

Lemma normal_nil r : normal r [].
Proof. exists [], []. repeat split; constructor. Qed.

Lemma isRooted_render r cs : normal r cs -> isRooted (render r cs) = r.
Proof.
  intro H. destruct r; [reflexivity|]. destruct cs as [|c cs]; [reflexivity|].
  destruct (normal_head H) as [a [s [-> Ha]]].
  unfold render. destruct cs; cbn; exact Ha.
Qed.

Lemma cleanElems_empty_first r es :
  cleanElems r ("" :: es) = cleanElems r es.
Proof. reflexivity. Qed.

Lemma cleanElems_render r cs :
  normal r cs ->
  cleanElems r (strings.Split (render r cs) Separator) = cs.
Proof.
  intro H. pose proof (normal_noSep H) as Hsep.
  destruct r.
  - unfold render.
    change (SeparatorString ++ strings.Join cs SeparatorString)%string
      with ("" ++ SeparatorString ++ strings.Join cs SeparatorString)%string.
    rewrite Split_app. cbn [strings.Split app].
    rewrite cleanElems_empty_first.
    destruct cs as [|c cs]; [reflexivity|].
    rewrite Split_Join by (congruence || assumption).
    now apply cleanElems_normal.
  - destruct cs as [|c cs]; [reflexivity|].
    unfold render. rewrite Split_Join by (congruence || assumption).
    now apply cleanElems_normal.
Qed.

Lemma Clean_render r cs : normal r cs -> Clean (render r cs) = render r cs.
Proof.
  intro H. unfold Clean. now rewrite (isRooted_render H), (cleanElems_render H).
Qed.

Lemma render_inj r cs cs' :
  normal r cs -> normal r cs' -> render r cs = render r cs' -> cs = cs'.
Proof.
  intros H H' Heq.
  rewrite <- (cleanElems_render H), <- (cleanElems_render H'). now rewrite Heq.
Qed.

(** The stack [Clean] builds is in normal form at every step. *)
Lemma cleanStep_normal r out e :
  noSep e -> normal r (rev out) -> normal r (rev (cleanStep r out e)).
Proof.
  intros He [dd [names [Hcs [Hdd [Hn Hr]]]]].
  unfold cleanStep.
  destruct (e =? "") eqn:H1; [now exists dd, names|].
  destruct (e =? ".") eqn:H2; [now exists dd, names|]. cbn [orb].
  destruct (e =? "..") eqn:H3.
  - apply String.eqb_eq in H3. subst e.
    destruct out as [|top rest].
    + destruct r; [apply normal_nil|].
      exists [".."], []. repeat split; try constructor; auto. discriminate.
    + cbn [rev] in Hcs.
      destruct (top =? "..") eqn:Ht.
      * apply String.eqb_eq in Ht. subst top.
        destruct names as [|n names _] using rev_ind.
        -- rewrite app_nil_r in Hcs. cbn [rev]. rewrite Hcs.
           destruct r; [specialize (Hr eq_refl); subst dd;
                        destruct (rev rest); discriminate|].
           exists (dd ++ [".."]), []. rewrite app_nil_r.
           repeat split; try constructor; try discriminate.
           apply Forall_app. split; [assumption | repeat constructor].
        -- rewrite app_assoc in Hcs. apply app_inj_tail in Hcs.
           destruct Hcs as [_ Hcs]. subst n.
           apply Forall_app in Hn. destruct Hn as [_ Hn].
           inversion Hn as [|? ? Hbad _]; subst.
           apply isName_inv in Hbad. destruct Hbad as [_ [_ [Hbad _]]].
           congruence.
      * destruct names as [|n names _] using rev_ind.
        -- rewrite app_nil_r in Hcs. rewrite <- Hcs in Hdd.
           apply Forall_app in Hdd. destruct Hdd as [_ Hdd].
           inversion Hdd as [|? ? Hbad _]; subst.
           now rewrite String.eqb_refl in Ht.
        -- rewrite app_assoc in Hcs. apply app_inj_tail in Hcs.
           destruct Hcs as [Hcs _]. rewrite Hcs.
           apply Forall_app in Hn. destruct Hn as [Hn _].
           now exists dd, names.
  - cbn [rev]. rewrite Hcs.
    apply normal_app_names; [now exists dd, names|].
    constructor; [|constructor].
    apply isName_intro; try (apply String.eqb_neq; assumption). exact He.
Qed.

Lemma fold_cleanStep_normal r es :
  Forall noSep es ->
  forall out, normal r (rev out) ->
              normal r (rev (fold_left (cleanStep r) es out)).
Proof.
  induction 1 as [|e es He _ IH]; intros out Hout; [exact Hout|].
  cbn [fold_left]. apply IH. now apply cleanStep_normal.
Qed.

Lemma Clean_normal p :
  exists cs, Clean p = render (isRooted p) cs /\ normal (isRooted p) cs.
Proof.
  exists (cleanElems (isRooted p) (strings.Split p Separator)).
  split; [reflexivity|]. unfold cleanElems.
  apply fold_cleanStep_normal; [apply Split_elements | apply normal_nil].
Qed.

(** ** Paths: joining a name and taking the directory *)

Lemma render_nonempty r cs :
  normal r cs -> exists a s, render r cs = String a s.
Proof.
  intro H. destruct r; [now exists Separator, (strings.Join cs SeparatorString)|].
  destruct cs as [|c cs]; [now exists "."%char, ""|].
  destruct (normal_head H) as [a [s [-> _]]].
  unfold render. destruct cs; cbn; eauto.
Qed.

Lemma cleanElems_snoc_name r es n :
  isName n -> cleanElems r (es ++ [n]) = cleanElems r es ++ [n].
Proof.
  intro H. unfold cleanElems. rewrite fold_left_app. cbn [fold_left].
  now rewrite (cleanStep_name r _ H).
Qed.

Lemma cleanElems_snoc_empty r es : cleanElems r (es ++ [""]) = cleanElems r es.
Proof. unfold cleanElems. now rewrite fold_left_app. Qed.

Lemma isRooted_app p q : p <> "" -> isRooted (p ++ q) = isRooted p.
Proof. destruct p; [congruence | reflexivity]. Qed.

Lemma Join_render r cs n :
  normal r cs -> isName n ->
  filepath.Join [render r cs; n] = render r (cs ++ [n]).
Proof.
  intros H Hn. destruct (render_nonempty H) as [a [s Hp]].
  cbn [filepath.Join]. rewrite Hp. cbn [String.eqb]. rewrite <- Hp.
  change (strings.Join [render r cs; n] SeparatorString)
    with (render r cs ++ SeparatorString ++ n)%string.
  unfold Clean.
  rewrite isRooted_app by (rewrite Hp; discriminate).
  rewrite (isRooted_render H), Split_app.
  apply isName_inv in Hn as Hn'. destruct Hn' as [_ [_ [_ Hsep]]].
  rewrite (Split_noSep Hsep), (cleanElems_snoc_name r _ Hn).
  now rewrite (cleanElems_render H).
Qed.

Lemma string_app_assoc (a b c : string) :
  (a ++ b ++ c)%string = ((a ++ b) ++ c)%string.
Proof. induction a as [|x a IH]; [reflexivity|]. cbn. now rewrite IH. Qed.

Lemma strings_Join_snoc cs n :
  cs <> [] ->
  strings.Join (cs ++ [n]) SeparatorString =
  (strings.Join cs SeparatorString ++ SeparatorString ++ n)%string.
Proof.
  induction cs as [|c cs IH]; [congruence|]. intros _.
  destruct cs as [|c' cs]; [reflexivity|].
  change (strings.Join ((c :: c' :: cs) ++ [n]) SeparatorString)
    with (c ++ SeparatorString ++
          strings.Join ((c' :: cs) ++ [n]) SeparatorString)%string.
  rewrite IH by congruence.
  change (strings.Join (c :: c' :: cs) SeparatorString)
    with (c ++ SeparatorString ++
          strings.Join (c' :: cs) SeparatorString)%string.
  now rewrite <- !string_app_assoc.
Qed.

Lemma uptoLastSep_noSep n : noSep n -> uptoLastSep n = "".
Proof.
  unfold noSep. destruct n as [|c n]; [reflexivity|]. cbn.
  intro H. now rewrite H.
Qed.

Lemma hasSep_app_sep y n : hasSep (y ++ SeparatorString ++ n) = true.
Proof.
  induction y as [|c y IH]; [reflexivity|]. cbn [String.append hasSep].
  rewrite IH. apply orb_true_r.
Qed.

Lemma uptoLastSep_app y n :
  noSep n ->
  uptoLastSep (y ++ SeparatorString ++ n) = (y ++ SeparatorString)%string.
Proof.
  intro H. induction y as [|c y IH].
  - cbn. now rewrite (uptoLastSep_noSep H).
  - cbn [String.append uptoLastSep].
    rewrite hasSep_app_sep, orb_true_r. now rewrite IH.
Qed.

Lemma Dir_render r cs n :
  normal r cs -> isName n -> Dir (render r (cs ++ [n])) = render r cs.
Proof.
  intros H Hn. pose proof (normal_noSep H) as Hsep.
  apply isName_inv in Hn as Hn'. destruct Hn' as [_ [_ [_ Hns]]].
  unfold Dir. destruct cs as [|c cs].
  - destruct r; cbn [app render strings.Join].
    + change (SeparatorString ++ n)%string
        with ("" ++ SeparatorString ++ n)%string.
      now rewrite (uptoLastSep_app "" Hns).
    + now rewrite (uptoLastSep_noSep Hns).
  - assert (Hr : render r ((c :: cs) ++ [n]) =
                 ((if r then SeparatorString else "") ++
                  strings.Join (c :: cs) SeparatorString ++
                  SeparatorString ++ n)%string).
    { unfold render. rewrite strings_Join_snoc by congruence.
      destruct r; [reflexivity|]. now destruct cs. }
    rewrite Hr, string_app_assoc, uptoLastSep_app by assumption.
    unfold Clean.
    assert (Hroot : isRooted
                      (((if r then SeparatorString else "") ++
                        strings.Join (c :: cs) SeparatorString) ++
                       SeparatorString) = r).
    { destruct r; [reflexivity|].
      destruct (normal_head H) as [a [s [-> Ha]]].
      destruct cs; cbn; exact Ha. }
    rewrite Hroot.
    replace (((if r then SeparatorString else "") ++
              strings.Join (c :: cs) SeparatorString) ++ SeparatorString)%string
      with (render r (c :: cs) ++ SeparatorString ++ "")%string
      by (unfold render; destruct r; reflexivity).
    rewrite Split_app. cbn [strings.Split].
    now rewrite cleanElems_snoc_empty, (cleanElems_render H).
Qed.

(** ** Paths: the relative path between two paths with a common front *)

Lemma strings_Join_head r c cs :
  normal r (c :: cs) ->
  exists a s, strings.Join (c :: cs) SeparatorString = String a s /\
              Ascii.eqb a Separator = false.
Proof.
  intro H. destruct (normal_head H) as [a [s [-> Ha]]].
  destruct cs; cbn; eauto.
Qed.

Lemma render_not_dot r c cs : normal r (c :: cs) -> render r (c :: cs) <> ".".
Proof.
  intros H Heq. destruct r.
  - unfold render in Heq. discriminate Heq.
  - assert (Hnil : c :: cs = []); [|discriminate Hnil].
    apply (render_inj H (normal_nil false)). exact Heq.
Qed.

Lemma relElems_sep s :
  relElems (String Separator s) =
  if s =? "" then [] else strings.Split s Separator.
Proof. reflexivity. Qed.

Lemma relElems_nosep a s :
  Ascii.eqb a Separator = false ->
  relElems (String a s) = strings.Split (String a s) Separator.
Proof. intro H. unfold relElems. now rewrite H. Qed.

Lemma relElems_render_nonempty r c cs :
  normal r (c :: cs) -> relElems (render r (c :: cs)) = c :: cs.
Proof.
  intro H. pose proof (normal_noSep H) as Hsep.
  destruct (strings_Join_head H) as [a [s [Hj Ha]]].
  destruct r.
  - unfold render. change (SeparatorString ++ ?x)%string
      with (String Separator x).
    rewrite relElems_sep, Hj. cbn [String.eqb]. rewrite <- Hj.
    apply Split_Join; [congruence | assumption].
  - assert (Hr : render false (c :: cs) = strings.Join (c :: cs) SeparatorString)
      by reflexivity.
    rewrite Hr, Hj, (@relElems_nosep a s Ha), <- Hj.
    apply Split_Join; [congruence | assumption].
Qed.

Lemma relElems_render_base r cs :
  normal r cs ->
  relElems (if render r cs =? "." then "" else render r cs) = cs.
Proof.
  intro H. destruct cs as [|c cs].
  - destruct r; reflexivity.
  - pose proof (render_not_dot H) as Hd. apply String.eqb_neq in Hd.
    rewrite Hd. now apply relElems_render_nonempty.
Qed.

Lemma relElems_render_targ r cs :
  normal r cs -> relElems (render r cs) = targElems r cs.
Proof.
  intro H. destruct cs as [|c cs].
  - destruct r; reflexivity.
  - now apply relElems_render_nonempty.
Qed.

Lemma dropCommon_app p e t : dropCommon (p ++ e) (p ++ t) = dropCommon e t.
Proof.
  induction p as [|c p IH]; [reflexivity|]. cbn.
  now rewrite String.eqb_refl.
Qed.

Lemma dropCommon_diverge e t : diverge e t -> dropCommon e t = (e, t).
Proof.
  destruct e as [|h e], t as [|n t]; try reflexivity.
  cbn. intro H. apply String.eqb_neq in H. now rewrite H.
Qed.

Lemma dotdots_app a b : dotdots (a ++ b) = dotdots a + dotdots b.
Proof. unfold dotdots. now rewrite filter_app, length_app. Qed.

Lemma dotdots_ups (e : list string) :
  dotdots (map (fun _ => "..") e) = length e.
Proof.
  induction e as [|h e IH]; [reflexivity|].
  unfold dotdots in *. cbn. now f_equal.
Qed.

Lemma dotdots_none t : Forall (fun c => c <> "..") t -> dotdots t = 0.
Proof.
  induction 1 as [|c t Hc _ IH]; [reflexivity|].
  unfold dotdots in *. cbn. apply String.eqb_neq in Hc. now rewrite Hc.
Qed.

(** From [p/e] to [p/t]: one [..] for each element of [e]. *)
Lemma Rel_render r p e t :
  normal r p -> Forall isName e -> Forall isName t -> diverge e t ->
  exists rel,
    Rel (render r (p ++ e)) (render r (p ++ t)) = Ok rel /\
    dotdots (strings.Split rel Separator) = length e.
Proof.
  intros Hp He Ht Hd.
  pose proof (normal_app_names Hp He) as Hpe.
  pose proof (normal_app_names Hp Ht) as Hpt.
  unfold Rel. rewrite (Clean_render Hpe), (Clean_render Hpt).
  destruct (render r (p ++ t) =? render r (p ++ e)) eqn:Heq.
  - apply String.eqb_eq in Heq. apply (render_inj Hpt Hpe) in Heq.
    apply app_inv_head in Heq. subst t.
    destruct e as [|h e]; [now exists "."|]. cbn in Hd. congruence.
  - apply String.eqb_neq in Heq.
    assert (Hroot : isRooted (if render r (p ++ e) =? "." then ""
                              else render r (p ++ e)) = r).
    { destruct (render r (p ++ e) =? ".") eqn:Hdot;
        [|now apply isRooted_render].
      apply String.eqb_eq in Hdot.
      rewrite <- (isRooted_render Hpe), Hdot. reflexivity. }
    rewrite Hroot, (isRooted_render Hpt), Bool.eqb_reflx. cbn [negb].
    rewrite (relElems_render_base Hpe), (relElems_render_targ Hpt).
    (* the elements of the target after the common front *)
    assert (Ht' : exists t',
               targElems r (p ++ t) = p ++ t' /\ diverge e t' /\
               Forall noSep t' /\ Forall (fun c => c <> "..") t' /\
               (e = [] -> t' <> [])).
    { destruct (p ++ t) as [|c l] eqn:Hl.
      - apply app_eq_nil in Hl. destruct Hl as [-> ->].
        destruct r.
        + exists []. repeat split; auto.
          intros ->. now elim Heq.
        + exists ["."]. repeat split; try (repeat constructor; discriminate).
          destruct e as [|h e]; [exact I|]. inversion He; subst.
          cbn. now apply isName_inv.
      - exists t. cbn [targElems]. rewrite <- Hl. repeat split; auto.
        + eapply Forall_impl; [|exact Ht]. intros a Ha.
          apply isName_inv in Ha. tauto.
        + eapply Forall_impl; [|exact Ht]. intros a Ha.
          apply isName_inv in Ha. tauto.
        + intros -> ->. apply Heq. now rewrite <- Hl. }
    destruct Ht' as [t' [Hte [Hd' [Hsep' [Hnd' Hne']]]]].
    rewrite Hte, dropCommon_app, (dropCommon_diverge _ _ Hd').
    destruct e as [|h e].
    + eexists. split; [reflexivity|].
      rewrite Split_Join by auto. now apply dotdots_none.
    + inversion He as [|? ? Hh He']; subst.
      apply isName_inv in Hh as Hh'. destruct Hh' as [_ [_ [Hh' _]]].
      apply String.eqb_neq in Hh'. rewrite Hh'. cbn [andb].
      eexists. split; [reflexivity|].
      rewrite Split_Join.
      * rewrite dotdots_app, (dotdots_ups (h :: e)), (dotdots_none Hnd').
        apply Nat.add_0_r.
      * discriminate.
      * apply Forall_app. split; [|assumption].
        apply Forall_map. apply Forall_forall. intros; reflexivity.
Qed.

(** ** The walker: runs of the sink operations *)

Lemma runsTo_bind A B (c : M A) (k : A -> M B) w a l1 w1 b l2 w2 :
  runsTo c w a l1 w1 -> runsTo (k a) w1 b l2 w2 ->
  runsTo (bind c k) w b (l1 ++ l2) w2.
Proof.
  intros [Hc [_ Ht1]] [Hk [Hg Ht2]]. repeat split; try apply Hg.
  - unfold bind. now rewrite Hc.
  - now rewrite Ht2, Ht1, app_assoc.
Qed.

Lemma runsTo_ret A (a : A) w : good w -> runsTo (ret a) w a [] w.
Proof. intro H. repeat split; try apply H. now rewrite app_nil_r. Qed.

Lemma runsTo_emit ev w : good w -> runsTo (emit ev) w tt [ev] (addEvent ev w).
Proof. intro H. repeat split; apply H. Qed.

Lemma runsTo_call E ev w :
  quiet E -> good w -> runsTo (call E ev) w tt [ev] (addEvent ev w).
Proof.
  intros Hq H. repeat split; try apply H. now apply call_ok.
Qed.

Lemma runsTo_sessionIO w :
  good w ->
  runsTo sessionIO w tt []
         (mkWorld (stream w) (trace w) (closed w) (S (ticks w)) (watcher w)).
Proof.
  intros [Hc Hw]. split; [|split].
  - run_M. rewrite Hw. cbn. rewrite Hc. now rewrite ?Hw.
  - split; assumption.
  - cbn. now rewrite app_nil_r.
Qed.

Lemma runsTo_sinkOp E ev w :
  quiet E -> good w ->
  exists w', runsTo (sessionIO ;; call E ev) w tt [ev] w'.
Proof.
  intros Hq Hg. eexists.
  change [ev] with ([] ++ [ev]).
  eapply runsTo_bind; [now apply runsTo_sessionIO|].
  apply runsTo_call; [assumption|]. exact Hg.
Qed.

Lemma repeat_snoc A (x : A) n : repeat x (S n) = repeat x n ++ [x].
Proof. induction n as [|n IH]; [reflexivity|]. cbn in *. now rewrite <- IH. Qed.

Lemma endDirectoriesLoop_runs E :
  quiet E ->
  forall comps skipped w,
    good w ->
    exists w',
      runsTo (endDirectoriesLoop E comps skipped) w
             (skipped && (dotdots comps =? 0)%nat)
             (repeat EvEndDirectory (dotdots comps - (if skipped then 1 else 0)))
             w'.
Proof.
  intro Hq. induction comps as [|c comps IH]; intros skipped w Hg.
  - exists w. cbn. rewrite andb_true_r. now apply runsTo_ret.
  - cbn [endDirectoriesLoop]. unfold dotdots in *. cbn [filter].
    destruct (c =? "..") eqn:Hc.
    + cbn [length]. rewrite andb_false_r. destruct skipped.
      * destruct (IH false w Hg) as [w' Hr]. exists w'.
        rewrite Nat.sub_0_r in Hr. cbn [Nat.sub]. rewrite Nat.sub_0_r.
        exact Hr.
      * destruct (runsTo_sinkOp EvEndDirectory Hq Hg) as [w1 H1].
        destruct H1 as [H1 [Hg1 Ht1]].
        destruct (IH false w1 Hg1) as [w' Hr]. exists w'.
        rewrite Nat.sub_0_r in *.
        change (repeat EvEndDirectory (S ?n))
          with ([EvEndDirectory] ++ repeat EvEndDirectory n).
        eapply runsTo_bind; [|exact Hr].
        split; [exact H1 | split; [exact Hg1 | exact Ht1]].
    + apply IH. exact Hg.
Qed.

(** Going from [p/e] to [p/t] closes the directories of [e], but for the
    one that was skipped. *)
Lemma endDirectories_runs E r p e t skipped w :
  quiet E -> good w ->
  normal r p -> Forall isName e -> Forall isName t -> diverge e t ->
  (skipped = true -> e <> []) ->
  exists w',
    runsTo (endDirectories E (render r (p ++ e)) (render r (p ++ t)) skipped)
           w false (repeat EvEndDirectory (pend e skipped)) w'.
Proof.
  intros Hq Hg Hp He Ht Hd Hs.
  destruct (Rel_render Hp He Ht Hd) as [rel [Hrel Hdd]].
  unfold endDirectories. rewrite Hrel.
  destruct (endDirectoriesLoop_runs Hq (strings.Split rel Separator) skipped Hg)
    as [w' Hr].
  exists w'. rewrite Hdd in Hr. unfold pend.
  replace (skipped && (length e =? 0)%nat) with false in Hr; [exact Hr|].
  destruct skipped; [|reflexivity].
  destruct e; [now elim (Hs eq_refl) | reflexivity].
Qed.

(** ** The walker: one entry *)

Lemma sinkOps_app a b : sinkOps (a ++ b) = sinkOps a ++ sinkOps b.
Proof. apply filter_app. Qed.

Lemma sinkOps_ends k :
  sinkOps (repeat EvEndDirectory k) = repeat EvEndDirectory k.
Proof. induction k as [|k IH]; [reflexivity|]. cbn. now f_equal. Qed.

Lemma accepts_total f p i : total f -> f p i = Ok (accepts f p i).
Proof. intro H. unfold accepts. destruct (H p i) as [b ->]. reflexivity. Qed.

Lemma myWalkFn_file E f r p n e skipped info w :
  quiet E -> total f -> good w ->
  normal r p -> isName n -> Forall isName e -> (skipped = true -> e <> []) ->
  exists l w',
    runsTo (myWalkFn E f (render r (p ++ [n])) info false
                     (mkSd skipped (render r (p ++ e))))
           w (false, mkSd false (render r p)) l w' /\
    sinkOps l = repeat EvEndDirectory (pend e skipped) ++
                nestedOps f (render r (p ++ [n])) (fileNode info).
Proof.
  intros Hq Hf Hg Hp Hn He Hs.
  unfold myWalkFn. cbn [prevDir prevDirSkipped nestedOps].
  rewrite (Dir_render Hp Hn).
  assert (Hd : diverge e []) by (now destruct e).
  destruct (@endDirectories_runs E r p e [] skipped w Hq Hg Hp He
              (Forall_nil _) Hd Hs) as [w1 H1].
  rewrite app_nil_r in H1.
  rewrite (accepts_total (render r p) info Hf).
  pose proof H1 as [_ [Hg1 _]].
  destruct (accepts f (render r p) info).
  - destruct (runsTo_sinkOp (EvWriteFile info) Hq
                (w := addEvent (EvOpen (render r (p ++ [n])))
                        (addEvent (EvAccept (render r p) info) w1)))
      as [w2 H2]; [apply Hg1|].
    do 2 eexists. split.
    + eapply runsTo_bind; [exact H1|].
      eapply runsTo_bind; [apply runsTo_emit, Hg1|].
      eapply runsTo_bind; [apply runsTo_call; [exact Hq | apply Hg1]|].
      eapply runsTo_bind; [exact H2|].
      apply runsTo_ret. apply H2.
    + rewrite !sinkOps_app, sinkOps_ends. reflexivity.
  - do 2 eexists. split.
    + eapply runsTo_bind; [exact H1|].
      eapply runsTo_bind; [apply runsTo_emit, Hg1|].
      apply runsTo_ret. apply Hg1.
    + rewrite !sinkOps_app, sinkOps_ends. reflexivity.
Qed.

Lemma myWalkFn_dir E f r p t e skipped info w :
  quiet E -> total f -> good w ->
  normal r p -> Forall isName t -> Forall isName e -> diverge e t ->
  (skipped = true -> e <> []) ->
  let path := render r (p ++ t) in
  let acc := accepts f (Dir path) info in
  exists l w',
    runsTo (myWalkFn E f path info true (mkSd skipped (render r (p ++ e))))
           w (negb acc, mkSd (negb acc) path) l w' /\
    sinkOps l = repeat EvEndDirectory (pend e skipped) ++
                (if acc then [EvStartDirectory info] else []).
Proof.
  intros Hq Hf Hg Hp Ht He Hd Hs path acc.
  unfold myWalkFn. cbn [prevDir prevDirSkipped].
  destruct (@endDirectories_runs E r p e t skipped w Hq Hg Hp He Ht Hd Hs)
    as [w1 H1].
  fold path. rewrite (accepts_total (Dir path) info Hf). fold acc.
  pose proof H1 as [_ [Hg1 _]].
  destruct acc; cbn [negb].
  - destruct (runsTo_sinkOp (EvStartDirectory info) Hq
                (w := addEvent (EvAccept (Dir path) info) w1))
      as [w2 H2]; [apply Hg1|].
    do 2 eexists. split.
    + eapply runsTo_bind; [exact H1|].
      eapply runsTo_bind; [apply runsTo_emit, Hg1|].
      eapply runsTo_bind; [exact H2|].
      apply runsTo_ret. apply H2.
    + rewrite !sinkOps_app, sinkOps_ends. reflexivity.
  - do 2 eexists. split.
    + eapply runsTo_bind; [exact H1|].
      eapply runsTo_bind; [apply runsTo_emit, Hg1|].
      apply runsTo_ret. apply Hg1.
    + rewrite !sinkOps_app, sinkOps_ends. reflexivity.
Qed.

(** ** The walker: a whole tree *)

Lemma node_induction (P : node -> Prop) :
  (forall info, P (fileNode info)) ->
  (forall info es, Forall P es -> P (dirNode info es)) ->
  forall n, P n.
Proof.
  intros Hf Hd.
  refine (fix IH (n : node) : P n :=
            match n with
            | fileNode info => Hf info
            | dirNode info es =>
                Hd info es
                   ((fix all (l : list node) : Forall P l :=
                       match l with
                       | [] => Forall_nil P
                       | x :: l' => Forall_cons x (IH x) (all l')
                       end) es)
            end).
Qed.

Lemma bind_ext A B (c : M A) (k k' : A -> M B) w :
  (forall a w', k a w' = k' a w') -> bind c k w = bind c k' w.
Proof. intro H. unfold bind. destruct (c w) as [[a|e] w1]; auto. Qed.

Lemma walk_dir_eq E f path info es st w :
  walk E f path (dirNode info es) st w =
  (r <- myWalkFn E f path info true st ;;
   if fst r then ret r else walkEntries E f path es (snd r)) w.
Proof.
  cbn [walk]. apply bind_ext. intros r w1.
  destruct (fst r); [reflexivity|].
  generalize (snd r) w1. clear.
  induction es as [|x es IH]; intros st w; [reflexivity|].
  cbn [walkEntries]. apply bind_ext. intros r w1.
  destruct (fst r && negb (nodeIsDir x)); [reflexivity | apply IH].
Qed.

Lemma nestedOps_dir_eq f path info es :
  nestedOps f path (dirNode info es) =
  if accepts f (Dir path) info
  then EvStartDirectory info :: nestedEach f path es ++ [EvEndDirectory]
  else [].
Proof.
  cbn [nestedOps]. destruct (accepts f (Dir path) info); [|reflexivity].
  do 2 f_equal. induction es as [|x es IH]; [reflexivity|].
  cbn [nestedEach]. now rewrite IH.
Qed.

Lemma wfNode_dir info es :
  wfNode (dirNode info es) = true ->
  Forall (fun x => isName (nodeName x)) es /\
  distinct (map nodeName es) = true /\
  Forall (fun x => wfNode x = true) es.
Proof.
  cbn [wfNode]. intro H.
  apply andb_true_iff in H. destruct H as [H H3].
  apply andb_true_iff in H. destruct H as [H1 H2].
  split; [|split].
  - apply Forall_forall. intros x Hx.
    rewrite forallb_forall in H1. now apply H1.
  - exact H2.
  - clear H1 H2. induction es as [|x es IH]; [constructor|].
    apply andb_true_iff in H3. destruct H3 as [Hx Hes].
    constructor; [exact Hx | now apply IH].
Qed.

Lemma distinct_cons a l :
  distinct (a :: l) = true ->
  (forall y, In y l -> a <> y) /\ distinct l = true.
Proof.
  cbn [distinct]. intro H. apply andb_true_iff in H. destruct H as [H1 H2].
  split; [|exact H2]. intros y Hy Heq. subst y.
  apply negb_true_iff in H1.
  assert (Ht : existsb (String.eqb a) l = true);
    [|rewrite Ht in H1; discriminate H1].
  apply existsb_exists. exists a. split; [exact Hy | apply String.eqb_refl].
Qed.

Lemma pend_cons n e skipped :
  (skipped = true -> e <> []) ->
  pend (n :: e) skipped = S (pend e skipped).
Proof.
  unfold pend. intro H. destruct skipped; cbn [length]; [|lia].
  destruct e; [now elim (H eq_refl) | cbn; lia].
Qed.

Lemma walkEntries_spec E f es :
  quiet E -> total f ->
  Forall (walkSpec E f) es ->
  forall r p e skipped w,
    good w -> normal r p ->
    Forall (fun x => isName (nodeName x)) es ->
    distinct (map nodeName es) = true ->
    Forall (fun x => wfNode x = true) es ->
    Forall isName e ->
    (forall x, In x es -> diverge e [nodeName x]) ->
    (skipped = true -> e <> []) ->
    exists e' skipped' l w',
      runsTo (walkEntries E f (render r p) es
                          (mkSd skipped (render r (p ++ e))))
             w (false, mkSd skipped' (render r (p ++ e'))) l w' /\
      Forall isName e' /\
      (skipped' = true -> e' <> []) /\
      sinkOps l ++ repeat EvEndDirectory (pend e' skipped') =
      repeat EvEndDirectory (pend e skipped) ++
      nestedEach f (render r p) es.
Proof.
  intros Hq Hf. induction 1 as [|x es Hx _ IH];
    intros r p e skipped w Hg Hp Hnames Hdist Hwf He Hdiv Hs.
  - exists e, skipped, [], w. split; [now apply runsTo_ret|].
    repeat split; auto. cbn. now rewrite app_nil_r.
  - inversion Hnames as [|? ? Hnx Hnes]; subst.
    inversion Hwf as [|? ? Hwx Hwes]; subst.
    cbn [map] in Hdist. apply distinct_cons in Hdist.
    destruct Hdist as [Hfresh Hdist].
    destruct (Hx r p e skipped w Hg Hp Hnx Hwx He
                 (Hdiv x (or_introl eq_refl)) Hs)
      as [skip [e1 [s1 [l1 [w1 [H1 [Hskip [He1 [Hs1 [Hhead Hops1]]]]]]]]]].
    pose proof H1 as [_ [Hg1 _]].
    assert (Hdiv1 : forall y, In y es -> diverge e1 [nodeName y]).
    { intros y Hy. destruct Hhead as [-> | [tl ->]]; [exact I|].
      cbn. apply Hfresh. now apply in_map. }
    destruct (IH r p e1 s1 w1 Hg1 Hp Hnes Hdist Hwes He1 Hdiv1 Hs1)
      as [e2 [s2 [l2 [w2 [H2 [He2 [Hs2 Hops2]]]]]]].
    exists e2, s2, (l1 ++ l2), w2. split; [|split; [|split]]; auto.
    + cbn [walkEntries]. fold (nodeName x).
      rewrite (Join_render Hp Hnx).
      eapply runsTo_bind; [exact H1|]. cbn [fst snd].
      destruct skip; cbn [andb]; [|exact H2].
      rewrite (Hskip eq_refl). exact H2.
    + cbn [nestedEach]. fold (nodeName x).
      rewrite (Join_render Hp Hnx).
      rewrite sinkOps_app, <- app_assoc, Hops2, !app_assoc. f_equal.
      exact Hops1.
Qed.

Lemma walk_spec E f : quiet E -> total f -> forall x, walkSpec E f x.
Proof.
  intros Hq Hf. apply node_induction.
  - intros info r p e skipped w Hg Hp Hn _ He Hd Hs.
    unfold nodeName in *. cbn [nodeInfo] in *.
    destruct (@myWalkFn_file E f r p (Name info) e skipped info w
                Hq Hf Hg Hp Hn He Hs) as [l [w' [H Hops]]].
    exists false, [], false, l, w'. rewrite app_nil_r.
    split; [exact H|]. repeat split; auto; try discriminate.
    cbn. now rewrite app_nil_r.
  - intros info es Hes r p e skipped w Hg Hp Hn Hwf He Hd Hs.
    unfold nodeName in *. cbn [nodeInfo] in *.
    set (n := Name info) in *.
    apply wfNode_dir in Hwf. destruct Hwf as [Hnames [Hdist Hwfs]].
    assert (Hnl : Forall isName [n]) by (repeat constructor; exact Hn).
    destruct (@myWalkFn_dir E f r p [n] e skipped info w
                Hq Hf Hg Hp Hnl He Hd Hs) as [l1 [w1 [H1 Hops1]]].
    cbv zeta in H1, Hops1.
    pose proof H1 as [_ [Hg1 _]].
    rewrite nestedOps_dir_eq.
    destruct (accepts f (Dir (render r (p ++ [n]))) info); cbn [negb] in H1.
    + pose proof (normal_app_names Hp Hnl) as Hp'.
      assert (Hdiv : forall x, In x es -> diverge [] [nodeName x])
        by (intros; exact I).
      assert (Hs0 : false = true -> @nil string <> []) by discriminate.
      destruct (@walkEntries_spec E f es Hq Hf Hes r (p ++ [n]) [] false w1
                  Hg1 Hp' Hnames Hdist Hwfs (Forall_nil _) Hdiv Hs0)
        as [e2 [s2 [l2 [w2 [H2 [He2 [Hs2 Hops2]]]]]]].
      rewrite app_nil_r in H2. rewrite <- app_assoc in H2. cbn [app] in H2.
      exists false, (n :: e2), s2, (l1 ++ l2), w2.
      split; [|split; [|split; [|split; [|split]]]].
      * split; [|split; [apply H2 | ]].
        -- rewrite walk_dir_eq.
           erewrite bind_ok by apply H1. cbn [fst snd]. apply H2.
        -- destruct H1 as [_ [_ Ht1]]. destruct H2 as [_ [_ Ht2]].
           now rewrite Ht2, Ht1, app_assoc.
      * discriminate.
      * now constructor.
      * intros _. discriminate.
      * right. now exists e2.
      * rewrite (pend_cons n Hs2), repeat_snoc.
        rewrite sinkOps_app, Hops1. cbn [pend length Nat.sub] in Hops2.
        cbn [repeat app] in Hops2.
        rewrite <- !app_assoc. f_equal. cbn [app]. f_equal.
        rewrite app_assoc. now rewrite Hops2.
    + exists true, [n], true, l1, w1.
      split; [|split; [|split; [|split; [|split]]]].
      * split; [|split; [apply H1 | apply H1]].
        rewrite walk_dir_eq. erewrite bind_ok by apply H1. reflexivity.
      * reflexivity.
      * exact Hnl.
      * discriminate.
      * right. now exists [].
      * cbn. rewrite Hops1. now rewrite !app_nil_r.
Qed.

(** ** The walker: the whole of [SendDir] *)

Lemma endDirectoriesLoop_none E comps skipped :
  dotdots comps = 0 -> endDirectoriesLoop E comps skipped = ret skipped.
Proof.
  unfold dotdots. induction comps as [|c comps IH]; [reflexivity|].
  cbn [filter endDirectoriesLoop].
  destruct (c =? ".."); [discriminate | exact IH].
Qed.

Lemma endDirectories_same E r p skipped w :
  good w -> normal r p ->
  runsTo (endDirectories E (render r p) (render r p) skipped) w skipped [] w.
Proof.
  intros Hg Hp.
  destruct (@Rel_render r p [] [] Hp (Forall_nil _) (Forall_nil _) I)
    as [rel [Hrel Hdd]].
  rewrite app_nil_r in Hrel. unfold endDirectories. rewrite Hrel.
  rewrite (endDirectoriesLoop_none E _ skipped Hdd).
  now apply runsTo_ret.
Qed.

Lemma countStarts_app a b : countStarts (a ++ b) = countStarts a + countStarts b.
Proof. unfold countStarts. now rewrite filter_app, length_app. Qed.

Lemma countEnds_app a b : countEnds (a ++ b) = countEnds a + countEnds b.
Proof. unfold countEnds. now rewrite filter_app, length_app. Qed.

(** The nested form has as many end markers as start markers. *)
Lemma nestedOps_balanced f : forall x path, balanced (nestedOps f path x).
Proof.
  unfold balanced. apply (@node_induction
    (fun x => forall path, countStarts (nestedOps f path x) =
                           countEnds (nestedOps f path x))).
  - intros info path. cbn. now destruct (accepts f (Dir path) info).
  - intros info es Hes path. rewrite nestedOps_dir_eq.
    destruct (accepts f (Dir path) info); [|reflexivity].
    change (EvStartDirectory info :: nestedEach f path es ++ [EvEndDirectory])
      with ([EvStartDirectory info] ++ nestedEach f path es ++ [EvEndDirectory]).
    rewrite !countStarts_app, !countEnds_app.
    assert (Heach : countStarts (nestedEach f path es) =
                    countEnds (nestedEach f path es)).
    { induction Hes as [|x es Hx _ IH]; [reflexivity|].
      cbn [nestedEach]. rewrite countStarts_app, countEnds_app.
      now rewrite Hx, IH. }
    rewrite Heach. cbn. lia.
Qed.

Lemma newSinkSession_ok E p d scp r u w :
  quiet E -> good w ->
  runsTo (newSinkSession E p d scp r u) w tt
         [EvNewSession; EvStdoutPipe; EvStdinPipe;
          EvStart (sinkCommand E p d scp r u)]
         (addEvent (EvStart (sinkCommand E p d scp r u))
            (addEvent EvStdinPipe
               (addEvent EvStdoutPipe (addEvent EvNewSession w)))).
Proof.
  intros Hq Hg. split; [|split].
  - unfold newSinkSession.
    erewrite bind_ok by (apply call_ok, Hq).
    erewrite bind_ok; [|now rewrite call_ok by apply Hq].
    erewrite bind_ok; [|now rewrite call_ok by apply Hq].
    now rewrite call_ok by apply Hq.
  - exact Hg.
  - cbn. now rewrite <- !app_assoc.
Qed.

Lemma runSinkSession_runs E p d scp r u (handler : M unit) w l w2 :
  quiet E -> good w ->
  runsTo handler
         (addEvent (EvStart (sinkCommand E p d scp r u))
            (addEvent EvStdinPipe
               (addEvent EvStdoutPipe (addEvent EvNewSession w))))
         tt l w2 ->
  fst (runSinkSession E p d scp r u handler w) = Ok tt /\
  trace (snd (runSinkSession E p d scp r u handler w)) =
  trace w ++ [EvNewSession; EvStdoutPipe; EvStdinPipe;
              EvStart (sinkCommand E p d scp r u)] ++ l ++
             [EvCloseStdin; EvWait; EvClose].
Proof.
  intros Hq Hg Hr.
  destruct (newSinkSession_ok p d scp r u Hq Hg) as [Hn [Hg1 Ht1]].
  destruct Hr as [Hr [Hg2 Ht2]].
  assert (Hrun : runSinkSession E p d scp r u handler w =
                 (Ok tt, snd (sessionClose
                                (addEvent EvWait (addEvent EvCloseStdin w2))))).
  { unfold runSinkSession, sessionWait.
    erewrite bind_ok by exact Hn.
    unfold defer at 1.
    erewrite bind_ok by (apply defer_emit, Hr).
    now rewrite call_ok by apply Hq. }
  rewrite Hrun. split; [reflexivity|].
  cbn [fst snd sessionClose trace addEvent].
  rewrite Ht2. cbn [trace addEvent]. now rewrite <- !app_assoc.
Qed.

Lemma sendDirHandler_runs E f root srcDir w :
  quiet E -> total f -> good w ->
  nodeIsDir root = true -> wfNode root = true ->
  let R := Clean srcDir in
  exists l w',
    runsTo (st <- Walk E f R (Ok root) (mkSd false R) ;;
            endDirectories E (prevDir st) R (prevDirSkipped st) ;;
            ret tt) w tt l w' /\
    if accepts f (Dir R) (nodeInfo root)
    then sinkOps l ++ [EvEndDirectory] = nestedOps f R root
    else sinkOps l = [].
Proof.
  intros Hq Hf Hg Hdir Hwf R.
  destruct root as [info|info es]; [discriminate Hdir|]. clear Hdir.
  destruct (Clean_normal srcDir) as [cs [HR Hcs]]. fold R in HR.
  set (r := isRooted srcDir) in *.
  assert (HR' : R = render r (cs ++ [])) by now rewrite app_nil_r.
  apply wfNode_dir in Hwf. destruct Hwf as [Hnames [Hdist Hwfs]].
  assert (Hs0 : false = true -> @nil string <> []) by discriminate.
  destruct (@myWalkFn_dir E f r cs [] [] false info w Hq Hf Hg Hcs
              (Forall_nil _) (Forall_nil _) I Hs0) as [l1 [w1 [H1 Hops1]]].
  cbv zeta in H1, Hops1. rewrite <- HR' in H1, Hops1.
  pose proof H1 as [H1e [Hg1 Ht1]].
  cbn [nodeInfo]. rewrite nestedOps_dir_eq.
  destruct (accepts f (Dir R) info); cbn [negb] in *.
  - assert (Hdiv : forall x, In x es -> diverge [] [nodeName x])
      by (intros; exact I).
    destruct (@walkEntries_spec E f es Hq Hf
                (proj2 (Forall_forall _ _) (fun x _ => walk_spec Hq Hf x))
                r cs [] false w1 Hg1 Hcs Hnames Hdist Hwfs (Forall_nil _)
                Hdiv Hs0)
      as [e2 [s2 [l2 [w2 [H2 [He2 [Hs2 Hops2]]]]]]].
    rewrite <- HR', <- HR in H2.
    pose proof H2 as [H2e [Hg2 Ht2]].
    assert (Hd2 : diverge e2 []) by (now destruct e2).
    destruct (@endDirectories_runs E r cs e2 [] s2 w2 Hq Hg2 Hcs He2
                (Forall_nil _) Hd2 Hs2) as [w3 H3].
    rewrite <- HR' in H3.
    exists ((l1 ++ l2) ++ repeat EvEndDirectory (pend e2 s2) ++ []), w3. split.
    + eapply runsTo_bind with (a := mkSd s2 (render r (cs ++ e2))) (w1 := w2).
      * unfold Walk. split; [|split; [exact Hg2|]].
        -- erewrite bind_ok
             by (rewrite walk_dir_eq; erewrite bind_ok by exact H1e;
                 cbn [fst snd]; exact H2e).
           reflexivity.
        -- now rewrite Ht2, Ht1, app_assoc.
      * cbn [prevDir prevDirSkipped].
        eapply runsTo_bind; [exact H3|]. apply runsTo_ret. apply H3.
    + rewrite !sinkOps_app, sinkOps_ends, Hops1.
      rewrite <- HR in Hops2.
      cbn [pend length Nat.sub repeat app] in Hops2. rewrite <- Hops2.
      cbn [sinkOps filter pend length Nat.sub repeat app].
      now rewrite app_nil_r.
  - exists (l1 ++ [] ++ []), w1. split.
    + eapply runsTo_bind with (a := mkSd true R) (w1 := w1).
      * unfold Walk. split; [|split; [exact Hg1 | exact Ht1]].
        erewrite bind_ok
          by (rewrite walk_dir_eq; erewrite bind_ok by exact H1e;
              reflexivity).
        reflexivity.
      * cbn [prevDir prevDirSkipped]. rewrite HR.
        eapply runsTo_bind; [apply endDirectories_same; assumption|].
        now apply runsTo_ret.
    + rewrite !app_nil_r, Hops1. reflexivity.
Qed.

(** For a source that is a regular file the walker goes from the file to
    its directory before it sends the file. *)
Lemma SendDir_file_root E s info srcDir destDir f w r p n :
  quiet E -> good w -> total (filterOrAny f) ->
  Clean srcDir = render r (p ++ [n]) -> normal r p -> isName n ->
  let run := SendDir E s (Ok (fileNode info)) srcDir destDir f w in
  fst run = Ok tt /\
  exists l,
    trace (snd run) = trace w ++ l /\
    sinkOps l =
    EvEndDirectory ::
    (if accepts (filterOrAny f) (Dir (Clean srcDir)) info
     then [EvWriteFile info] else []).
Proof.
  intros Hq Hg Hf HR Hp Hn run. subst run. unfold SendDir. rewrite HR.
  set (dest := realPath E (Clean destDir)).
  set (g := filterOrAny f) in *.
  assert (Hnl : Forall isName [n]) by (repeat constructor; exact Hn).
  assert (Hs0 : false = true -> [n] <> []) by discriminate.
  assert (Hs1 : false = true -> @nil string <> []) by discriminate.
  destruct (newSinkSession_ok dest false "" true true Hq Hg) as [_ [Hg1 _]].
  destruct (@myWalkFn_file E g r p n [n] false info _ Hq Hf Hg1 Hp Hn Hnl Hs0)
    as [l1 [w2 [H1 Hops1]]].
  pose proof H1 as [_ [Hg2 _]].
  destruct (@endDirectories_runs E r p [] [n] false w2 Hq Hg2 Hp
              (Forall_nil _) Hnl I Hs1) as [w3 H3].
  rewrite app_nil_r in H3. cbn [pend length Nat.sub repeat] in H3.
  assert (Hh : runsTo
            (st <- Walk E g (render r (p ++ [n])) (Ok (fileNode info))
                        (mkSd false (render r (p ++ [n]))) ;;
             endDirectories E (prevDir st) (render r (p ++ [n]))
                            (prevDirSkipped st) ;;
             ret tt)
            (addEvent (EvStart (sinkCommand E dest false "" true true))
               (addEvent EvStdinPipe
                  (addEvent EvStdoutPipe (addEvent EvNewSession w))))
            tt ((l1 ++ []) ++ [] ++ []) w3).
  { eapply runsTo_bind with (a := mkSd false (render r p)) (w1 := w2).
    - unfold Walk. cbn [walk].
      eapply runsTo_bind; [exact H1|]. cbn [snd]. apply runsTo_ret. exact Hg2.
    - cbn [prevDir prevDirSkipped].
      eapply runsTo_bind; [exact H3|]. apply runsTo_ret. apply H3. }
  destruct (@runSinkSession_runs E dest false "" true true _ w _ w3 Hq Hg Hh)
    as [Hok Htr].
  split; [exact Hok|].
  eexists. split; [exact Htr|].
  rewrite !app_nil_r, !sinkOps_app, Hops1.
  cbn [pend length Nat.sub repeat app nestedOps].
  change (sinkOps [EvNewSession; EvStdoutPipe; EvStdinPipe;
                   EvStart (sinkCommand E dest false "" true true)])
    with (@nil event).
  change (sinkOps [EvCloseStdin; EvWait; EvClose]) with (@nil event).
  cbn [app]. now rewrite app_nil_r.
Qed.

(** C4, as the code has it. When nothing fails, going from one visited
    entry to the next sends one end marker for each level left, but for the
    level of a directory that was rejected. For a source that is a
    directory, the messages of a whole [SendDir], followed by one more end
    marker, are the nested form of the tree: every directory below the root
    is closed, rejected directories send nothing, and the start marker of
    the root stays open, one start marker more than end markers; a rejected
    root directory sends nothing. For a source that is a regular file
    [SendDir] sends one end marker, which no start marker opened, and then
    the file if the filter accepts it. *)
Theorem SendDir_nesting E s root srcDir destDir f w :
  quiet E -> good w -> total (filterOrAny f) -> wfNode root = true ->
  (nodeIsDir root = false ->
   exists r p n,
     Clean srcDir = render r (p ++ [n]) /\ normal r p /\ isName n) ->
  let R := Clean srcDir in
  let run := SendDir E s (Ok root) srcDir destDir f w in
  (forall r p e t skipped w1,
     good w1 -> normal r p -> Forall isName e -> Forall isName t ->
     diverge e t -> (skipped = true -> e <> []) ->
     exists w2,
       runsTo (endDirectories E (render r (p ++ e)) (render r (p ++ t))
                              skipped)
              w1 false
              (repeat EvEndDirectory
                      (length e - (if skipped then 1 else 0))) w2) /\
  fst run = Ok tt /\
  exists l,
    trace (snd run) = trace w ++ l /\
    match root with
    | dirNode _ _ =>
        if accepts (filterOrAny f) (Dir R) (nodeInfo root)
        then sinkOps l ++ [EvEndDirectory] = nestedOps (filterOrAny f) R root /\
             countStarts (sinkOps l) = S (countEnds (sinkOps l))
        else sinkOps l = []
    | fileNode _ =>
        sinkOps l = EvEndDirectory :: nestedOps (filterOrAny f) R root /\
        countStarts (sinkOps l) = 0 /\ countEnds (sinkOps l) = 1
    end.
Proof.
  intros Hq Hg Hf Hwf Hfile R run. split.
  { intros r p e t skipped w1 Hg1 Hp He Ht Hd Hs.
    now apply endDirectories_runs. }
  destruct root as [info|info es].
  { destruct (Hfile eq_refl) as [r [p [n [HR [Hp Hn]]]]].
    destruct (@SendDir_file_root E s info srcDir destDir f w r p n
                Hq Hg Hf HR Hp Hn) as [Hok [l [Ht Hops]]].
    split; [exact Hok|]. exists l. split; [exact Ht|].
    fold R in Hops. cbn [nestedOps]. rewrite Hops.
    split; [reflexivity|].
    destruct (accepts (filterOrAny f) (Dir R) info); split; reflexivity. }
  assert (Hdir : nodeIsDir (dirNode info es) = true) by reflexivity.
  set (root := dirNode info es) in *.
  subst run. unfold SendDir. fold R.
  set (dest := realPath E (Clean destDir)).
  destruct (newSinkSession_ok dest false "" true true Hq Hg) as [_ [Hg1 _]].
  destruct (@sendDirHandler_runs E (filterOrAny f) root srcDir _
              Hq Hf Hg1 Hdir Hwf) as [l [w2 [Hr Hops]]].
  fold R in Hr, Hops.
  destruct (@runSinkSession_runs E dest false "" true true _ w l w2 Hq Hg Hr)
    as [Hok Htr].
  split; [exact Hok|].
  eexists. split; [exact Htr|].
  assert (Hl : sinkOps ([EvNewSession; EvStdoutPipe; EvStdinPipe;
                         EvStart (sinkCommand E dest false "" true true)] ++
                        l ++ [EvCloseStdin; EvWait; EvClose]) = sinkOps l).
  { rewrite !sinkOps_app. cbn. now rewrite app_nil_r. }
  rewrite Hl.
  destruct (accepts (filterOrAny f) (Dir R) (nodeInfo root)); [|exact Hops].
  split; [exact Hops|].
  pose proof (nestedOps_balanced (filterOrAny f) root R) as Hb.
  unfold balanced in Hb. rewrite <- Hops in Hb.
  rewrite countStarts_app, countEnds_app in Hb. cbn in Hb. lia.
Qed.

Lemma SendDir_nesting_witness :
  (quiet quietEnv /\ good (initWorld []) /\ total (filterOrAny None) /\
   wfNode sampleTree = true /\
   (nodeIsDir sampleTree = false ->
    exists r p n,
      Clean "/x/root" = render r (p ++ [n]) /\ normal r p /\ isName n)) /\
  fst (SendDir quietEnv background (Ok sampleTree) "/x/root" "/remote" None
               (initWorld [])) = Ok tt.
Proof.
  assert (H1 : quiet quietEnv) by (intro ev; reflexivity).
  assert (H2 : good (initWorld [])) by (split; reflexivity).
  assert (H3 : total (filterOrAny None))
    by (intros p i; exists true; reflexivity).
  assert (H4 : wfNode sampleTree = true) by reflexivity.
  assert (H5 : nodeIsDir sampleTree = false ->
               exists r p n,
                 Clean "/x/root" = render r (p ++ [n]) /\ normal r p /\
                 isName n) by (intro H; discriminate H).
  split; [auto 10|].
  exact (proj1 (proj2 (@SendDir_nesting quietEnv background sampleTree
                         "/x/root" "/remote" None (initWorld [])
                         H1 H2 H3 H4 H5))).
Defined.

Lemma SendDir_root_left_open :
  let ops := sinkOps (trace (snd (SendDir quietEnv background (Ok sampleTree)
                                    "/x/root" "/remote" None (initWorld [])))) in
  ~ balanced ops /\ countStarts ops = 4 /\ countEnds ops = 3.
Proof.
  cbv zeta. split; [|split; reflexivity].
  unfold balanced. intro H. vm_compute in H. discriminate H.
Qed.

Example SendDir_sample_run :
  sinkOps (trace (snd (SendDir quietEnv background (Ok sampleTree) "/x/root"
                               "/remote" (Some (rejectNamed "b"))
                               (initWorld []))))
  = [EvStartDirectory (dirInfo "root"); EvStartDirectory (dirInfo "a");
     EvWriteFile (regInfo "f"); EvEndDirectory;
     EvStartDirectory (dirInfo "c"); EvEndDirectory;
     EvWriteFile (regInfo "g")].
Proof. reflexivity. Qed.

(** ** The test [isSubdirectory] makes at the end of a rejected directory *)



(** ** The path functions on the examples of their documentation *)

Example Clean_examples :
  map filepath.Clean ["a/c"; "a//c"; "a/c/."; "a/c/b/.."; "/../a/c";
                      "/../a/b/../././/c"; ""; "/"; "../../x/"; "a/.."]
  = ["a/c"; "a/c"; "a/c"; "a/c"; "/a/c"; "/a/c"; "."; "/"; "../../x"; "."].
Proof. reflexivity. Qed.

Example Dir_examples :
  map filepath.Dir ["/foo/bar/baz.js"; "/foo/bar/baz"; "/foo/bar/baz/";
                    "/dirty//path///"; "dev.txt"; "../todo.txt"; ".."; ".";
                    "/"; ""; "/dest"]
  = ["/foo/bar"; "/foo/bar"; "/foo/bar/baz"; "/dirty/path"; "."; ".."; ".";
     "."; "/"; "."; "/"].
Proof. reflexivity. Qed.

Example Base_examples :
  map filepath.Base ["/foo/bar/baz.js"; "/foo/bar/baz"; "/foo/bar/baz/";
                     "dev.txt"; "../todo.txt"; ".."; "."; "/"; ""]
  = ["baz.js"; "baz"; "baz"; "dev.txt"; "todo.txt"; ".."; "."; "/"; "."].
Proof. reflexivity. Qed.

Example Join_examples :
  map filepath.Join [["a"; "b"; "c"]; ["a"; "b/c"]; ["a/b"; "c"];
                     ["a/b"; "/c"]; ["a/b"; "../../../xyz"]; [""; ""];
                     ["a"; ""]; [""; "a"]; ["/"; "a"]]
  = ["a/b/c"; "a/b/c"; "a/b/c"; "a/b/c"; "../xyz"; ""; "a"; "a"; "/a"].
Proof. reflexivity. Qed.

Example Rel_examples :
  map (fun bt => filepath.Rel (fst bt) (snd bt))
      [("/a", "/a/b/c"); ("/a", "/b/c"); ("a/b", "a/b"); ("ab/cd", "ab/cde");
       ("a/b/c/d", "a/b"); ("/a/b/c", "/a/c/d"); (".", "a/b"); (".", "..");
       ("/", "/a/b"); ("/a/b", "/")]
  = [Ok "b/c"; Ok "../b/c"; Ok "."; Ok "../cde"; Ok "../.."; Ok "../../c/d";
     Ok "a/b"; Ok ".."; Ok "a/b"; Ok "../.."].
Proof. reflexivity. Qed.

(** * Further properties of the code *)

(** ** [isSubdirectory] *)

Lemma Rel_exact r p e t :
  normal r p -> Forall isName e -> Forall isName t -> diverge e t ->
  r = true \/ p ++ t <> [] ->
  Rel (render r (p ++ e)) (render r (p ++ t)) = Ok (relPath e t).
Proof.
  intros Hp He Ht Hd Hnz.
  pose proof (normal_app_names Hp He) as Hpe.
  pose proof (normal_app_names Hp Ht) as Hpt.
  unfold Rel. rewrite (Clean_render Hpe), (Clean_render Hpt).
  destruct (render r (p ++ t) =? render r (p ++ e)) eqn:Heq.
  - apply String.eqb_eq in Heq. apply (render_inj Hpt Hpe) in Heq.
    apply app_inv_head in Heq. subst t.
    destruct e as [|h e]; [reflexivity|]. cbn in Hd. congruence.
  - apply String.eqb_neq in Heq.
    assert (Hroot : isRooted (if render r (p ++ e) =? "." then ""
                              else render r (p ++ e)) = r).
    { destruct (render r (p ++ e) =? ".") eqn:Hdot;
        [|now apply isRooted_render].
      apply String.eqb_eq in Hdot.
      rewrite <- (isRooted_render Hpe), Hdot. reflexivity. }
    rewrite Hroot, (isRooted_render Hpt), Bool.eqb_reflx. cbn [negb].
    rewrite (relElems_render_base Hpe), (relElems_render_targ Hpt).
    assert (Hte : targElems r (p ++ t) = p ++ t).
    { destruct (p ++ t) as [|c l] eqn:Hl; [|reflexivity].
      destruct Hnz as [-> | Hnz]; [reflexivity | congruence]. }
    rewrite Hte, dropCommon_app, (dropCommon_diverge _ _ Hd).
    destruct e as [|h e].
    + destruct t as [|n t]; [|reflexivity]. now elim Heq.
    + inversion He as [|? ? Hh He']; subst.
      apply isName_inv in Hh. destruct Hh as [_ [_ [Hh _]]].
      apply String.eqb_neq in Hh. rewrite Hh. reflexivity.
Qed.

Lemma HasPrefix_name n rest :
  isName n -> strings.HasPrefix (n ++ rest) "../" = false.
Proof.
  intro H. apply isName_inv in H. destruct H as [H1 [H2 [H3 H4]]].
  unfold strings.HasPrefix, noSep in *.
  destruct n as [|a n]; [congruence|]. cbn [String.append String.prefix].
  destruct (ascii_dec "."%char a) as [<-|]; [|reflexivity].
  destruct n as [|b n]; [congruence|]. cbn [String.append String.prefix].
  destruct (ascii_dec "."%char b) as [<-|]; [|reflexivity].
  destruct n as [|c n]; [congruence|]. cbn [String.append String.prefix].
  destruct (ascii_dec "/"%char c) as [<-|]; [|reflexivity].
  cbn in H4. discriminate H4.
Qed.

Lemma strings_Join_cons n t :
  exists rest, strings.Join (n :: t) SeparatorString = (n ++ rest)%string.
Proof.
  destruct t as [|m t].
  - exists "". cbn. clear. induction n as [|a n IH]; [reflexivity|].
    cbn. now rewrite <- IH.
  - now exists (SeparatorString ++ strings.Join (m :: t) SeparatorString)%string.
Qed.

Lemma isSubdirectory_exact r p e t :
  normal r p -> Forall isName e -> Forall isName t -> diverge e t ->
  r = true \/ p ++ t <> [] ->
  isSubdirectory (render r (p ++ e)) (render r (p ++ t)) =
  Ok (subdirectoryAnswer e t).
Proof.
  intros Hp He Ht Hd Hnz. unfold isSubdirectory.
  rewrite (Rel_exact Hp He Ht Hd Hnz). f_equal.
  destruct e as [|h e].
  - destruct t as [|n t]; [reflexivity|].
    inversion Ht as [|? ? Hn _]; subst. cbn [relPath map app].
    destruct (strings_Join_cons n t) as [rest ->].
    change (".." ++ SeparatorString)%string with "../".
    now rewrite (HasPrefix_name rest Hn).
  - assert (Hnil : forall s, String.prefix "" s = true) by (now destruct s).
    destruct e as [|h2 e].
    + destruct t as [|n t]; [reflexivity|]. cbn. now rewrite Hnil.
    + cbn. now rewrite Hnil.
Qed.

(** X1. For a base [p/e] and a target [p/t] that part after [p],
    [isSubdirectory] answers yes exactly when the target is the base or lies
    below it, or is the direct parent of the base; it answers no for a
    target that branches off and for one two or more levels above. *)
Theorem isSubdirectory_answer r p e t :
  normal r p -> Forall isName e -> Forall isName t -> diverge e t ->
  r = true \/ p ++ t <> [] ->
  isSubdirectory (render r (p ++ e)) (render r (p ++ t)) =
  Ok (subdirectoryAnswer e t).
Proof. apply isSubdirectory_exact. Qed.

Lemma isSubdirectory_answer_witness :
  (normal true ["dest"] /\ Forall isName ["a"; "b"] /\ Forall isName ["c"] /\
   diverge ["a"; "b"] ["c"] /\ (true = true \/ ["dest"] ++ ["c"] <> [])) /\
  isSubdirectory "/dest/a/b" "/dest/c" = Ok false.
Proof.
  assert (H1 : normal true ["dest"]).
  { exists [], ["dest"]. repeat split; repeat constructor. }
  assert (H2 : Forall isName ["a"; "b"]) by (repeat constructor).
  assert (H3 : Forall isName ["c"]) by (repeat constructor).
  assert (H4 : diverge ["a"; "b"] ["c"]) by (cbn; discriminate).
  assert (H5 : true = true \/ ["dest"] ++ ["c"] <> []) by (now left).
  split; [auto|].
  exact (isSubdirectory_answer H1 H2 H3 H4 H5).
Defined.

(** ** The directory reconstructor inside a rejected directory *)

Lemma bind_ret_state A (c : M A) (st st' : rdState) w w' :
  (c ;; ret st) w = (Ok st', w') -> st' = st.
Proof.
  unfold bind, ret. destruct (c w) as [[a|e] w1]; intro H; now inversion H.
Qed.

(** X2. While a rejected directory is being skipped ([skipBaseDir] is set)
    no header makes the loop of [ReceiveDir] create, open or change anything
    on the local file system, and the filter is not asked: the only calls
    are the reads of file bodies into [ioutil.Discard]. The skip is left
    only by an end-of-directory header. *)
Theorem skipped_entries_touch_nothing E f skips h st :
  skipBaseDir st <> "" ->
  traceAll skipEvent (onHeader E f skips h st) /\
  (forall w st' w',
     h <> endDirectoryMsg ->
     onHeader E f skips h st w = (Ok st', w') ->
     skipBaseDir st' = skipBaseDir st).
Proof.
  intro Hs. apply String.eqb_neq in Hs. split.
  - destruct h as [t|d| |fh|]; cbn [onHeader]; try apply traceAll_ret.
    + unfold onStartDirectory.
      destruct (_ && _); [apply traceAll_ret|].
      rewrite Hs. apply traceAll_ret.
    + unfold onEndDirectory. apply traceAll_bind.
      * destruct (timeHeaders st); [apply traceAll_ret|].
        rewrite Hs. apply traceAll_ret.
      * intro st1. destruct (negb _); [|apply traceAll_ret].
        apply traceAll_bind.
        -- destruct (Dir (curDir st1) =? ""); [apply traceAll_ret|].
           destruct (isSubdirectory _ _);
             [apply traceAll_ret | apply traceAll_throw].
        -- intro sub. destruct (negb sub); apply traceAll_ret.
    + unfold onFile. rewrite Hs.
      apply traceAll_bind; [|intro; apply traceAll_ret].
      apply traceAll_CopyFileBodyTo; [exact I | exact I | intro; exact I].
  - intros w st' w' Hh H.
    destruct h as [t|d| |fh|]; cbn [onHeader] in H.
    + inversion H; reflexivity.
    + unfold onStartDirectory in H.
      destruct (_ && _); [inversion H; reflexivity|].
      rewrite Hs in H. inversion H; reflexivity.
    + now contradiction Hh.
    + unfold onFile in H. rewrite Hs in H.
      apply bind_ret_state in H. now subst.
    + inversion H; reflexivity.
Qed.

Lemma skipped_entries_touch_nothing_witness :
  let st := mkRd "/dest/a/b" zeroTime [zeroTime; zeroTime] false "/dest/a/b" in
  skipBaseDir st <> "" /\
  traceAll skipEvent
    (onHeader quietEnv (rejectNamed "b") false (fileMsg (hdrC "x" 2)) st).
Proof.
  intro st.
  assert (H : skipBaseDir st <> "") by discriminate.
  split; [exact H|].
  exact (proj1 (@skipped_entries_touch_nothing quietEnv (rejectNamed "b")
                  false (fileMsg (hdrC "x" 2)) st H)).
Defined.

(** ** The directory reconstructor: a directory from start to end *)

Lemma last_snoc A (l : list A) (a d : A) : last (l ++ [a]) d = a.
Proof.
  induction l as [|x l IH]; [reflexivity|].
  cbn [app last]. destruct (l ++ [a]) eqn:Hl; [|exact IH].
  now destruct l.
Qed.

Lemma removelast_snoc A (l : list A) (a : A) : removelast (l ++ [a]) = l.
Proof.
  induction l as [|x l IH]; [reflexivity|].
  cbn [app removelast]. destruct (l ++ [a]) eqn:Hl; [now destruct l|].
  now rewrite IH.
Qed.

(** X3. A directory from its start header to its end header, when the
    filter accepts it and no call fails: the filter is asked with the
    current directory as parent, the directory is created below the current
    directory and given its mode, and at the end header its times are set
    from the time header that came before the start header, whatever time
    header came in between. The loop is then where it was before the
    directory. *)
Theorem directory_round_trip E f skips dh t' st r p w :
  curDir st = render r p -> normal r p -> isName (dhName dh) ->
  skipBaseDir st = "" ->
  isFirstStartDirectory st && skips = false ->
  let dir := render r (p ++ [dhName dh]) in
  let th := timeHeader st in
  let info := NewFileInfo (dhName dh) 0 (N.lor (dhMode dh) ModeDir)
                          (Mtime th) (Atime th) in
  f (curDir st) info = Ok true ->
  osErr E (EvMkdirAll dir (dhMode dh)) = None ->
  osErr E (EvChmod dir (dhMode dh)) = None ->
  osErr E (EvChtimes dir (Atime th) (Mtime th)) = None ->
  (st1 <- onStartDirectory E f skips dh st ;;
   st2 <- onHeader E f skips (timeMsg t') st1 ;;
   onEndDirectory E st2) w =
  (Ok (mkRd (curDir st) th (timeHeaders st) false ""),
   addEvent (EvChtimes dir (Atime th) (Mtime th))
     (addEvent (EvChmod dir (dhMode dh))
        (addEvent (EvMkdirAll dir (dhMode dh))
           (addEvent (EvAccept (curDir st) info) w)))).
Proof.
  intros Hcur Hp Hn Hskip Hfirst dir th info Hf Hm Hc Ht.
  assert (Hjoin : filepath.Join [curDir st; dhName dh] = dir).
  { rewrite Hcur. now apply Join_render. }
  assert (Hdir : Dir dir = curDir st).
  { rewrite Hcur. now apply Dir_render. }
  assert (Hstart : onStartDirectory E f skips dh st w =
            (Ok (mkRd dir th (timeHeaders st ++ [th]) false ""),
             addEvent (EvChmod dir (dhMode dh))
               (addEvent (EvMkdirAll dir (dhMode dh))
                  (addEvent (EvAccept (curDir st) info) w)))).
  { unfold onStartDirectory. rewrite Hfirst, Hskip, Hjoin, Hdir.
    cbn [String.eqb negb]. fold th info.
    erewrite bind_ok by reflexivity. rewrite Hf.
    erewrite bind_ok by (apply wrap_ok, call_ok, Hm).
    erewrite bind_ok by (apply wrap_ok, call_ok, Hc).
    reflexivity. }
  erewrite bind_ok by exact Hstart.
  cbn [onHeader curDir timeHeaders isFirstStartDirectory skipBaseDir].
  erewrite bind_ok by reflexivity.
  unfold onEndDirectory.
  cbn [curDir timeHeaders timeHeader isFirstStartDirectory skipBaseDir].
  rewrite last_snoc, removelast_snoc.
  destruct (timeHeaders st ++ [th]) eqn:Hl;
    [now destruct (timeHeaders st)|]. clear Hl.
  cbn [String.eqb].
  erewrite bind_ok
    by (erewrite bind_ok by (apply wrap_ok, call_ok, Ht); reflexivity).
  cbn [curDir timeHeaders timeHeader isFirstStartDirectory skipBaseDir
       String.eqb negb].
  now rewrite Hdir.
Qed.

Lemma directory_round_trip_witness :
  let st := mkRd "/dest" {| Mtime := 5; Atime := 6 |} [] false "" in
  let dh := {| dhMode := 493; dhName := "a" |} in
  let t' := {| Mtime := 7; Atime := 8 |} in
  let info := NewFileInfo "a" 0 (N.lor 493 ModeDir) 5 6 in
  (curDir st = render true ["dest"] /\ normal true ["dest"] /\
   isName (dhName dh) /\ skipBaseDir st = "" /\
   isFirstStartDirectory st && false = false /\
   acceptAny (curDir st) info = Ok true /\
   osErr quietEnv (EvMkdirAll "/dest/a" 493) = None /\
   osErr quietEnv (EvChmod "/dest/a" 493) = None /\
   osErr quietEnv (EvChtimes "/dest/a" 6 5) = None) /\
  (st1 <- onStartDirectory quietEnv acceptAny false dh st ;;
   st2 <- onHeader quietEnv acceptAny false (timeMsg t') st1 ;;
   onEndDirectory quietEnv st2) (initWorld []) =
  (Ok st,
   addEvent (EvChtimes "/dest/a" 6 5)
     (addEvent (EvChmod "/dest/a" 493)
        (addEvent (EvMkdirAll "/dest/a" 493)
           (addEvent (EvAccept "/dest" info) (initWorld []))))).
Proof.
  intros st dh t' info.
  assert (H1 : curDir st = render true ["dest"]) by reflexivity.
  assert (H2 : normal true ["dest"]).
  { exists [], ["dest"]. repeat split; repeat constructor. }
  assert (H3 : isName (dhName dh)) by reflexivity.
  assert (H4 : skipBaseDir st = "") by reflexivity.
  assert (H5 : isFirstStartDirectory st && false = false) by reflexivity.
  assert (H6 : acceptAny (curDir st) info = Ok true) by reflexivity.
  assert (H7 : osErr quietEnv (EvMkdirAll "/dest/a" 493) = None)
    by reflexivity.
  assert (H8 : osErr quietEnv (EvChmod "/dest/a" 493) = None) by reflexivity.
  assert (H9 : osErr quietEnv (EvChtimes "/dest/a" 6 5) = None)
    by reflexivity.
  split; [repeat split; assumption|].
  exact (@directory_round_trip quietEnv acceptAny false dh t' st true ["dest"]
           (initWorld []) H1 H2 H3 H4 H5 H6 H7 H8 H9).
Defined.

(** ** What the events of a whole run of [ReceiveDir] have in common *)

Lemma bind_Ok_inv A B (c : M A) (k : A -> M B) w b w' :
  bind c k w = (Ok b, w') ->
  exists a w1, c w = (Ok a, w1) /\ k a w1 = (Ok b, w').
Proof.
  unfold bind. destruct (c w) as [[a|e] w1]; intro H; [|discriminate H].
  now exists a, w1.
Qed.

Lemma wrap_Ok_inv A pre (c : M A) w a w' :
  wrap pre c w = (Ok a, w') -> c w = (Ok a, w').
Proof.
  unfold wrap. destruct (c w) as [[a'|e] w1]; intro H;
    [exact H | discriminate H].
Qed.

Section TraceSeg.
Variable Q : list event -> Prop.
Hypothesis Q_nil : Q [].
Hypothesis Q_app : forall a b, Q a -> Q b -> Q (a ++ b).

Lemma traceSeg_ret A (a : A) : traceSeg Q (ret a).
Proof. intro w. exists []. now rewrite app_nil_r. Qed.

Lemma traceSeg_throw A e : traceSeg Q (@throw A e).
Proof. intro w. exists []. now rewrite app_nil_r. Qed.

Lemma traceSeg_bind A B (c : M A) (k : A -> M B) :
  traceSeg Q c -> (forall a, traceSeg Q (k a)) -> traceSeg Q (bind c k).
Proof.
  intros Hc Hk w. unfold bind. destruct (Hc w) as [l1 [H1 F1]].
  destruct (c w) as [[a|e] w1]; cbn [snd] in *; [|now exists l1].
  destruct (Hk a w1) as [l2 [H2 F2]].
  exists (l1 ++ l2). split; [now rewrite H2, H1, app_assoc | now apply Q_app].
Qed.

Lemma traceSeg_wrap A pre (c : M A) : traceSeg Q c -> traceSeg Q (wrap pre c).
Proof.
  intros Hc w. unfold wrap. destruct (Hc w) as [l [H F]].
  destruct (c w) as [[a|e] w1]; now exists l.
Qed.

Lemma traceSeg_defer A (d : M unit) (c : M A) :
  traceSeg Q d -> traceSeg Q c -> traceSeg Q (defer d c).
Proof.
  intros Hd Hc w. unfold defer. destruct (Hc w) as [l1 [H1 F1]].
  destruct (c w) as [r w1]; cbn [snd] in *.
  destruct (Hd w1) as [l2 [H2 F2]].
  exists (l1 ++ l2). split; [now rewrite H2, H1, app_assoc | now apply Q_app].
Qed.

Lemma traceSeg_of_all (P : event -> Prop) A (c : M A) :
  (forall ev, P ev -> Q [ev]) -> traceAll P c -> traceSeg Q c.
Proof.
  intros HP Hc w. destruct (Hc w) as [l [H F]]. exists l. split; [exact H|].
  clear H. induction F as [|ev l Hev _ IH]; [exact Q_nil|].
  change (ev :: l) with ([ev] ++ l). apply Q_app; auto.
Qed.

Variable E : env.
Variable acceptFn : AcceptFunc.
Variable skips : bool.

(** The state of the loop stays within [Inv]. *)
Variable Inv : rdState -> Prop.
Hypothesis Inv_kept :
  forall h st w st' w',
    Inv st -> onHeader E acceptFn skips h st w = (Ok st', w') -> Inv st'.

Hypothesis Q_plain : forall ev, plainEvent ev -> Q [ev].
Hypothesis Q_copy :
  forall name th fh, traceSeg Q (copyFileBodyFromRemote E name th fh).
Hypothesis Q_discard :
  forall st fh, Inv st -> skipBaseDir st <> "" ->
                traceSeg Q (CopyFileBodyTo fh Discard).

Lemma traceSeg_plain A (c : M A) : traceAll plainEvent c -> traceSeg Q c.
Proof. apply traceSeg_of_all. exact Q_plain. Qed.

Lemma onHeader_seg h st : Inv st -> traceSeg Q (onHeader E acceptFn skips h st).
Proof.
  intro Hinv. destruct h as [t|d| |fh|]; cbn [onHeader];
    try apply traceSeg_ret.
  - apply traceSeg_plain. unfold onStartDirectory.
    destruct (_ && _); [apply traceAll_ret|].
    destruct (negb _); [apply traceAll_ret|].
    apply traceAll_bind; [apply traceAll_emit; exact I|]. intros _.
    destruct (acceptFn _ _) as [[|]|e];
      [|apply traceAll_ret | apply traceAll_throw].
    repeat first
      [ apply traceAll_ret
      | apply traceAll_wrap
      | apply traceAll_call; exact I
      | apply traceAll_bind; [|intro] ].
  - apply traceSeg_plain. unfold onEndDirectory. apply traceAll_bind.
    + destruct (timeHeaders st); [apply traceAll_ret|].
      destruct (skipBaseDir st =? ""); [|apply traceAll_ret].
      apply traceAll_bind; [|intro; apply traceAll_ret].
      apply traceAll_wrap, traceAll_call. exact I.
    + intro st1. destruct (negb _); [|apply traceAll_ret].
      apply traceAll_bind.
      * destruct (Dir (curDir st1) =? ""); [apply traceAll_ret|].
        destruct (isSubdirectory _ _);
          [apply traceAll_ret | apply traceAll_throw].
      * intro sub. destruct (negb sub); apply traceAll_ret.
  - unfold onFile. destruct (skipBaseDir st =? "") eqn:Hs.
    + apply traceSeg_bind;
        [apply traceSeg_plain, traceAll_emit; exact I|]. intros _.
      destruct (acceptFn _ _) as [[|]|e];
        [|apply traceSeg_ret | apply traceSeg_throw].
      apply traceSeg_bind; [apply Q_copy | intro; apply traceSeg_ret].
    + apply String.eqb_neq in Hs.
      apply traceSeg_bind; [|intro; apply traceSeg_ret].
      now apply Q_discard with (st := st).
Qed.

Lemma receiveLoop_seg :
  forall fuel st w r,
    Inv st -> receiveLoop fuel E acceptFn skips st w = Some r ->
    exists l, trace (snd r) = trace w ++ l /\ Q l.
Proof.
  assert (HR : traceSeg Q ReadHeaderOrReply)
    by (apply traceSeg_plain, traceAll_ReadHeaderOrReply; exact I).
  induction fuel as [|fuel IH]; intros st w r Hinv H; [discriminate H|].
  simpl in H. destruct (HR w) as [l1 [H1 Q1]].
  destruct (ReadHeaderOrReply w) as [[h|e] w1]; cbn [snd] in *.
  - destruct (onHeader_seg h Hinv w1) as [l2 [H2 Q2]].
    destruct (onHeader E acceptFn skips h st w1) as [[st'|e] w2] eqn:Hon;
      cbn [snd] in *.
    + apply IH in H; [|exact (@Inv_kept h st w1 st' w2 Hinv Hon)].
      destruct H as [l3 [H3 Q3]]. exists (l1 ++ l2 ++ l3).
      split; [now rewrite H3, H2, H1, <- !app_assoc | auto].
    + inversion H; subst; cbn [snd]. exists (l1 ++ l2).
      split; [now rewrite H2, H1, app_assoc | auto].
  - destruct e; inversion H; subst; cbn [snd]; now exists l1.
Qed.

Lemma receiveDirHandler_seg dest :
  Inv (rdInit dest) -> traceSeg Q (receiveDirHandler E acceptFn skips dest).
Proof.
  intros Hinv w. unfold receiveDirHandler.
  destruct (receiveLoop _ E acceptFn skips (rdInit dest) w) as [r|] eqn:H.
  - now apply receiveLoop_seg in H.
  - exists []. now rewrite app_nil_r.
Qed.

Lemma runResourceSession_seg c p d scp r u (handler : M unit) :
  traceSeg Q handler ->
  traceSeg Q (runResourceSession E c p d scp r u handler).
Proof.
  intro Hh. unfold runResourceSession, sessionWait.
  apply traceSeg_bind.
  { apply traceSeg_plain, traceAll_newResourceSession;
      try exact I; intro; exact I. }
  intros _. apply traceSeg_defer.
  { apply traceSeg_plain, traceAll_sessionClose. exact I. }
  apply traceSeg_bind.
  { apply traceSeg_plain, traceAll_goWatch. intro; exact I. }
  intros _. apply traceSeg_bind; [exact Hh|]. intros _.
  apply traceSeg_plain, traceAll_call. exact I.
Qed.

End TraceSeg.

Lemma ReceiveDir_seg (Q : list event -> Prop) (Inv : rdState -> Prop)
    E s src dest f :
  Q [] -> (forall a b, Q a -> Q b -> Q (a ++ b)) ->
  (forall skips h st w st' w',
     Inv st -> onHeader E (filterOrAny f) skips h st w = (Ok st', w') ->
     Inv st') ->
  (forall ev, plainEvent ev -> Q [ev]) ->
  (forall name th fh, traceSeg Q (copyFileBodyFromRemote E name th fh)) ->
  (forall st fh, Inv st -> skipBaseDir st <> "" ->
                 traceSeg Q (CopyFileBodyTo fh Discard)) ->
  Inv (rdInit (Clean dest)) ->
  traceSeg Q (ReceiveDir E s src dest f).
Proof.
  intros Qn Qa Hkept Qp Qc Qd Hinit. unfold ReceiveDir.
  apply traceSeg_bind; [exact Qa | |].
  { eapply traceSeg_plain; eauto. apply traceAll_emit. exact I. }
  intros _. apply traceSeg_bind; [exact Qa | |].
  { eapply traceSeg_plain; eauto.
    destruct (osStat E (Clean dest)) as [fi|e]; [apply traceAll_ret|].
    destruct (negb _); [apply traceAll_throw|].
    apply traceAll_bind; [|intro; apply traceAll_ret].
    apply traceAll_wrap, traceAll_call. exact I. }
  intro skips. apply runResourceSession_seg; auto.
  apply receiveDirHandler_seg with (Inv := Inv); auto.
  intros h st w st' w'. apply Hkept.
Qed.

(** ** [ReceiveDir] discards a body only after a directory was rejected *)

Lemma IsDir_dirMode n size m mt atime :
  IsDir (NewFileInfo n size (N.lor m ModeDir) mt atime) = true.
Proof.
  unfold IsDir. cbn [Mode]. apply negb_true_iff, N.eqb_neq. intro H.
  rewrite N.land_lor_distr_l in H. apply N.lor_eq_0_iff in H.
  destruct H as [_ H]. rewrite N.land_diag in H. discriminate H.
Qed.

Lemma skip_stays_empty E f skips h st w st' w' :
  keepsDirectories f -> skipBaseDir st = "" ->
  onHeader E f skips h st w = (Ok st', w') -> skipBaseDir st' = "".
Proof.
  intros Hkeep Hs H. destruct h as [t|d| |fh|]; cbn [onHeader] in H.
  - inversion H; exact Hs.
  - unfold onStartDirectory in H.
    destruct (_ && _); [inversion H; exact Hs|].
    rewrite Hs in H. cbn [String.eqb negb] in H.
    apply bind_Ok_inv in H as [u [w1 [_ H]]].
    destruct (f _ _) as [[|]|e] eqn:Hf.
    + apply bind_Ok_inv in H as [u1 [w2 [_ H]]].
      apply bind_Ok_inv in H as [u2 [w3 [_ H]]].
      inversion H; reflexivity.
    + exfalso. exact (Hkeep _ _ (IsDir_dirMode _ _ _ _ _) Hf).
    + discriminate H.
  - unfold onEndDirectory in H.
    apply bind_Ok_inv in H as [st1 [w1 [H1 H]]].
    assert (Hs1 : skipBaseDir st1 = "").
    { destruct (timeHeaders st); [inversion H1; subst; exact Hs|].
      rewrite Hs in H1. cbn [String.eqb] in H1.
      apply bind_Ok_inv in H1 as [u [w2 [_ H1]]].
      inversion H1; reflexivity. }
    rewrite Hs1 in H. cbn [String.eqb negb] in H.
    inversion H; reflexivity.
  - unfold onFile in H. rewrite Hs in H. cbn [String.eqb] in H.
    apply bind_Ok_inv in H as [u [w1 [_ H]]].
    destruct (f _ _) as [[|]|e].
    + apply bind_ret_state in H. now subst.
    + inversion H; subst; exact Hs.
    + discriminate H.
  - inversion H; subst; exact Hs.
Qed.

(** X4. With a filter that rejects no directory, and so with no filter at
    all, [ReceiveDir] never reads a file body into [ioutil.Discard],
    whatever the remote sends and whatever fails: a body is discarded only
    inside a directory the filter rejected. *)
Theorem ReceiveDir_discards_only_after_rejection E s src dest f :
  keepsDirectories (filterOrAny f) ->
  traceAll (fun ev => isDiscard ev = false) (ReceiveDir E s src dest f).
Proof.
  intro Hkeep.
  apply (@ReceiveDir_seg (Forall (fun ev => isDiscard ev = false))
           (fun st => skipBaseDir st = "")).
  - constructor.
  - intros a b Ha Hb. apply Forall_app. now split.
  - intros skips h st w st' w'. now apply skip_stays_empty.
  - intros ev Hev. destruct ev; try contradiction; now repeat constructor.
  - intros name th fh. unfold copyFileBodyFromRemote.
    repeat first
      [ apply traceAll_ret
      | apply traceAll_call; reflexivity
      | apply traceAll_emit; reflexivity
      | apply traceAll_wrap
      | apply traceAll_defer
      | apply traceAll_CopyFileBodyTo;
          [reflexivity | reflexivity | intro; reflexivity]
      | apply traceAll_bind; [|intro] ].
  - intros st fh Hs Hn. now contradiction Hn.
  - reflexivity.
Qed.

Lemma ReceiveDir_discards_only_after_rejection_witness :
  keepsDirectories (filterOrAny None) /\
  traceAll (fun ev => isDiscard ev = false)
           (ReceiveDir quietEnv background "/src" "/dest" None).
Proof.
  assert (H : keepsDirectories (filterOrAny None))
    by (intros p i _ Hf; discriminate Hf).
  split; [exact H|].
  exact (@ReceiveDir_discards_only_after_rejection quietEnv background "/src"
           "/dest" None H).
Defined.

(** ** Every local file that is opened is closed *)

Lemma notOpenClose_lists E l :
  Forall notOpenClose l -> closedFiles l = [] /\ openedOk E l = [].
Proof.
  induction 1 as [|ev l Hev _ [IH1 IH2]]; [now split|].
  unfold closedFiles, openedOk in *. cbn [flat_map]. rewrite IH1, IH2.
  destruct ev; try contradiction; now split.
Qed.

Lemma closed_as_opened_app E a b :
  closedFiles a = openedOk E a -> closedFiles b = openedOk E b ->
  closedFiles (a ++ b) = openedOk E (a ++ b).
Proof.
  unfold closedFiles, openedOk. intros Ha Hb.
  rewrite !flat_map_app. now rewrite Ha, Hb.
Qed.

Lemma closed_as_opened_plain E ev :
  plainEvent ev -> closedFiles [ev] = openedOk E [ev].
Proof. destruct ev; try contradiction; reflexivity. Qed.

Lemma copyFileBodyFromRemote_closes E name th fh :
  traceSeg (fun l => closedFiles l = openedOk E l)
           (copyFileBodyFromRemote E name th fh).
Proof.
  intro w. unfold copyFileBodyFromRemote.
  destruct (osErr E (EvOpenFile name (fhMode fh))) as [e|] eqn:Ho.
  - erewrite bind_err by (apply wrap_err, call_err, Ho).
    exists [EvOpenFile name (fhMode fh)]. split; [reflexivity|].
    unfold closedFiles, openedOk. cbn [flat_map]. now rewrite Ho.
  - erewrite bind_ok by (apply wrap_ok, call_ok, Ho).
    set (w0 := addEvent (EvOpenFile name (fhMode fh)) w).
    assert (Hcopy : traceAll notOpenClose
              (wrap "failed to copy file: err="
                    (CopyFileBodyTo fh (fileWriter name)))).
    { apply traceAll_wrap, traceAll_CopyFileBodyTo;
        [exact I | exact I | intro; exact I]. }
    destruct (Hcopy w0) as [l1 [H1 F1]].
    destruct (wrap "failed to copy file: err="
                   (CopyFileBodyTo fh (fileWriter name)) w0)
      as [[u|e] w1] eqn:Hc; cbn [snd] in H1.
    + erewrite bind_ok by (apply defer_emit; exact Hc).
      assert (Hrest : traceAll notOpenClose
                (wrap "failed to change file mode: err="
                      (call E (EvChmod name (fhMode fh))) ;;
                 wrap "failed to change file time: err="
                      (call E (EvChtimes name (Atime th) (Mtime th))) ;;
                 ret tt)).
      { repeat first
          [ apply traceAll_ret
          | apply traceAll_wrap
          | apply traceAll_call; exact I
          | apply traceAll_bind; [|intro] ]. }
      destruct (Hrest (addEvent (EvFileClose name) w1)) as [l2 [H2 F2]].
      exists ([EvOpenFile name (fhMode fh)] ++ l1 ++ [EvFileClose name] ++ l2).
      split.
      * rewrite H2. cbn [trace addEvent]. rewrite H1. unfold w0.
        cbn [trace addEvent]. now rewrite <- !app_assoc.
      * destruct (notOpenClose_lists E F1) as [C1 O1].
        destruct (notOpenClose_lists E F2) as [C2 O2].
        unfold closedFiles, openedOk in *. rewrite !flat_map_app.
        rewrite C1, C2, O1, O2. cbn [flat_map app]. now rewrite Ho.
    + erewrite bind_err by (apply defer_emit; exact Hc).
      exists ([EvOpenFile name (fhMode fh)] ++ l1 ++ [EvFileClose name]).
      split.
      * cbn [snd trace addEvent]. rewrite H1. unfold w0.
        cbn [trace addEvent]. now rewrite <- !app_assoc.
      * destruct (notOpenClose_lists E F1) as [C1 O1].
        unfold closedFiles, openedOk in *. rewrite !flat_map_app.
        rewrite C1, O1. cbn [flat_map app]. now rewrite Ho.
Qed.

(** X5. [ReceiveFile] and [ReceiveDir] leave no local file open: the files
    closed during a run are the files whose opening succeeded, one close for
    each and in the same order, whatever the remote sends and wherever the
    run fails. *)
Theorem received_files_are_closed E s src dest f :
  traceSeg (fun l => closedFiles l = openedOk E l)
           (ReceiveDir E s src dest f) /\
  traceSeg (fun l => closedFiles l = openedOk E l)
           (ReceiveFile E s src dest).
Proof.
  set (Q := fun l => closedFiles l = openedOk E l).
  assert (Qn : Q []) by reflexivity.
  assert (Qa : forall a b, Q a -> Q b -> Q (a ++ b))
    by (intros a b; apply closed_as_opened_app).
  assert (Qp : forall ev, plainEvent ev -> Q [ev])
    by (intro ev; apply closed_as_opened_plain).
  split.
  - apply (@ReceiveDir_seg Q (fun _ => True)); auto.
    + intros name th fh. apply copyFileBodyFromRemote_closes.
    + intros st fh _ _.
      apply traceSeg_of_all with (P := notOpenClose); auto.
      * intros ev Hev. unfold Q.
        destruct (@notOpenClose_lists E [ev]) as [C O];
          [now repeat constructor|].
        now rewrite C, O.
      * apply traceAll_CopyFileBodyTo; [exact I | exact I | intro; exact I].
  - unfold ReceiveFile.
    apply traceSeg_bind; [exact Qa | |].
    { apply traceSeg_of_all with (P := plainEvent); auto.
      apply traceAll_emit. exact I. }
    intros _. destruct (receiveFileDest E src dest) as [target|e];
      [|now apply traceSeg_throw].
    apply runResourceSession_seg; auto.
    apply traceSeg_bind; [exact Qa | |].
    { apply traceSeg_of_all with (P := plainEvent); auto.
      apply traceAll_wrap, traceAll_ReadHeaderOrReply; exact I. }
    intro h1. apply traceSeg_bind; [exact Qa | |].
    { apply traceSeg_of_all with (P := plainEvent); auto.
      apply traceAll_expectTime. }
    intro th. apply traceSeg_bind; [exact Qa | |].
    { apply traceSeg_of_all with (P := plainEvent); auto.
      apply traceAll_wrap, traceAll_ReadHeaderOrReply; exact I. }
    intro h2. apply traceSeg_bind; [exact Qa | |].
    { apply traceSeg_of_all with (P := plainEvent); auto.
      apply traceAll_expectFile. }
    intro fh. apply copyFileBodyFromRemote_closes.
Qed.

(** ** [ReceiveFile] when the remote does not begin with the two headers *)

Lemma failsQuietly_bind A B P (c : M A) (k : A -> M B) w :
  traceAll P c ->
  (forall a w1, c w = (Ok a, w1) -> failsQuietly P (k a) w1) ->
  failsQuietly P (bind c k) w.
Proof.
  intros Hc Hk. destruct (Hc w) as [l1 [H1 F1]]. unfold failsQuietly, bind.
  destruct (c w) as [[a|e] w1] eqn:Hcw; cbn [snd] in H1.
  - destruct (Hk a w1 eq_refl) as [He [l2 [H2 F2]]]. split; [exact He|].
    exists (l1 ++ l2). split; [now rewrite H2, H1, app_assoc|].
    now apply Forall_app.
  - split; [now exists e|]. now exists l1.
Qed.

Lemma failsQuietly_first A B P (c : M A) (k : A -> M B) w :
  failsQuietly P c w -> failsQuietly P (bind c k) w.
Proof.
  intros [[e He] Ht]. unfold failsQuietly, bind.
  destruct (c w) as [[a|e'] w1]; cbn [fst snd] in *; [discriminate He|].
  split; [now exists e'|exact Ht].
Qed.

Lemma failsQuietly_defer A P (d : M unit) (c : M A) w :
  traceAll P d -> failsQuietly P c w -> failsQuietly P (defer d c) w.
Proof.
  intros Hd [[e He] [l1 [H1 F1]]]. unfold failsQuietly, defer.
  destruct (c w) as [r w1]; cbn [fst snd] in *.
  destruct (Hd w1) as [l2 [H2 F2]].
  split; [now exists e|].
  exists (l1 ++ l2). split; [now rewrite H2, H1, app_assoc|].
  now apply Forall_app.
Qed.

Lemma ReadHeaderOrReply_Ok w h w1 :
  ReadHeaderOrReply w = (Ok h, w1) ->
  exists rest, stream w = THeader h :: rest /\ stream w1 = rest.
Proof.
  intro H. run_M in H.
  destruct (watcher w) as [k|]; [destruct (k <=? ticks w)%nat|];
    cbn in H; try discriminate H;
    (destruct (closed w); cbn in H; [discriminate H|]);
    (destruct (stream w) as [|[h'|b] rest]; try discriminate H);
    inversion H; subst; now exists rest.
Qed.

Lemma newResourceSession_stream E p d scp r u w :
  stream (snd (newResourceSession E p d scp r u w)) = stream w.
Proof. unfold newResourceSession. run_M. split_osErr; reflexivity. Qed.

Lemma goWatch_stream c w : stream (snd (goWatch c w)) = stream w.
Proof. destruct c; reflexivity. Qed.

(** X6. [ReceiveFile] creates, writes and changes nothing on the local file
    system unless the remote begins with a time header followed by a file
    header: otherwise it returns an error, and the destination is left as it
    was. *)
Theorem ReceiveFile_needs_both_headers E s src dest w :
  beginsWithFile (stream w) = false ->
  (exists e, fst (ReceiveFile E s src dest w) = Err e) /\
  exists l,
    trace (snd (ReceiveFile E s src dest w)) = trace w ++ l /\
    Forall (fun ev => localChange ev = false) l.
Proof.
  intro Hb. change (failsQuietly (fun ev => localChange ev = false)
                      (ReceiveFile E s src dest) w).
  set (P := fun ev => localChange ev = false).
  assert (Hread : traceAll P
            (wrap "failed to read scp message header: err="
                  ReadHeaderOrReply))
    by (apply traceAll_wrap, traceAll_ReadHeaderOrReply; reflexivity).
  unfold ReceiveFile.
  apply failsQuietly_bind; [apply traceAll_emit; reflexivity|].
  intros [] w0 H0. inversion H0; subst w0. clear H0.
  destruct (receiveFileDest E src dest) as [target|e].
  2:{ split; [now exists e|]. exists []. now rewrite app_nil_r. }
  unfold runResourceSession.
  apply failsQuietly_bind.
  { apply traceAll_newResourceSession; try reflexivity; intro; reflexivity. }
  intros [] w1 H1.
  assert (Hs1 : stream w1 = stream w).
  { pose proof (newResourceSession_stream E
                  (realPath E (Clean src)) false "" false true
                  (addEvent (EvStat (Clean dest)) w)) as Hs.
    now rewrite H1 in Hs. }
  apply failsQuietly_defer; [apply traceAll_sessionClose; reflexivity|].
  apply failsQuietly_bind; [apply traceAll_goWatch; intro; reflexivity|].
  intros [] w2 H2.
  assert (Hs2 : stream w2 = stream w).
  { pose proof (goWatch_stream (ctx s) w1) as Hs.
    rewrite H2 in Hs. cbn [snd] in Hs. congruence. }
  apply failsQuietly_first.
  apply failsQuietly_bind; [exact Hread|].
  intros h1 w4 Hr1.
  apply wrap_Ok_inv, ReadHeaderOrReply_Ok in Hr1 as [rest1 [Hh1 Hrest1]].
  apply failsQuietly_bind; [apply traceAll_expectTime|].
  intros th w5 He1.
  destruct h1; try discriminate He1. inversion He1; subst w5.
  apply failsQuietly_bind; [exact Hread|].
  intros h2 w6 Hr2.
  apply wrap_Ok_inv, ReadHeaderOrReply_Ok in Hr2 as [rest2 [Hh2 Hrest2]].
  apply failsQuietly_bind; [apply traceAll_expectFile|].
  intros fh w7 He2.
  destruct h2; try discriminate He2.
  exfalso. rewrite <- Hs2, Hh1, <- Hrest1, Hh2 in Hb. discriminate Hb.
Qed.

Lemma ReceiveFile_needs_both_headers_witness :
  beginsWithFile (stream (initWorld [tokD "src"; tokE])) = false /\
  ((exists e, fst (ReceiveFile quietEnv background "/remote/src" "/tmp/new"
                     (initWorld [tokD "src"; tokE])) = Err e) /\
   exists l,
     trace (snd (ReceiveFile quietEnv background "/remote/src" "/tmp/new"
                   (initWorld [tokD "src"; tokE]))) =
     trace (initWorld [tokD "src"; tokE]) ++ l /\
     Forall (fun ev => localChange ev = false) l).
Proof.
  split; [reflexivity|].
  exact (@ReceiveFile_needs_both_headers quietEnv background "/remote/src"
           "/tmp/new" (initWorld [tokD "src"; tokE]) eq_refl).
Defined.

(** ** Sending: what the events of a run have in common *)

Lemma traceAll_newSinkSession P E p d scp r u :
  P EvNewSession -> P EvStdoutPipe -> P EvStdinPipe -> P EvClose ->
  (forall cmd, P (EvStart cmd)) ->
  traceAll P (newSinkSession E p d scp r u).
Proof.
  intros H1 H2 H3 H4 H5. unfold newSinkSession.
  assert (Hc : forall c : M unit, traceAll P c ->
            traceAll P (fun w => match c w with
                                 | (Err e, w') => (Err e, snd (sessionClose w'))
                                 | r => r
                                 end)).
  { intros c Hc w. destruct (Hc w) as [l [H F]].
    destruct (c w) as [[a|e] w1]; cbn [snd] in *; [now exists l|].
    exists (l ++ [EvClose]). cbn. split; [now rewrite H, app_assoc|].
    apply Forall_app. split; [assumption | now constructor]. }
  apply traceAll_bind; [now apply traceAll_call|]. intros _.
  repeat (apply traceAll_bind; [|intro]); apply Hc;
    apply traceAll_call; auto.
Qed.

Lemma traceAll_runSinkSession P E p d scp r u (handler : M unit) :
  P EvNewSession -> P EvStdoutPipe -> P EvStdinPipe -> P EvClose ->
  (forall cmd, P (EvStart cmd)) -> P EvCloseStdin -> P EvWait ->
  traceAll P handler ->
  traceAll P (runSinkSession E p d scp r u handler).
Proof.
  intros H1 H2 H3 H4 H5 H6 H7 Hh. unfold runSinkSession, sessionWait.
  apply traceAll_bind; [now apply traceAll_newSinkSession|]. intros _.
  apply traceAll_defer; [now apply traceAll_sessionClose|].
  apply traceAll_bind; [|intros _; now apply traceAll_call].
  apply traceAll_defer; [now apply traceAll_emit | exact Hh].
Qed.

(** X7. [SendFile] sends nothing but the one file the lookup of the source
    found, with the information the lookup returned, and it opens the
    source only after the lookup succeeded; it sends no directory marker and
    changes nothing on the local file system. When the lookup fails
    [SendFile] returns an error: nothing is opened and nothing is sent,
    though the remote command may have been started already. *)
Theorem SendFile_sends_what_stat_found E s src dest :
  traceAll (sendFileEvent E (Clean src)) (SendFile E s src dest) /\
  (forall e w, osStat E (Clean src) = Err e ->
               exists e', fst (SendFile E s src dest w) = Err e').
Proof.
  split.
  - unfold SendFile.
    apply traceAll_runSinkSession; try exact I; [intro; exact I|].
    apply traceAll_bind; [apply traceAll_emit; reflexivity|]. intros _.
    destruct (osStat E (Clean src)) as [fi|e] eqn:Hs; [|apply traceAll_throw].
    apply traceAll_bind.
    + apply traceAll_wrap, traceAll_call. split; [reflexivity | now exists fi].
    + intros _. apply traceAll_wrap. unfold WriteFile.
      apply traceAll_bind; [apply traceAll_sessionIO; exact I|]. intros _.
      apply traceAll_call. exact Hs.
  - intros e w Hs. unfold SendFile, runSinkSession.
    destruct (newSinkSession E (realPath E (Clean dest)) false "" false true w)
      as [[[]|e1] w1] eqn:Hn.
    + erewrite bind_ok by exact Hn. unfold defer at 1.
      erewrite bind_err.
      * eexists. reflexivity.
      * apply defer_emit. erewrite bind_ok by reflexivity.
        rewrite Hs. reflexivity.
    + erewrite bind_err by exact Hn. now exists e1.
Qed.

Lemma SendFile_sends_what_stat_found_witness :
  osStat quietEnv (Clean "/tmp/none") = Err ErrNotExist /\
  exists e', fst (SendFile quietEnv background "/tmp/none" "/remote/none"
                           (initWorld [])) = Err e'.
Proof.
  split; [reflexivity|].
  exact (proj2 (SendFile_sends_what_stat_found quietEnv background "/tmp/none"
                  "/remote/none") ErrNotExist (initWorld []) eq_refl).
Defined.

(** ** [SendDir] on a regular file *)

(** X8. [SendDir] given a path that is a regular file and not a directory
    does not fail: it first sends an end-of-directory marker that no start
    marker opened, for the step from the file to its directory, and then the
    file if the filter accepts it. *)
Theorem SendDir_of_a_file E s info srcDir destDir f w r p n :
  quiet E -> good w -> total (filterOrAny f) ->
  Clean srcDir = render r (p ++ [n]) -> normal r p -> isName n ->
  let run := SendDir E s (Ok (fileNode info)) srcDir destDir f w in
  fst run = Ok tt /\
  exists l,
    trace (snd run) = trace w ++ l /\
    sinkOps l =
    EvEndDirectory ::
    (if accepts (filterOrAny f) (Dir (Clean srcDir)) info
     then [EvWriteFile info] else []).
Proof.
  intros Hq Hg Hf HR Hp Hn.
  now apply (@SendDir_file_root E s info srcDir destDir f w r p n).
Qed.

Lemma SendDir_of_a_file_witness :
  (quiet quietEnv /\ good (initWorld []) /\ total (filterOrAny None) /\
   Clean "/x/f" = render true (["x"] ++ ["f"]) /\ normal true ["x"] /\
   isName "f") /\
  fst (SendDir quietEnv background (Ok (fileNode (regInfo "f"))) "/x/f"
               "/remote" None (initWorld [])) = Ok tt.
Proof.
  assert (H1 : quiet quietEnv) by (intro ev; reflexivity).
  assert (H2 : good (initWorld [])) by (split; reflexivity).
  assert (H3 : total (filterOrAny None))
    by (intros p i; exists true; reflexivity).
  assert (H4 : Clean "/x/f" = render true (["x"] ++ ["f"])) by reflexivity.
  assert (H5 : normal true ["x"]).
  { exists [], ["x"]. repeat split; repeat constructor. }
  assert (H6 : isName "f") by reflexivity.
  split; [auto 10|].
  exact (proj1 (@SendDir_of_a_file quietEnv background (regInfo "f") "/x/f"
                  "/remote" None (initWorld []) true ["x"] "f"
                  H1 H2 H3 H4 H5 H6)).
Defined.

(** ** [Receive] *)

Lemma CopyFileBodyTo_Ok h d w w' :
  CopyFileBodyTo h d w = (Ok tt, w') ->
  exists b rest,
    stream w = TBody b :: rest /\ Z.of_nat (length b) = fhSize h.
Proof.
  intro H. run_M in H.
  destruct (watcher w) as [k|]; [destruct (k <=? ticks w)%nat|];
    cbn in H; try discriminate H;
    (destruct (closed w); cbn in H; [discriminate H|]);
    (destruct (stream w) as [|[h'|b] rest]; try discriminate H);
    (destruct (Z.eqb (Z.of_nat (length b)) (fhSize h)) eqn:Hl;
       [|discriminate H]);
    apply Z.eqb_eq in Hl; now exists b, rest.
Qed.

Lemma traceAll_receiveHandler src dest :
  traceAll (receiveEvent dest) (receiveHandler src dest).
Proof.
  unfold receiveHandler.
  apply traceAll_bind;
    [apply traceAll_wrap, traceAll_ReadHeaderOrReply; exact I|]. intro h1.
  apply traceAll_bind; [apply traceAll_expectTime|]. intro th.
  apply traceAll_bind;
    [apply traceAll_wrap, traceAll_ReadHeaderOrReply; exact I|]. intro h2.
  apply traceAll_bind; [apply traceAll_expectFile|]. intro fh.
  apply traceAll_bind; [|intro; apply traceAll_ret].
  apply traceAll_wrap, traceAll_CopyFileBodyTo;
    [exact I | reflexivity | intro; reflexivity].
Qed.

Lemma receiveHandler_Ok src dest w i w' :
  receiveHandler src dest w = (Ok i, w') ->
  exists th fh b rest,
    stream w = THeader (timeMsg th) :: THeader (fileMsg fh) :: TBody b :: rest
    /\ Z.of_nat (length b) = fhSize fh
    /\ i = NewFileInfo src (fhSize fh) (fhMode fh) (Mtime th) (Atime th).
Proof.
  intro H. unfold receiveHandler in H.
  apply bind_Ok_inv in H as [h1 [w1 [Hr1 H]]].
  apply wrap_Ok_inv, ReadHeaderOrReply_Ok in Hr1 as [rest1 [Hh1 Hrest1]].
  apply bind_Ok_inv in H as [th [w2 [He1 H]]].
  destruct h1; try discriminate He1. inversion He1; subst.
  apply bind_Ok_inv in H as [h2 [w3 [Hr2 H]]].
  apply wrap_Ok_inv, ReadHeaderOrReply_Ok in Hr2 as [rest2 [Hh2 Hrest2]].
  apply bind_Ok_inv in H as [fh [w4 [He2 H]]].
  destruct h2; try discriminate He2. inversion He2; subst.
  apply bind_Ok_inv in H as [[] [w5 [Hc H]]].
  apply wrap_Ok_inv, CopyFileBodyTo_Ok in Hc as [b [rest [Hb Hl]]].
  inversion H; subst.
  exists th, fh, b, rest. rewrite Hh1, Hh2, Hb. auto.
Qed.

(** X9. [Receive] makes no call on the local file system: it runs the
    session, reads headers and copies a body to the writer it was given,
    nothing else. The information it returns is not nil only if the remote
    began with a time header, a file header and a body of the announced
    size, and it is then made of the cleaned source path, the size and mode
    of the file header and the times of the time header. When nothing fails
    before the wait for the remote command, the information is returned
    together with whatever the wait returns, an error included. *)
Theorem Receive_returns_the_headers E s src dest :
  (forall w, exists l,
     trace (snd (Receive E s src dest w)) = trace w ++ l /\
     Forall (receiveEvent dest) l) /\
  (forall w i,
     fst (fst (Receive E s src dest w)) = Some i ->
     exists th fh b rest,
       stream w =
       THeader (timeMsg th) :: THeader (fileMsg fh) :: TBody b :: rest /\
       Z.of_nat (length b) = fhSize fh /\
       i = NewFileInfo (realPath E (Clean src)) (fhSize fh) (fhMode fh)
                       (Mtime th) (Atime th)) /\
  (forall th fh b rest tr k,
     osErr E EvNewSession = None -> osErr E EvStdoutPipe = None ->
     osErr E EvStdinPipe = None ->
     osErr E (EvStart (resourceCommand E (realPath E (Clean src)) false ""
                                       false true)) = None ->
     ctx s = None -> Z.of_nat (length b) = fhSize fh ->
     fst (Receive E s src dest
            (mkWorld (THeader (timeMsg th) :: THeader (fileMsg fh) ::
                      TBody b :: rest) tr false k None)) =
     (Some (NewFileInfo (realPath E (Clean src)) (fhSize fh) (fhMode fh)
                        (Mtime th) (Atime th)),
      match osErr E EvWait with Some e => Err e | None => Ok tt end)).
Proof.
  split; [|split].
  - intro w. unfold Receive. cbn [snd].
    apply traceAll_runResourceSession; try exact I; try (intro; exact I).
    apply traceAll_bind; [apply traceAll_receiveHandler|].
    intro. apply traceAll_ret.
  - intros w i H. unfold Receive in H. cbn [fst] in H.
    destruct ((newResourceSession E (realPath E (Clean src)) false "" false
                 true ;; goWatch (ctx s)) w) as [[[]|e] w1] eqn:Hn;
      [|discriminate H].
    assert (Hs : stream w1 = stream w).
    { apply bind_Ok_inv in Hn as [[] [w0 [Hn Hg]]].
      pose proof (newResourceSession_stream E (realPath E (Clean src)) false
                    "" false true w) as H1.
      pose proof (goWatch_stream (ctx s) w0) as H2.
      rewrite Hn in H1. rewrite Hg in H2. cbn [snd] in *. congruence. }
    destruct (receiveHandler (realPath E (Clean src)) dest w1)
      as [[i'|e] w2] eqn:Hh; [|discriminate H].
    inversion H; subst i'. rewrite <- Hs.
    exact (receiveHandler_Ok _ _ _ Hh).
  - intros th fh b rest tr k H1 H2 H3 H4 Hc Hl.
    unfold Receive, runResourceSession, newResourceSession, receiveHandler.
    remember (resourceCommand E (realPath E (Clean src)) false "" false true)
      as cmd eqn:Hcmd in *. clear Hcmd.
    rewrite Hc. run_M. rewrite H1. cbn. rewrite H2. cbn. rewrite H3. cbn.
    rewrite H4. cbn.
    apply Z.eqb_eq in Hl. rewrite Hl. cbn.
    destruct (osErr E EvWait); reflexivity.
Qed.

Lemma Receive_returns_the_headers_witness :
  let th := {| Mtime := 5; Atime := 6 |} in
  let fh := {| fhMode := 420; fhSize := 2; fhName := "src.dat" |} in
  let b := [Byte.x61; Byte.x62] in
  (osErr quietEnv EvNewSession = None /\ osErr quietEnv EvStdoutPipe = None /\
   osErr quietEnv EvStdinPipe = None /\
   osErr quietEnv
     (EvStart (resourceCommand quietEnv (realPath quietEnv
                                           (Clean "/remote/src.dat"))
                               false "" false true)) = None /\
   ctx background = None /\ Z.of_nat (length b) = fhSize fh) /\
  fst (Receive quietEnv background "/remote/src.dat" (fileWriter "buffer")
         (mkWorld [THeader (timeMsg th); THeader (fileMsg fh); TBody b] []
                  false 0 None)) =
  (Some (NewFileInfo "/remote/src.dat" 2 420 5 6), Ok tt).
Proof.
  intros th fh b.
  split; [repeat split; reflexivity|].
  exact (proj2 (proj2 (Receive_returns_the_headers quietEnv background
                         "/remote/src.dat" (fileWriter "buffer")))
               th fh b [] [] 0%nat eq_refl eq_refl eq_refl eq_refl eq_refl
               eq_refl).
Defined.

(** ** The walker: what is asked of the filter and what is opened *)

Lemma localOps_app a b : localOps (a ++ b) = localOps a ++ localOps b.
Proof. apply filter_app. Qed.

Lemma localOps_none l :
  Forall (fun ev => isLocalOp ev = false) l -> localOps l = [].
Proof.
  induction 1 as [|ev l Hev _ IH]; [reflexivity|].
  unfold localOps in *. cbn [filter]. now rewrite Hev.
Qed.

Lemma quiet_step A (c : M A) w r w' :
  traceAll (fun ev => isLocalOp ev = false) c -> c w = (r, w') ->
  exists l, trace w' = trace w ++ l /\ localOps l = [].
Proof.
  intros Hc H. destruct (Hc w) as [l [Ht F]]. rewrite H in Ht.
  exists l. split; [exact Ht | now apply localOps_none].
Qed.

Lemma traceAll_sinkOp P E ev :
  P EvClose -> P ev -> traceAll P (sessionIO ;; call E ev).
Proof.
  intros Hc Hev. apply traceAll_bind; [now apply traceAll_sessionIO|].
  intros _. now apply traceAll_call.
Qed.

Lemma traceAll_endDirectories P E prev dir skipped :
  P EvClose -> P EvEndDirectory ->
  traceAll P (endDirectories E prev dir skipped).
Proof.
  intros Hc He. unfold endDirectories.
  destruct (Rel prev dir) as [rel|e]; [|apply traceAll_throw].
  generalize (strings.Split rel Separator) skipped.
  induction l as [|c comps IH]; intro sk; [apply traceAll_ret|].
  cbn [endDirectoriesLoop]. destruct (c =? ".."); [|apply IH].
  destruct sk; [apply IH|].
  apply traceAll_bind; [|intros _; apply IH].
  now apply traceAll_sinkOp.
Qed.

Lemma call_Ok_inv E ev w u w' :
  call E ev w = (Ok u, w') -> w' = addEvent ev w.
Proof.
  unfold call, bind, emit, throw, ret.
  destruct (osErr E ev); intro H; now inversion H.
Qed.

Lemma myWalkFn_visits E f path info isDir st w r w' :
  myWalkFn E f path info isDir st w = (Ok r, w') ->
  (exists l,
     trace w' = trace w ++ l /\
     localOps l =
     EvAccept (Dir path) info ::
     (if negb isDir && accepts f (Dir path) info then [EvOpen path] else []))
  /\ fst r = isDir && negb (accepts f (Dir path) info).
Proof.
  intro H. unfold myWalkFn in H.
  apply bind_Ok_inv in H as [sk [w1 [He H]]].
  apply quiet_step in He as [l0 [Ht0 L0]];
    [|apply traceAll_endDirectories; reflexivity].
  apply bind_Ok_inv in H as [[] [w2 [Hemit H]]].
  inversion Hemit; subst w2. clear Hemit.
  unfold accepts.
  destruct (f (Dir path) info) as [acc|e] eqn:Hf; [|discriminate H].
  destruct isDir, acc; cbn [negb andb] in *.
  - apply bind_Ok_inv in H as [[] [w3 [Hs H]]].
    inversion H; subst. clear H.
    apply quiet_step in Hs as [l3 [Ht3 L3]];
      [|apply traceAll_sinkOp; reflexivity].
    split; [|reflexivity].
    exists (l0 ++ [EvAccept (Dir path) info] ++ l3). split.
    + rewrite Ht3. cbn [trace addEvent]. now rewrite Ht0, <- !app_assoc.
    + rewrite !localOps_app, L0, L3. reflexivity.
  - inversion H; subst. clear H. split; [|reflexivity].
    exists (l0 ++ [EvAccept (Dir path) info]). split.
    + cbn [trace addEvent]. now rewrite Ht0, <- !app_assoc.
    + rewrite !localOps_app, L0. reflexivity.
  - apply bind_Ok_inv in H as [[] [w3 [Ho H]]].
    apply call_Ok_inv in Ho. subst w3.
    apply bind_Ok_inv in H as [[] [w4 [Hw H]]].
    inversion H; subst. clear H.
    apply quiet_step in Hw as [l4 [Ht4 L4]];
      [|apply traceAll_sinkOp; reflexivity].
    split; [|reflexivity].
    exists (l0 ++ [EvAccept (Dir path) info] ++ [EvOpen path] ++ l4). split.
    + rewrite Ht4. cbn [trace addEvent]. now rewrite Ht0, <- !app_assoc.
    + rewrite !localOps_app, L0, L4. reflexivity.
  - inversion H; subst. clear H. split; [|reflexivity].
    exists (l0 ++ [EvAccept (Dir path) info]). split.
    + cbn [trace addEvent]. now rewrite Ht0, <- !app_assoc.
    + rewrite !localOps_app, L0. reflexivity.
Qed.

Lemma visits_dir_eq f path info es :
  visits f path (dirNode info es) =
  EvAccept (Dir path) info ::
  (if accepts f (Dir path) info then visitsEach f path es else []).
Proof.
  cbn [visits]. destruct (accepts f (Dir path) info); [|reflexivity].
  f_equal. induction es as [|x es IH]; [reflexivity|].
  cbn [visitsEach]. now rewrite IH.
Qed.

Lemma walkEntries_visits E f es :
  Forall (walkVisits E f) es ->
  forall path st w r w',
    walkEntries E f path es st w = (Ok r, w') ->
    exists l, trace w' = trace w ++ l /\ localOps l = visitsEach f path es.
Proof.
  induction 1 as [|x es Hx _ IH]; intros path st w r w' H.
  - inversion H; subst. exists []. now rewrite app_nil_r.
  - cbn [walkEntries] in H.
    apply bind_Ok_inv in H as [r1 [w1 [H1 H]]].
    apply Hx in H1 as [[l1 [Ht1 L1]] Hdir].
    destruct (fst r1 && negb (nodeIsDir x)) eqn:Hstop.
    + apply andb_true_iff in Hstop as [Hs1 Hs2].
      rewrite (Hdir Hs1) in Hs2. discriminate Hs2.
    + apply IH in H as [l2 [Ht2 L2]].
      exists (l1 ++ l2). split; [now rewrite Ht2, Ht1, app_assoc|].
      cbn [visitsEach]. now rewrite localOps_app, L1, L2.
Qed.

Lemma walk_visits E f : forall x, walkVisits E f x.
Proof.
  apply node_induction.
  - intros info path st w r w' H. cbn [walk] in H.
    apply myWalkFn_visits in H as [[l [Ht L]] Hr].
    cbn [negb andb] in *. split; [|intro Hs; congruence].
    exists l. split; [exact Ht|]. exact L.
  - intros info es Hes path st w r w' H. rewrite walk_dir_eq in H.
    apply bind_Ok_inv in H as [r1 [w1 [H1 H]]].
    apply myWalkFn_visits in H1 as [[l1 [Ht1 L1]] Hr1].
    cbn [negb andb] in *. split; [|reflexivity].
    rewrite visits_dir_eq. rewrite Hr1 in H.
    destruct (accepts f (Dir path) info); cbn [negb] in H.
    + apply (walkEntries_visits Hes) in H as [l2 [Ht2 L2]].
      exists (l1 ++ l2). split; [now rewrite Ht2, Ht1, app_assoc|].
      now rewrite localOps_app, L1, L2.
    + inversion H; subst. exists l1. split; [exact Ht1 | exact L1].
Qed.

(** X10. In a run of [SendDir] that returns without error, the filter was
    asked once for every entry of the tree that is not inside a rejected
    directory, in the order of the walk and with the directory of the entry
    as parent; every accepted file was opened right after that, by its path
    under the source directory; and nothing else was opened. The entries of
    a rejected directory were neither asked about nor opened. *)
Theorem SendDir_visits E s root srcDir destDir f w :
  fst (SendDir E s (Ok root) srcDir destDir f w) = Ok tt ->
  exists l,
    trace (snd (SendDir E s (Ok root) srcDir destDir f w)) = trace w ++ l /\
    localOps l = visits (filterOrAny f) (Clean srcDir) root.
Proof.
  unfold SendDir, runSinkSession. intro Hok.
  set (g := filterOrAny f) in *. set (R := Clean srcDir) in *.
  destruct (newSinkSession E (realPath E (Clean destDir)) false "" true true w)
    as [[[]|e] w1] eqn:Hn.
  2:{ erewrite bind_err in Hok by exact Hn. discriminate Hok. }
  erewrite bind_ok in * by exact Hn.
  apply quiet_step in Hn as [l0 [Ht0 L0]];
    [|apply traceAll_newSinkSession; try reflexivity; intro; reflexivity].
  unfold defer at 1 in Hok. unfold defer at 1.
  destruct ((st <- Walk E g R (Ok root) (mkSd false R) ;;
             endDirectories E (prevDir st) R (prevDirSkipped st) ;;
             ret tt) w1) as [[[]|e] w2] eqn:Hh.
  2:{ erewrite bind_err in Hok by (apply defer_emit; exact Hh).
      discriminate Hok. }
  erewrite bind_ok in * by (apply defer_emit; exact Hh).
  apply bind_Ok_inv in Hh as [st [w3 [Hw Hh]]].
  unfold Walk in Hw. apply bind_Ok_inv in Hw as [r [w4 [Hw Hret]]].
  inversion Hret; subst. clear Hret.
  apply walk_visits in Hw as [[l1 [Ht1 L1]] _].
  apply bind_Ok_inv in Hh as [sk [w5 [He Hret]]].
  inversion Hret; subst. clear Hret.
  apply quiet_step in He as [l2 [Ht2 L2]];
    [|apply traceAll_endDirectories; reflexivity].
  unfold sessionWait in *.
  destruct (call E EvWait (addEvent EvCloseStdin w2)) as [rw w6] eqn:Hwait.
  apply quiet_step in Hwait as [l3 [Ht3 L3]];
    [|apply traceAll_call; reflexivity].
  exists (l0 ++ l1 ++ l2 ++ [EvCloseStdin] ++ l3 ++ [EvClose]). split.
  - cbn [snd sessionClose trace]. rewrite Ht3. cbn [trace addEvent].
    rewrite Ht2, Ht1, Ht0. now rewrite <- !app_assoc.
  - rewrite !localOps_app, L0, L1, L2, L3. cbn. now rewrite app_nil_r.
Qed.

Lemma SendDir_visits_witness :
  fst (SendDir quietEnv background (Ok sampleTree) "/x/root" "/remote"
               (Some (rejectNamed "b")) (initWorld [])) = Ok tt /\
  exists l,
    trace (snd (SendDir quietEnv background (Ok sampleTree) "/x/root"
                        "/remote" (Some (rejectNamed "b")) (initWorld []))) =
    trace (initWorld []) ++ l /\
    localOps l =
    visits (filterOrAny (Some (rejectNamed "b"))) (Clean "/x/root") sampleTree.
Proof.
  assert (H : fst (SendDir quietEnv background (Ok sampleTree) "/x/root"
                     "/remote" (Some (rejectNamed "b")) (initWorld [])) =
              Ok tt) by reflexivity.
  split; [exact H|].
  exact (@SendDir_visits quietEnv background sampleTree "/x/root" "/remote"
           (Some (rejectNamed "b")) (initWorld []) H).
Defined.

Example SendDir_visits_sample :
  visits (rejectNamed "b") "/x/root" sampleTree =
  [EvAccept "/x" (dirInfo "root"); EvAccept "/x/root" (dirInfo "a");
   EvAccept "/x/root/a" (dirInfo "b"); EvAccept "/x/root/a" (regInfo "f");
   EvOpen "/x/root/a/f"; EvAccept "/x/root" (dirInfo "c");
   EvAccept "/x/root" (regInfo "g"); EvOpen "/x/root/g"].
Proof. reflexivity. Qed.

(** ** [ReceiveDir] rebuilds the tree the remote sends *)

Lemma rnode_induction (P : rnode -> Prop) :
  (forall th fh body, P (rfile th fh body)) ->
  (forall th dh es, Forall P es -> P (rdir th dh es)) ->
  forall x, P x.
Proof.
  intros Hf Hd.
  refine (fix IH (x : rnode) : P x :=
            match x with
            | rfile th fh body => Hf th fh body
            | rdir th dh es =>
                Hd th dh es
                   ((fix all (l : list rnode) : Forall P l :=
                       match l with
                       | [] => Forall_nil P
                       | y :: l' => Forall_cons y (IH y) (all l')
                       end) es)
            end).
Qed.

Lemma headers_le x : headers x <= length (remoteSends x).
Proof.
  induction x as [th fh body | th dh es IH] using rnode_induction.
  - cbn. lia.
  - cbn [headers remoteSends length]. rewrite length_app. cbn [length].
    assert (H : list_sum (map headers es) <=
                length (flat_map remoteSends es)).
    { induction IH as [|y es Hy _ IHes]; [reflexivity|].
      change (list_sum (map headers (y :: es)))
        with (headers y + list_sum (map headers es)).
      cbn [flat_map]. rewrite length_app. lia. }
    lia.
Qed.

Lemma ReadHeaderOrReply_run h rest tr k :
  ReadHeaderOrReply (mkWorld (THeader h :: rest) tr false k None) =
  (Ok h, mkWorld rest (tr ++ [EvReadHeaderOrReply]) false (S k) None).
Proof. reflexivity. Qed.

Lemma newResourceSession_runs E p d scp r u w :
  quiet E ->
  newResourceSession E p d scp r u w =
  (Ok tt,
   addEvent (EvStart (resourceCommand E p d scp r u))
     (addEvent EvStdinPipe (addEvent EvStdoutPipe (addEvent EvNewSession w)))).
Proof.
  intro Hq. unfold newResourceSession.
  erewrite bind_ok; [|now rewrite call_ok by apply Hq].
  erewrite bind_ok; [|now rewrite call_ok by apply Hq].
  erewrite bind_ok; [|now rewrite call_ok by apply Hq].
  now rewrite call_ok by apply Hq.
Qed.

Section Rebuild.
Variable E : env.
Variable f : AcceptFunc.
Variable skips : bool.
Hypothesis Hq : quiet E.
Hypothesis Hf : forall p i, f p i = Ok true.

Lemma receiveLoop_step fuel st h rest tr k st' w2 :
  onHeader E f skips h st
    (mkWorld rest (tr ++ [EvReadHeaderOrReply]) false (S k) None) =
  (Ok st', w2) ->
  receiveLoop (S fuel) E f skips st (mkWorld (THeader h :: rest) tr false k None)
  = receiveLoop fuel E f skips st' w2.
Proof.
  intro H. cbn [receiveLoop]. rewrite ReadHeaderOrReply_run. now rewrite H.
Qed.

Lemma receiveLoop_end fuel st tr k :
  receiveLoop (S fuel) E f skips st (mkWorld [] tr false k None) =
  Some (Ok tt, mkWorld [] (tr ++ [EvReadHeaderOrReply]) false (S k) None).
Proof. reflexivity. Qed.

Lemma onFile_run fh cur th ths b body rest tr k :
  Z.of_nat (length body) = fhSize fh ->
  let name := filepath.Join [cur; fhName fh] in
  onFile E f fh (mkRd cur th ths b "")
         (mkWorld (TBody body :: rest) tr false k None) =
  (Ok (mkRd cur th ths b ""),
   mkWorld rest
     (tr ++ [EvAccept cur (NewFileInfo (fhName fh) (fhSize fh) (fhMode fh)
                                       (Mtime th) (Atime th));
             EvOpenFile name (fhMode fh);
             EvCopyFileBodyTo fh (fileWriter name);
             EvWrite (fileWriter name) body;
             EvFileClose name;
             EvChmod name (fhMode fh);
             EvChtimes name (Atime th) (Mtime th)])
     false (S k) None).
Proof.
  intros Hl name. unfold onFile.
  cbn [skipBaseDir curDir timeHeader String.eqb]. fold name. clearbody name.
  erewrite bind_ok by reflexivity. rewrite Hf.
  unfold copyFileBodyFromRemote.
  erewrite bind_ok.
  2:{ erewrite bind_ok by (apply wrap_ok, call_ok, Hq).
      erewrite bind_ok.
      2:{ apply defer_emit. apply wrap_ok. run_M.
          apply Z.eqb_eq in Hl. rewrite Hl. reflexivity. }
      erewrite bind_ok by (apply wrap_ok, call_ok, Hq).
      erewrite bind_ok by (apply wrap_ok, call_ok, Hq).
      reflexivity. }
  unfold ret, addEvent. cbn [stream trace closed ticks watcher].
  now rewrite <- !app_assoc.
Qed.

Lemma onStartDirectory_run dh r p th ths b w :
  normal r p -> isName (dhName dh) -> b && skips = false ->
  let dir := render r (p ++ [dhName dh]) in
  onStartDirectory E f skips dh (mkRd (render r p) th ths b "") w =
  (Ok (mkRd dir th (ths ++ [th]) false ""),
   addEvent (EvChmod dir (dhMode dh))
     (addEvent (EvMkdirAll dir (dhMode dh))
        (addEvent (EvAccept (render r p)
                     (NewFileInfo (dhName dh) 0 (N.lor (dhMode dh) ModeDir)
                                  (Mtime th) (Atime th))) w))).
Proof.
  intros Hp Hn Hb dir. unfold onStartDirectory.
  cbn [isFirstStartDirectory skipBaseDir curDir timeHeader timeHeaders].
  rewrite Hb. cbn [String.eqb negb].
  rewrite (Join_render Hp Hn), (Dir_render Hp Hn). fold dir.
  erewrite bind_ok by reflexivity. rewrite Hf.
  erewrite bind_ok by (apply wrap_ok, call_ok, Hq).
  erewrite bind_ok by (apply wrap_ok, call_ok, Hq).
  reflexivity.
Qed.

Lemma onEndDirectory_run r p n th th' ths w :
  normal r p -> isName n ->
  onEndDirectory E (mkRd (render r (p ++ [n])) th' (ths ++ [th]) false "") w =
  (Ok (mkRd (render r p) th ths false ""),
   addEvent (EvChtimes (render r (p ++ [n])) (Atime th) (Mtime th)) w).
Proof.
  intros Hp Hn. unfold onEndDirectory.
  cbn [curDir timeHeaders timeHeader isFirstStartDirectory skipBaseDir].
  rewrite last_snoc, removelast_snoc.
  destruct (ths ++ [th]) eqn:Hl; [now destruct ths|]. clear Hl.
  cbn [String.eqb].
  erewrite bind_ok
    by (erewrite bind_ok by (apply wrap_ok, call_ok, Hq); reflexivity).
  cbn [curDir timeHeaders timeHeader isFirstStartDirectory skipBaseDir
       String.eqb negb].
  now rewrite (Dir_render Hp Hn).
Qed.

Lemma file_rebuilt th fh body : rebuilt E f skips (rfile th fh body).
Proof.
  intros r p th0 ths tr k rest Hp Hwf. cbn [wfSent] in Hwf.
  apply andb_true_iff in Hwf as [_ Hl]. apply Z.eqb_eq in Hl.
  eexists _, (S (S (S k))). split.
  - intro fuel. cbn [headers Nat.add remoteSends app].
    erewrite receiveLoop_step by reflexivity.
    erewrite receiveLoop_step by (cbn [onHeader]; now apply onFile_run).
    cbn [rtime]. rewrite <- !app_assoc. cbn [app]. reflexivity.
  - reflexivity.
Qed.

Lemma entries_rebuilt es :
  Forall (rebuilt E f skips) es ->
  forall r p th0 ths tr k rest,
    normal r p -> forallb wfSent es = true ->
    exists l k' th',
      (forall fuel,
         receiveLoop (list_sum (map headers es) + fuel) E f skips
           (mkRd (render r p) th0 ths false "")
           (mkWorld (flat_map remoteSends es ++ rest) tr false k None) =
         receiveLoop fuel E f skips
           (mkRd (render r p) th' ths false "")
           (mkWorld rest (tr ++ l) false k' None)) /\
      filter localChange l = flat_map (recvOps (render r p)) es.
Proof.
  induction 1 as [|x es Hx _ IH]; intros r p th0 ths tr k rest Hp Hwf.
  - exists [], k, th0. cbn. rewrite app_nil_r. now split.
  - cbn [forallb] in Hwf. apply andb_true_iff in Hwf as [Hwx Hwes].
    destruct (Hx r p th0 ths tr k (flat_map remoteSends es ++ rest) Hp Hwx)
      as [l1 [k1 [H1 L1]]].
    destruct (IH r p (rtime x) ths (tr ++ l1) k1 rest Hp Hwes)
      as [l2 [k2 [th' [H2 L2]]]].
    exists (l1 ++ l2), k2, th'. split.
    + intro fuel.
      change (list_sum (map headers (x :: es)))
        with (headers x + list_sum (map headers es)).
      cbn [flat_map].
      rewrite <- app_assoc, <- Nat.add_assoc. rewrite H1, H2.
      now rewrite app_assoc.
    + cbn [flat_map]. now rewrite filter_app, L1, L2.
Qed.

Lemma dir_rebuilt th dh es b :
  Forall (rebuilt E f skips) es ->
  forall r p th0 ths tr k rest,
    normal r p -> wfSent (rdir th dh es) = true -> b && skips = false ->
    exists l k',
      (forall fuel,
         receiveLoop (headers (rdir th dh es) + fuel) E f skips
           (mkRd (render r p) th0 ths b "")
           (mkWorld (remoteSends (rdir th dh es) ++ rest) tr false k None) =
         receiveLoop fuel E f skips
           (mkRd (render r p) th ths false "")
           (mkWorld rest (tr ++ l) false k' None)) /\
      filter localChange l = recvOps (render r p) (rdir th dh es).
Proof.
  intros Hes r p th0 ths tr k rest Hp Hwf Hb. cbn [wfSent] in Hwf.
  apply andb_true_iff in Hwf as [Hn Hwes].
  assert (Hpn : normal r (p ++ [dhName dh])).
  { apply normal_app_names; [exact Hp|]. now repeat constructor. }
  set (info := NewFileInfo (dhName dh) 0 (N.lor (dhMode dh) ModeDir)
                           (Mtime th) (Atime th)).
  set (dir := render r (p ++ [dhName dh])).
  destruct (entries_rebuilt Hes th (ths ++ [th])
              (tr ++ [EvReadHeaderOrReply; EvReadHeaderOrReply;
                      EvAccept (render r p) info;
                      EvMkdirAll dir (dhMode dh); EvChmod dir (dhMode dh)])
              (S (S k)) (THeader endDirectoryMsg :: rest) Hpn Hwes)
    as [l2 [k2 [th' [H2 L2]]]].
  exists ([EvReadHeaderOrReply; EvReadHeaderOrReply;
           EvAccept (render r p) info;
           EvMkdirAll dir (dhMode dh); EvChmod dir (dhMode dh)] ++
          l2 ++
          [EvReadHeaderOrReply; EvChtimes dir (Atime th) (Mtime th)]),
         (S k2).
  split.
  - intro fuel. cbn [headers remoteSends].
    replace (3 + list_sum (map headers es) + fuel)
      with (S (S (list_sum (map headers es) + S fuel))) by lia.
    cbn [app]. rewrite <- app_assoc. cbn [app].
    erewrite receiveLoop_step by reflexivity.
    erewrite receiveLoop_step
      by (cbn [onHeader]; now apply onStartDirectory_run).
    unfold addEvent. cbn [stream trace closed ticks watcher].
    fold info dir. rewrite <- !app_assoc. cbn [app].
    rewrite H2.
    erewrite receiveLoop_step
      by (cbn [onHeader]; now apply onEndDirectory_run).
    unfold addEvent. cbn [stream trace closed ticks watcher].
    fold dir. rewrite <- !app_assoc. reflexivity.
  - rewrite !filter_app, L2. cbn [recvOps].
    rewrite (Join_render Hp Hn). reflexivity.
Qed.

Lemma all_rebuilt : forall x, rebuilt E f skips x.
Proof.
  apply rnode_induction.
  - apply file_rebuilt.
  - intros th dh es Hes r p th0 ths tr k rest Hp Hwf.
    now apply (@dir_rebuilt th dh es false Hes).
Qed.

End Rebuild.

Lemma filter_session_events E p d scp r u :
  filter localChange
    [EvNewSession; EvStdoutPipe; EvStdinPipe;
     EvStart (resourceCommand E p d scp r u)] = [].
Proof. reflexivity. Qed.

(** X11. [ReceiveDir] into an existing directory rebuilds below it the tree
    the remote sends, when no call fails and the filter accepts everything
    (or there is none): the directory of the source is created in the
    destination with its mode, its entries are created in it in the order
    sent, each file written to a file of its name with the mode of its
    header and the times of the time header before it, and each directory
    given the times of the time header before its start when its end header
    comes. Nothing else is done to the local file system, and [ReceiveDir]
    returns without error. *)
Theorem ReceiveDir_rebuilds_the_tree E s src dest f fi th dh es tr k :
  quiet E -> (forall p i, filterOrAny f p i = Ok true) -> ctx s = None ->
  osStat E (Clean dest) = Ok fi ->
  wfSent (rdir th dh es) = true ->
  let run := ReceiveDir E s src dest f
               (mkWorld (remoteSends (rdir th dh es)) tr false k None) in
  fst run = Ok tt /\
  stream (snd run) = [] /\
  exists l,
    trace (snd run) = tr ++ l /\
    filter localChange l = recvOps (Clean dest) (rdir th dh es).
Proof.
  intros Hq Hf Hc Hs Hwf run. subst run.
  rewrite (ReceiveDir_existing E s src dest f _ Hs).
  destruct (Clean_normal dest) as [cs [Hd Hcs]].
  set (r := isRooted dest) in *. rewrite !Hd. clear Hd Hs.
  set (d := render r cs).
  set (root := rdir th dh es) in *.
  set (cmd := resourceCommand E (realPath E (Clean src)) false "" true true).
  destruct (@dir_rebuilt E (filterOrAny f) false Hq Hf th dh es true
              (proj2 (Forall_forall _ _)
                 (fun x _ => @all_rebuilt E (filterOrAny f) false Hq Hf x))
              r cs zeroTime []
              (tr ++ [EvStat d; EvNewSession; EvStdoutPipe; EvStdinPipe;
                      EvStart cmd])
              k [] Hcs Hwf eq_refl) as [l [k' [Hloop Hl]]].
  fold root d in Hloop, Hl. rewrite app_nil_r in Hloop.
  assert (Hfuel : exists m, S (length (remoteSends root)) =
                            headers root + S m).
  { pose proof (headers_le root) as Hle.
    exists (length (remoteSends root) - headers root). lia. }
  destruct Hfuel as [m Hm].
  assert (Hrun :
    runResourceSession E (ctx s) (realPath E (Clean src)) false "" true true
      (receiveDirHandler E (filterOrAny f) false d)
      (addEvent (EvStat d) (mkWorld (remoteSends root) tr false k None)) =
    (Ok tt,
     mkWorld []
       (tr ++ [EvStat d; EvNewSession; EvStdoutPipe; EvStdinPipe;
               EvStart cmd] ++
        l ++ [EvReadHeaderOrReply; EvWait; EvClose])
       true (S k') None)).
  { unfold runResourceSession.
    erewrite bind_ok by (now apply newResourceSession_runs).
    rewrite Hc. unfold defer.
    erewrite bind_ok by reflexivity.
    erewrite bind_ok.
    2:{ unfold receiveDirHandler, addEvent.
        cbn [stream trace closed ticks watcher].
        rewrite Hm. unfold rdInit. fold cmd.
        rewrite <- !app_assoc. cbn [app].
        rewrite Hloop, receiveLoop_end. reflexivity. }
    unfold sessionWait. rewrite call_ok by apply Hq.
    unfold sessionClose, addEvent. cbn [stream trace closed ticks watcher snd].
    now rewrite <- !app_assoc. }
  rewrite Hrun. cbn [fst snd stream trace].
  split; [reflexivity|]. split; [reflexivity|].
  eexists. split; [reflexivity|].
  rewrite !filter_app, Hl. cbn [filter localChange app].
  now rewrite app_nil_r.
Qed.

Lemma ReceiveDir_rebuilds_the_tree_witness :
  (quiet dirEnv /\ (forall p i, filterOrAny None p i = Ok true) /\
   ctx background = None /\
   osStat dirEnv (Clean "/tmp/dl") =
     Ok (NewFileInfo "dl" 0 (N.lor 493 ModeDir) 0 0) /\
   wfSent sampleSent = true) /\
  fst (ReceiveDir dirEnv background "/src" "/tmp/dl" None
         (mkWorld (remoteSends sampleSent) [] false 0 None)) = Ok tt.
Proof.
  assert (H1 : quiet dirEnv) by (intro ev; reflexivity).
  assert (H2 : forall p i, filterOrAny None p i = Ok true) by reflexivity.
  assert (H3 : ctx background = None) by reflexivity.
  assert (H4 : osStat dirEnv (Clean "/tmp/dl") =
               Ok (NewFileInfo "dl" 0 (N.lor 493 ModeDir) 0 0))
    by reflexivity.
  assert (H5 : wfSent sampleSent = true) by reflexivity.
  split; [auto|].
  exact (proj1 (@ReceiveDir_rebuilds_the_tree dirEnv background "/src"
                  "/tmp/dl" None _ _ _ _ [] 0%nat H1 H2 H3 H4 H5)).
Defined.

Example ReceiveDir_rebuilds_sample :
  recvOps "/tmp/dl" sampleSent =
  [EvMkdirAll "/tmp/dl/src" 493; EvChmod "/tmp/dl/src" 493;
   EvOpenFile "/tmp/dl/src/a" 420;
   EvCopyFileBodyTo {| fhMode := 420; fhSize := 2; fhName := "a" |}
                    (fileWriter "/tmp/dl/src/a");
   EvWrite (fileWriter "/tmp/dl/src/a") [Byte.x61; Byte.x62];
   EvFileClose "/tmp/dl/src/a"; EvChmod "/tmp/dl/src/a" 420;
   EvChtimes "/tmp/dl/src/a" 8 7;
   EvMkdirAll "/tmp/dl/src/sub" 448; EvChmod "/tmp/dl/src/sub" 448;
   EvOpenFile "/tmp/dl/src/sub/b" 384;
   EvCopyFileBodyTo {| fhMode := 384; fhSize := 1; fhName := "b" |}
                    (fileWriter "/tmp/dl/src/sub/b");
   EvWrite (fileWriter "/tmp/dl/src/sub/b") [Byte.x63];
   EvFileClose "/tmp/dl/src/sub/b"; EvChmod "/tmp/dl/src/sub/b" 384;
   EvChtimes "/tmp/dl/src/sub/b" 12 11;
   EvChtimes "/tmp/dl/src/sub" 10 9;
   EvChtimes "/tmp/dl/src" 6 5].
Proof. reflexivity. Qed.

(** X12. [ReceiveDir] into a destination that does not exist creates it
    with mode 0777 and puts the entries of the source directory directly
    into it, when no call fails and the filter accepts everything: the
    directory of the source itself is not created, and neither its mode nor
    its times are given to the destination. Nothing else is done to the
    local file system, and [ReceiveDir] returns without error. *)
Theorem ReceiveDir_into_a_new_directory E s src dest f e th dh es tr k :
  quiet E -> (forall p i, filterOrAny f p i = Ok true) -> ctx s = None ->
  osStat E (Clean dest) = Err e -> IsNotExist e = true ->
  wfSent (rdir th dh es) = true ->
  let run := ReceiveDir E s src dest f
               (mkWorld (remoteSends (rdir th dh es)) tr false k None) in
  fst run = Ok tt /\
  stream (snd run) = [] /\
  exists l,
    trace (snd run) = tr ++ l /\
    filter localChange l =
    EvMkdirAll (Clean dest) 511 :: flat_map (recvOps (Clean dest)) es.
Proof.
  intros Hq Hf Hc Hs Hn Hwf run. subst run.
  rewrite (ReceiveDir_fresh E s src dest f _ Hs Hn (Hq _)).
  destruct (Clean_normal dest) as [cs [Hd Hcs]].
  set (r := isRooted dest) in *. rewrite !Hd. clear Hd Hs.
  set (d := render r cs).
  set (cmd := resourceCommand E (realPath E (Clean src)) false "" true true).
  cbn [wfSent] in Hwf. apply andb_true_iff in Hwf as [_ Hwes].
  destruct (@entries_rebuilt E (filterOrAny f) true es
              (proj2 (Forall_forall _ _)
                 (fun x _ => @all_rebuilt E (filterOrAny f) true Hq Hf x))
              r cs th []
              (tr ++ [EvStat d; EvMkdirAll d ModePerm777; EvNewSession;
                      EvStdoutPipe; EvStdinPipe; EvStart cmd;
                      EvReadHeaderOrReply; EvReadHeaderOrReply])
              (S (S k)) [THeader endDirectoryMsg] Hcs Hwes)
    as [l [k' [th' [Hloop Hl]]]].
  fold d in Hloop, Hl.
  set (root := rdir th dh es).
  assert (Hfuel : exists m, S (length (remoteSends root)) =
                            S (S (list_sum (map headers es) + S (S m)))).
  { pose proof (headers_le root) as Hle. cbn [headers root] in Hle.
    exists (length (remoteSends root) - (3 + list_sum (map headers es))).
    lia. }
  destruct Hfuel as [m Hm].
  assert (Hrun :
    runResourceSession E (ctx s) (realPath E (Clean src)) false "" true true
      (receiveDirHandler E (filterOrAny f) true d)
      (addEvent (EvMkdirAll d ModePerm777)
         (addEvent (EvStat d) (mkWorld (remoteSends root) tr false k None))) =
    (Ok tt,
     mkWorld []
       (tr ++ [EvStat d; EvMkdirAll d ModePerm777; EvNewSession;
               EvStdoutPipe; EvStdinPipe; EvStart cmd;
               EvReadHeaderOrReply; EvReadHeaderOrReply] ++
        l ++ [EvReadHeaderOrReply; EvReadHeaderOrReply; EvWait; EvClose])
       true (S (S k')) None)).
  { unfold runResourceSession.
    erewrite bind_ok by (now apply newResourceSession_runs).
    rewrite Hc. unfold defer.
    erewrite bind_ok by reflexivity.
    erewrite bind_ok.
    2:{ unfold receiveDirHandler, addEvent.
        cbn [stream trace closed ticks watcher].
        rewrite Hm. unfold rdInit, root. cbn [remoteSends]. fold cmd.
        erewrite receiveLoop_step by reflexivity.
        erewrite receiveLoop_step
          by (cbn [onHeader]; now apply onStartDirectory_elided).
        cbn [curDir timeHeader timeHeaders skipBaseDir].
        rewrite <- !app_assoc. cbn [app].
        rewrite Hloop.
        erewrite receiveLoop_step by reflexivity.
        rewrite receiveLoop_end. reflexivity. }
    unfold sessionWait. rewrite call_ok by apply Hq.
    unfold sessionClose, addEvent. cbn [stream trace closed ticks watcher snd].
    now rewrite <- !app_assoc. }
  rewrite Hrun. cbn [fst snd stream trace].
  split; [reflexivity|]. split; [reflexivity|].
  eexists. split; [reflexivity|].
  rewrite !filter_app, Hl. cbn [filter localChange app].
  now rewrite app_nil_r.
Qed.

Lemma ReceiveDir_into_a_new_directory_witness :
  (quiet quietEnv /\ (forall p i, filterOrAny None p i = Ok true) /\
   ctx background = None /\
   osStat quietEnv (Clean "/tmp/new") = Err ErrNotExist /\
   IsNotExist ErrNotExist = true /\
   wfSent sampleSent = true) /\
  fst (ReceiveDir quietEnv background "/src" "/tmp/new" None
         (mkWorld (remoteSends sampleSent) [] false 0 None)) = Ok tt.
Proof.
  assert (H1 : quiet quietEnv) by (intro ev; reflexivity).
  assert (H2 : forall p i, filterOrAny None p i = Ok true) by reflexivity.
  assert (H3 : ctx background = None) by reflexivity.
  assert (H4 : osStat quietEnv (Clean "/tmp/new") = Err ErrNotExist)
    by reflexivity.
  assert (H5 : IsNotExist ErrNotExist = true) by reflexivity.
  assert (H6 : wfSent sampleSent = true) by reflexivity.
  split; [auto 10|].
  exact (proj1 (@ReceiveDir_into_a_new_directory quietEnv background "/src"
                  "/tmp/new" None _ _ _ _ [] 0%nat H1 H2 H3 H4 H5 H6)).
Defined.

(** ** Failures before the transfer begins *)

(** X13. When the session cannot be set up the sending operations do not
    run their handler: [runSinkSession] returns the error of the failed
    step as it is, nothing is sent and no local file is touched. A session
    that was created is closed before returning (after a failure to get a
    pipe or to start the remote command); when the session itself could not
    be created there is nothing to close. The steps are those of
    [newSinkSession] up to the start of the remote command; the making of
    the protocol object that follows is not among the sources. *)
Theorem sink_setup_failure E p d scp r u (handler : M unit) w e :
  fst (newSinkSession E p d scp r u w) = Err e ->
  let cmd := sinkCommand E p d scp r u in
  fst (runSinkSession E p d scp r u handler w) = Err e /\
  snd (runSinkSession E p d scp r u handler w) =
  snd (newSinkSession E p d scp r u w) /\
  (osErr E EvNewSession = None ->
   closed (snd (runSinkSession E p d scp r u handler w)) = true /\
   exists l,
     trace (snd (runSinkSession E p d scp r u handler w)) =
     trace w ++ l ++ [EvClose] /\
     (l = [EvNewSession; EvStdoutPipe] \/
      l = [EvNewSession; EvStdoutPipe; EvStdinPipe] \/
      l = [EvNewSession; EvStdoutPipe; EvStdinPipe; EvStart cmd])) /\
  (osErr E EvNewSession <> None ->
   trace (snd (runSinkSession E p d scp r u handler w)) =
   trace w ++ [EvNewSession] /\
   closed (snd (runSinkSession E p d scp r u handler w)) = closed w).
Proof.
  intros He cmd.
  assert (Hrun : runSinkSession E p d scp r u handler w =
                 (Err e, snd (newSinkSession E p d scp r u w))).
  { unfold runSinkSession.
    destruct (newSinkSession E p d scp r u w) as [[[]|e'] w1] eqn:Hn;
      [discriminate He|].
    cbn [fst] in He. inversion He; subst e'.
    now erewrite bind_err by exact Hn. }
  rewrite Hrun. cbn [fst snd].
  split; [reflexivity|]. split; [reflexivity|].
  revert He. unfold newSinkSession. fold cmd. run_M.
  destruct (osErr E EvNewSession) as [e0|]; cbn.
  { intros _. split; [intro H; discriminate H|]. intros _.
    split; reflexivity. }
  destruct (osErr E EvStdoutPipe) as [e1|]; cbn.
  { intros _. split; [|intro H; now contradiction H]. intros _.
    split; [reflexivity|]. exists [EvNewSession; EvStdoutPipe].
    split; [now rewrite <- !app_assoc | now left]. }
  destruct (osErr E EvStdinPipe) as [e2|]; cbn.
  { intros _. split; [|intro H; now contradiction H]. intros _.
    split; [reflexivity|]. exists [EvNewSession; EvStdoutPipe; EvStdinPipe].
    split; [now rewrite <- !app_assoc | now right; left]. }
  destruct (osErr E (EvStart cmd)) as [e3|]; cbn.
  { intros _. split; [|intro H; now contradiction H]. intros _.
    split; [reflexivity|].
    exists [EvNewSession; EvStdoutPipe; EvStdinPipe; EvStart cmd].
    split; [now rewrite <- !app_assoc | now right; right]. }
  intro H. discriminate H.
Qed.

Lemma sink_setup_failure_witness :
  let E := {| realPath := fun p => p;
              escapeShellArg := fun p => p;
              osStat := fun _ => Err ErrNotExist;
              osErr := fun ev => match ev with
                                 | EvStart _ => Some (errorString "no scp")
                                 | _ => None
                                 end |} in
  fst (newSinkSession E "/remote" false "" true true (initWorld [])) =
    Err (errorString "no scp") /\
  fst (runSinkSession E "/remote" false "" true true
         (emit (EvWriteFile (regInfo "f"))) (initWorld [])) =
    Err (errorString "no scp").
Proof.
  intro E.
  assert (H : fst (newSinkSession E "/remote" false "" true true
                     (initWorld [])) = Err (errorString "no scp"))
    by reflexivity.
  split; [exact H|].
  exact (proj1 (@sink_setup_failure E "/remote" false "" true true
                  (emit (EvWriteFile (regInfo "f"))) (initWorld []) _ H)).
Defined.

(** X14. When the lookup of the local destination fails with an error other
    than "does not exist", [ReceiveFile] and [ReceiveDir] return at once
    with that error in their message: no session is opened, nothing is
    created, and the lookup is the only call made. *)
Theorem destination_lookup_failure E s src dest f w e :
  osStat E (Clean dest) = Err e -> IsNotExist e = false ->
  ReceiveFile E s src dest w =
  (Err (errorString
          ("failed to get information of destnation file: err=" ++ Error e)),
   addEvent (EvStat (Clean dest)) w) /\
  ReceiveDir E s src dest f w =
  (Err (errorString
          ("failed to get information of destination directory: err=" ++
           Error e)),
   addEvent (EvStat (Clean dest)) w).
Proof.
  intros Hs Hn. split.
  - unfold ReceiveFile, receiveFileDest.
    erewrite bind_ok by reflexivity. now rewrite Hs, Hn.
  - unfold ReceiveDir.
    erewrite bind_ok by reflexivity. rewrite Hs, Hn. cbn [negb].
    now erewrite bind_err by reflexivity.
Qed.

Lemma destination_lookup_failure_witness :
  let E := {| realPath := fun p => p;
              escapeShellArg := fun p => p;
              osStat := fun _ => Err (errorString "permission denied");
              osErr := fun _ => None |} in
  (osStat E (Clean "/root/x") = Err (errorString "permission denied") /\
   IsNotExist (errorString "permission denied") = false) /\
  ReceiveDir E background "/src" "/root/x" None (initWorld []) =
  (Err (errorString
          "failed to get information of destination directory: err=permission denied"),
   addEvent (EvStat "/root/x") (initWorld [])).
Proof.
  intro E. split; [split; reflexivity|].
  exact (proj2 (@destination_lookup_failure E background "/src" "/root/x"
                  None (initWorld []) _ eq_refl eq_refl)).
Defined.

(** ** [ReceiveDir] passes over a rejected directory *)

Section Passing.
Variable E : env.
Variable f : AcceptFunc.
Variable skips : bool.









End Passing.



(** ** An end header that no start header opened *)



Example end_header_leaves_the_destination_sample :
  openedFiles
    (trace (snd (ReceiveDir dirEnv background "/src" "/tmp/dl" None
                   (initWorld ([tokE; tokT] ++ tokC "passwd" 2))))) =
  ["/tmp/passwd"].
Proof. reflexivity. Qed.

(** ** Sending from a source that cannot be read *)

(** X17. [SendDir] looks at the local source only after the remote command
    has been started: when the source cannot be read, the error of the
    lookup is what the walk returns, [SendDir] returns an error, and no
    file, directory marker or end marker has been sent; the filter is not
    asked and nothing is opened. *)
Theorem SendDir_unreadable_source E s e srcDir destDir f w :
  (exists e', fst (SendDir E s (Err e) srcDir destDir f w) = Err e') /\
  (osErr E EvNewSession = None -> osErr E EvStdoutPipe = None ->
   osErr E EvStdinPipe = None ->
   osErr E (EvStart (sinkCommand E (realPath E (Clean destDir)) false ""
                                 true true)) = None ->
   SendDir E s (Err e) srcDir destDir f w =
   (Err e,
    snd (sessionClose
           (addEvent EvCloseStdin
              (addEvent (EvStart (sinkCommand E (realPath E (Clean destDir))
                                              false "" true true))
                 (addEvent EvStdinPipe
                    (addEvent EvStdoutPipe (addEvent EvNewSession w)))))))) /\
  exists l,
    trace (snd (SendDir E s (Err e) srcDir destDir f w)) = trace w ++ l /\
    sinkOps l = [] /\ localOps l = [].
Proof.
  split; [|split].
  - unfold SendDir, runSinkSession.
    destruct (newSinkSession E (realPath E (Clean destDir)) false "" true
                true w) as [[[]|e1] w1] eqn:Hn.
    + erewrite bind_ok by exact Hn. unfold defer at 1.
      erewrite bind_err by (apply defer_emit; reflexivity).
      now exists e.
    + erewrite bind_err by exact Hn. now exists e1.
  - intros H1 H2 H3 H4. unfold SendDir, runSinkSession.
    erewrite bind_ok.
    2:{ unfold newSinkSession.
        erewrite bind_ok by (apply call_ok, H1).
        erewrite bind_ok; [|now rewrite call_ok by exact H2].
        erewrite bind_ok; [|now rewrite call_ok by exact H3].
        now rewrite call_ok by exact H4. }
    unfold defer at 1.
    now erewrite bind_err by (apply defer_emit; reflexivity).
  - assert (Hall : traceAll (fun ev => isSinkOp ev = false /\
                                       isLocalOp ev = false)
                     (SendDir E s (Err e) srcDir destDir f)).
    { unfold SendDir.
      apply traceAll_runSinkSession; try (split; reflexivity);
        try (intro; split; reflexivity).
      intro w0. exists []. split; [now rewrite app_nil_r | constructor]. }
    destruct (Hall w) as [l [Ht F]]. exists l. split; [exact Ht|].
    clear Ht. induction F as [|ev l [H1 H2] _ [IH1 IH2]]; [now split|].
    unfold sinkOps, localOps in *. cbn [filter]. now rewrite H1, H2.
Qed.

Lemma SendDir_unreadable_source_witness :
  (osErr quietEnv EvNewSession = None /\ osErr quietEnv EvStdoutPipe = None /\
   osErr quietEnv EvStdinPipe = None /\
   osErr quietEnv
     (EvStart (sinkCommand quietEnv (realPath quietEnv (Clean "/remote"))
                           false "" true true)) = None) /\
  fst (SendDir quietEnv background (Err ErrNotExist) "/x/none" "/remote" None
               (initWorld [])) = Err ErrNotExist.
Proof.
  split; [repeat split; reflexivity|].
  exact (f_equal fst
           (proj1 (proj2 (@SendDir_unreadable_source quietEnv background
                            ErrNotExist "/x/none" "/remote" None
                            (initWorld [])))
                  eq_refl eq_refl eq_refl eq_refl)).
Defined.

(** ** The session of a receive operation is always closed *)

(** X18. [runResourceSession], which runs [Receive], [ReceiveFile] and
    [ReceiveDir], never leaves a session open: once the session has been
    created, whatever step of the set-up fails, whatever the handler does
    and returns, and whatever [Wait] returns, the session is closed when
    [runResourceSession] returns, and closing it is the last call made. *)
Theorem resource_session_is_closed E c p d scp r u (handler : M unit) w :
  osErr E EvNewSession = None ->
  closed (snd (runResourceSession E c p d scp r u handler w)) = true /\
  exists tr,
    trace (snd (runResourceSession E c p d scp r u handler w)) =
    tr ++ [EvClose].
Proof.
  intro Hnew. unfold runResourceSession.
  destruct (newResourceSession E p d scp r u w) as [[[]|e] w1] eqn:Hn.
  - erewrite bind_ok by exact Hn. unfold defer.
    destruct ((goWatch c ;; handler ;; sessionWait E) w1) as [r0 w2].
    cbn [snd sessionClose closed trace]. split; [reflexivity|].
    now exists (trace w2).
  - erewrite bind_err by exact Hn. cbn [snd].
    revert Hn. unfold newResourceSession. run_M. rewrite Hnew. cbn.
    destruct (osErr E EvStdoutPipe) as [e1|]; cbn.
    { intro H. inversion H; subst. cbn. split; [reflexivity|]. eauto. }
    destruct (osErr E EvStdinPipe) as [e2|]; cbn.
    { intro H. inversion H; subst. cbn. split; [reflexivity|]. eauto. }
    destruct (osErr E (EvStart (resourceCommand E p d scp r u))) as [e3|]; cbn.
    { intro H. inversion H; subst. cbn. split; [reflexivity|]. eauto. }
    intro H. discriminate H.
Qed.

Lemma resource_session_is_closed_witness :
  osErr readOnlyEnv EvNewSession = None /\
  closed (snd (runResourceSession readOnlyEnv (Some 0%nat) "/remote/f" false
                 "" false true (throw (errorString "handler failed"))
                 (initWorld []))) = true.
Proof.
  split; [reflexivity|].
  exact (proj1 (@resource_session_is_closed readOnlyEnv (Some 0%nat)
                  "/remote/f" false "" false true
                  (throw (errorString "handler failed")) (initWorld [])
                  eq_refl)).
Defined.

(** ** The first start-directory header *)

Lemma first_mark_kept E f skips h st w st' w' :
  (forall dh, h <> startDirectoryMsg dh) ->
  onHeader E f skips h st w = (Ok st', w') ->
  isFirstStartDirectory st' = isFirstStartDirectory st.
Proof.
  intros Hh H. destruct h as [t|d| |fh|]; cbn [onHeader] in H.
  - inversion H; reflexivity.
  - now contradiction (Hh d).
  - unfold onEndDirectory in H.
    apply bind_Ok_inv in H as [st1 [w1 [H1 H]]].
    assert (Hf1 : isFirstStartDirectory st1 = isFirstStartDirectory st).
    { destruct (timeHeaders st); [inversion H1; reflexivity|].
      destruct (skipBaseDir st =? "")%string.
      - apply bind_Ok_inv in H1 as [u [w2 [_ H1]]]. inversion H1; reflexivity.
      - inversion H1; reflexivity. }
    destruct (negb (skipBaseDir st1 =? "")%string).
    + apply bind_Ok_inv in H as [sub [w2 [_ H]]].
      destruct (negb sub); inversion H; subst; exact Hf1.
    + inversion H; subst; exact Hf1.
  - unfold onFile in H. destruct (skipBaseDir st =? "")%string.
    + apply bind_Ok_inv in H as [u [w1 [_ H]]].
      destruct (f _ _) as [[|]|e].
      * apply bind_ret_state in H. now subst.
      * inversion H; reflexivity.
      * discriminate H.
    + apply bind_ret_state in H. now subst.
  - inversion H; reflexivity.
Qed.

(** Into a destination that did not exist: after the time header and the
    first start-directory header the loop goes on in the destination
    itself, and only the two reads were made. *)
Lemma first_directory_elided_loop E g d th dh rest tr k :
  exists r,
    receiveLoop (S (length rest)) E g true (mkRd d th [] false "")
      (mkWorld rest (tr ++ [EvReadHeaderOrReply; EvReadHeaderOrReply]) false
               (S (S k)) None) = Some r /\
    receiveDirHandler E g true d
      (mkWorld (THeader (timeMsg th) :: THeader (startDirectoryMsg dh) :: rest)
               tr false k None) = r.
Proof.
  destruct (@receiveLoop_total E g true (S (length rest))
              (mkRd d th [] false "")
              (mkWorld rest (tr ++ [EvReadHeaderOrReply; EvReadHeaderOrReply])
                       false (S (S k)) None)) as [r Hr]; [cbn; lia|].
  exists r. split; [exact Hr|].
  unfold receiveDirHandler. cbn [stream length]. unfold rdInit.
  erewrite receiveLoop_step by reflexivity.
  erewrite receiveLoop_step
    by (cbn [onHeader]; now apply onStartDirectory_elided).
  cbn [curDir timeHeader timeHeaders skipBaseDir].
  rewrite <- app_assoc. cbn [app]. now rewrite Hr.
Qed.

(** A start-directory header that is not elided, after its time header:
    the directory is joined to the current one, the filter is asked and the
    directory is created. *)
Lemma directory_nested_loop E g skips st th dh rest tr k fuel :
  isFirstStartDirectory st && skips = false -> skipBaseDir st = "" ->
  let dir := filepath.Join [curDir st; dhName dh] in
  let info := NewFileInfo (dhName dh) 0 (N.lor (dhMode dh) ModeDir)
                          (Mtime th) (Atime th) in
  g (Dir dir) info = Ok true ->
  osErr E (EvMkdirAll dir (dhMode dh)) = None ->
  osErr E (EvChmod dir (dhMode dh)) = None ->
  receiveLoop (S (S fuel)) E g skips st
    (mkWorld (THeader (timeMsg th) :: THeader (startDirectoryMsg dh) :: rest)
             tr false k None) =
  receiveLoop fuel E g skips
    (mkRd dir th (timeHeaders st ++ [th]) false "")
    (mkWorld rest
       (tr ++ [EvReadHeaderOrReply; EvReadHeaderOrReply;
               EvAccept (Dir dir) info; EvMkdirAll dir (dhMode dh);
               EvChmod dir (dhMode dh)])
       false (S (S k)) None).
Proof.
  intros Hb Hs dir info Hg Hm Hc.
  destruct st as [cur th0 ths b skip].
  cbn [isFirstStartDirectory skipBaseDir curDir timeHeaders] in *. subst skip.
  erewrite receiveLoop_step by reflexivity.
  cbn [curDir timeHeader timeHeaders isFirstStartDirectory skipBaseDir].
  erewrite receiveLoop_step.
  2:{ cbn [onHeader]. unfold onStartDirectory.
      cbn [isFirstStartDirectory skipBaseDir curDir timeHeader timeHeaders].
      rewrite Hb. cbn [String.eqb negb]. fold dir info.
      erewrite bind_ok by reflexivity. rewrite Hg.
      erewrite bind_ok by (apply wrap_ok, call_ok, Hm).
      erewrite bind_ok by (apply wrap_ok, call_ok, Hc).
      reflexivity. }
  unfold addEvent. cbn [stream trace closed ticks watcher].
  rewrite <- !app_assoc. reflexivity.
Qed.

(** C3. The first start-directory header is special. [ReceiveDir] runs its
    loop with the flag [skipsFirstDirectory] set exactly when the
    destination did not exist. With the flag set, the loop, given the time
    header and the start-directory header of the source directory, reads
    both and goes on in the destination itself: nothing is created, the
    filter is not asked, and the current directory stays the destination.
    With the flag not set the same two headers make the loop ask the filter
    and create the directory of the source inside the destination, and go
    on in it. Only the first start-directory header is treated so: no other
    header changes the mark, every start-directory header clears it, and a
    start-directory header that comes with the mark cleared is nested in
    the current directory whatever the flag is. *)
Theorem first_start_directory E s src dest f th dh rest tr k :
  let d := filepath.Clean dest in
  let g := filterOrAny f in
  let w := mkWorld (THeader (timeMsg th) :: THeader (startDirectoryMsg dh) ::
                    rest) tr false k None in
  let info := NewFileInfo (dhName dh) 0 (N.lor (dhMode dh) ModeDir)
                          (Mtime th) (Atime th) in
  (forall e w0, osStat E d = Err e -> IsNotExist e = true ->
                osErr E (EvMkdirAll d ModePerm777) = None ->
     ReceiveDir E s src dest f w0 =
     runResourceSession E (ctx s) (realPath E (filepath.Clean src)) false ""
       true true (receiveDirHandler E g true d)
       (addEvent (EvMkdirAll d ModePerm777) (addEvent (EvStat d) w0))) /\
  (forall fi w0, osStat E d = Ok fi ->
     ReceiveDir E s src dest f w0 =
     runResourceSession E (ctx s) (realPath E (filepath.Clean src)) false ""
       true true (receiveDirHandler E g false d)
       (addEvent (EvStat d) w0)) /\
  (exists r,
     receiveLoop (S (length rest)) E g true (mkRd d th [] false "")
       (mkWorld rest (tr ++ [EvReadHeaderOrReply; EvReadHeaderOrReply]) false
                (S (S k)) None) = Some r /\
     receiveDirHandler E g true d w = r) /\
  (let dir := filepath.Join [d; dhName dh] in
   g (Dir dir) info = Ok true ->
   osErr E (EvMkdirAll dir (dhMode dh)) = None ->
   osErr E (EvChmod dir (dhMode dh)) = None ->
   exists r,
     receiveLoop (S (length rest)) E g false (mkRd dir th [th] false "")
       (mkWorld rest
          (tr ++ [EvReadHeaderOrReply; EvReadHeaderOrReply;
                  EvAccept (Dir dir) info; EvMkdirAll dir (dhMode dh);
                  EvChmod dir (dhMode dh)])
          false (S (S k)) None) = Some r /\
     receiveDirHandler E g false d w = r) /\
  (forall st w1,
     isFirstStartDirectory st = true ->
     onStartDirectory E g true dh st w1 =
     (Ok (mkRd (curDir st) (timeHeader st) (timeHeaders st) false
               (skipBaseDir st)), w1)) /\
  (forall skips h st w1 st' w2,
     (forall dh', h <> startDirectoryMsg dh') ->
     onHeader E g skips h st w1 = (Ok st', w2) ->
     isFirstStartDirectory st' = isFirstStartDirectory st) /\
  (forall skips st w1 st' w2,
     onStartDirectory E g skips dh st w1 = (Ok st', w2) ->
     isFirstStartDirectory st' = false) /\
  (forall skips st fuel,
     isFirstStartDirectory st = false -> skipBaseDir st = "" ->
     let dir := filepath.Join [curDir st; dhName dh] in
     g (Dir dir) info = Ok true ->
     osErr E (EvMkdirAll dir (dhMode dh)) = None ->
     osErr E (EvChmod dir (dhMode dh)) = None ->
     receiveLoop (S (S fuel)) E g skips st w =
     receiveLoop fuel E g skips
       (mkRd dir th (timeHeaders st ++ [th]) false "")
       (mkWorld rest
          (tr ++ [EvReadHeaderOrReply; EvReadHeaderOrReply;
                  EvAccept (Dir dir) info; EvMkdirAll dir (dhMode dh);
                  EvChmod dir (dhMode dh)])
          false (S (S k)) None)).
Proof.
  intros d g w info. repeat split.
  - intros e w0 Hs Hn Hm. now apply ReceiveDir_fresh with (e := e).
  - intros fi w0 Hs. now apply ReceiveDir_existing with (fi := fi).
  - apply first_directory_elided_loop.
  - intros dir Hg Hm Hc.
    destruct (@receiveLoop_total E g false (S (length rest))
                (mkRd dir th [th] false "")
                (mkWorld rest
                   (tr ++ [EvReadHeaderOrReply; EvReadHeaderOrReply;
                           EvAccept (Dir dir) info; EvMkdirAll dir (dhMode dh);
                           EvChmod dir (dhMode dh)])
                   false (S (S k)) None)) as [r Hr]; [cbn; lia|].
    exists r. split; [exact Hr|].
    unfold receiveDirHandler, w. cbn [stream length].
    rewrite (@directory_nested_loop E g false (rdInit d) th dh rest tr k
               (S (length rest)) eq_refl eq_refl Hg Hm Hc).
    unfold rdInit. cbn [curDir timeHeaders app]. fold dir info.
    now rewrite Hr.
  - intros st w1. apply onStartDirectory_elided.
  - intros skips h st w1 st' w2. apply first_mark_kept.
  - intros skips st w1 st' w2. apply onStartDirectory_clears_first.
  - intros skips st fuel Hfirst Hs dir Hg Hm Hc.
    apply directory_nested_loop; auto. now rewrite Hfirst.
Qed.

Lemma first_start_directory_witness :
  let th := {| Mtime := 5; Atime := 6 |} in
  let dh := {| dhMode := 493; dhName := "src" |} in
  let rest := tokT :: tokC "a" 2 ++ [tokE] in
  let info := NewFileInfo "src" 0 (N.lor 493 ModeDir) 5 6 in
  (filterOrAny None (Dir (filepath.Join [filepath.Clean "/tmp/dl"; "src"]))
     info = Ok true /\
   osErr dirEnv (EvMkdirAll (filepath.Join [filepath.Clean "/tmp/dl"; "src"])
                            493) = None /\
   osErr dirEnv (EvChmod (filepath.Join [filepath.Clean "/tmp/dl"; "src"])
                         493) = None) /\
  exists r,
    receiveLoop (S (length rest)) dirEnv (filterOrAny None) false
      (mkRd "/tmp/dl/src" th [th] false "")
      (mkWorld rest
         ([] ++ [EvReadHeaderOrReply; EvReadHeaderOrReply;
                 EvAccept "/tmp/dl" info; EvMkdirAll "/tmp/dl/src" 493;
                 EvChmod "/tmp/dl/src" 493])
         false 2 None) = Some r /\
    receiveDirHandler dirEnv (filterOrAny None) false "/tmp/dl"
      (mkWorld (THeader (timeMsg th) :: THeader (startDirectoryMsg dh) :: rest)
               [] false 0 None) = r.
Proof.
  intros th dh rest info.
  split; [repeat split; reflexivity|].
  exact (proj1 (proj2 (proj2 (proj2
           (first_start_directory dirEnv background "/src" "/tmp/dl" None
              th dh rest [] 0%nat)))) eq_refl eq_refl eq_refl).
Defined.

(** C10. When the destination does not exist, [ReceiveDir] first creates it
    with [MkdirAll] and mode 0777: the creation is the second call of every
    run, before the session is started and any message is read, whatever
    happens later. The root directory is never passed to the filter: the
    loop runs with the flag set and the mark of the first start-directory
    header on, no header but a start-directory header changes the mark, and
    the start-directory header that finds the mark on makes no call at all,
    whatever time headers came before it. Given the time header and the
    start-directory header of the root, the loop reads both and goes on in
    the destination, the two reads being the only calls made. *)
Theorem ReceiveDir_creates_root E s src dest f w e :
  osStat E (filepath.Clean dest) = Err e ->
  IsNotExist e = true ->
  let d := filepath.Clean dest in
  let g := filterOrAny f in
  let created := addEvent (EvMkdirAll d 511) (addEvent (EvStat d) w) in
  (exists rest,
     trace (snd (ReceiveDir E s src dest f w)) =
     trace w ++ EvStat d :: EvMkdirAll d 511 :: rest) /\
  (osErr E (EvMkdirAll d 511) = None ->
   ReceiveDir E s src dest f w =
   runResourceSession E (ctx s) (realPath E (filepath.Clean src)) false ""
     true true (receiveDirHandler E g true d) created) /\
  (forall e', osErr E (EvMkdirAll d 511) = Some e' ->
   ReceiveDir E s src dest f w =
   (Err (errorString
           ("failed to create destination directory: err=" ++ Error e')),
    created)) /\
  (forall h st w1 st' w2,
     (forall dh, h <> startDirectoryMsg dh) ->
     onHeader E g true h st w1 = (Ok st', w2) ->
     isFirstStartDirectory st' = isFirstStartDirectory st) /\
  (forall dh st w1,
     isFirstStartDirectory st = true ->
     onStartDirectory E g true dh st w1 =
     (Ok (mkRd (curDir st) (timeHeader st) (timeHeaders st) false
               (skipBaseDir st)), w1)) /\
  (forall th dh rest tr k,
   exists r,
     receiveLoop (S (length rest)) E g true (mkRd d th [] false "")
       (mkWorld rest (tr ++ [EvReadHeaderOrReply; EvReadHeaderOrReply]) false
                (S (S k)) None) = Some r /\
     receiveDirHandler E g true d
       (mkWorld (THeader (timeMsg th) :: THeader (startDirectoryMsg dh) ::
                 rest) tr false k None) = r).
Proof.
  intros Hs Hn d g created.
  assert (Hfail : forall e', osErr E (EvMkdirAll d 511) = Some e' ->
            ReceiveDir E s src dest f w =
            (Err (errorString
                    ("failed to create destination directory: err=" ++
                     Error e')), created)).
  { intros e' Hm. unfold ReceiveDir.
    erewrite bind_ok by reflexivity. rewrite Hs, Hn. cbn [negb].
    erewrite bind_err; [reflexivity|].
    erewrite bind_err; [reflexivity|].
    apply wrap_err, call_err, Hm. }
  assert (Hgo : osErr E (EvMkdirAll d 511) = None ->
            ReceiveDir E s src dest f w =
            runResourceSession E (ctx s) (realPath E (filepath.Clean src))
              false "" true true (receiveDirHandler E g true d) created).
  { intro Hm. now apply ReceiveDir_fresh with (e := e). }
  split; [|split; [exact Hgo|split; [exact Hfail|split; [|split]]]].
  - destruct (osErr E (EvMkdirAll d 511)) as [e'|] eqn:Hm.
    + rewrite (Hfail e' eq_refl). exists []. cbn.
      now rewrite <- app_assoc.
    + rewrite (Hgo eq_refl).
      destruct (mono_runResourceSession E (ctx s)
                  (realPath E (filepath.Clean src)) false "" true true
                  (mono_receiveDirHandler E g true d) created)
        as [[l Hl] _].
      exists l. rewrite Hl. cbn. now rewrite <- !app_assoc.
  - intros h st w1 st' w2. apply first_mark_kept.
  - intros dh st w1. apply onStartDirectory_elided.
  - intros th dh rest tr k. apply first_directory_elided_loop.
Qed.

Lemma ReceiveDir_creates_root_witness :
  (osStat quietEnv (filepath.Clean "/tmp/new") = Err ErrNotExist /\
   IsNotExist ErrNotExist = true) /\
  exists rest,
    trace (snd (ReceiveDir quietEnv background "/src" "/tmp/new" None
                  (initWorld streamRejectedDir))) =
    trace (initWorld streamRejectedDir) ++
    EvStat "/tmp/new" :: EvMkdirAll "/tmp/new" 511 :: rest.
Proof.
  split; [split; reflexivity|].
  exact (proj1 (ReceiveDir_creates_root quietEnv background "/src" "/tmp/new"
                  None (initWorld streamRejectedDir) (e := ErrNotExist)
                  eq_refl eq_refl)).
Defined.
